(** * The realtime tutor bridge: a shallow embedding of the session actor

    The development follows the TypeScript sources of the worker:

    - [shared/src/types.ts] and the shared constants
      ([ALLOWED_CLIENT_EVENT_TYPES], [GLOBAL_TUTOR_RULES]);
    - [workers/realtime/src/tools.ts] ([gradeLesson], [triggerQuiz],
      [executeTool]);
    - the Durable Object [RealtimeSession] ([onUpstreamOpen],
      [handleClientMessage], [handleUpstreamMessage], [onToolCallDelta],
      [onToolCallDone], [sendUpstream], [sendClient], [cleanup]) and the
      listeners that [fetch] and [connectUpstream] register;
    - the worker's [fetch] handler with [isOriginAllowed] and
      [corsHeaders], and [scenarios.ts] ([getScenario],
      [getScenarioIndex]).

    JavaScript values are modelled dynamically (the [as string] casts of
    the source check nothing at run time), numbers are IEEE-754 doubles
    (Rocq's primitive floats), and the built-ins of the JavaScript runtime
    that the code calls ([JSON.parse], [JSON.stringify], the conversion of
    a number to a string) are parameters of the model. *)

From Stdlib Require Import ZArith List String Ascii Bool Floats DecimalString Lia.
Import ListNotations.
Set Warnings "-register-all".
Open Scope string_scope.

(* ===================================================================== *)
(** ** JavaScript values *)
(* ===================================================================== *)

Module JS.

(** The values [JSON.parse] can produce.  [undefined] (the result of
    reading a property that is not there) is [None] in [option value]. *)
Inductive value : Type :=
| Null
| Bool (b : bool)
| Num (x : float)
| Str (s : string)
| Arr (items : list value)
| Obj (props : list (string * value)).

(** An exception raised by the code or by the runtime. *)
Inductive exn : Type :=
| TypeError (message : string).

(** The completion of a call: it returns or it throws. *)
Inductive completion (A : Type) : Type :=
| Returned (a : A)
| Thrown (e : exn).
Arguments Returned {A} a.
Arguments Thrown {A} e.

Definition is_nan (x : float) : bool := negb (PrimFloat.eqb x x).

(** [!v] is false: the truthiness test of [if (v)], [!v], [a || b]. *)
Definition truthy (v : option value) : bool :=
  match v with
  | None => false
  | Some Null => false
  | Some (Bool b) => b
  | Some (Num x) => negb (PrimFloat.eqb x 0 || is_nan x)
  | Some (Str s) => negb (String.eqb s "")
  | Some (Arr _) => true
  | Some (Obj _) => true
  end.

(** [a || b] where [b] is never [undefined]. *)
Definition or_else (a : option value) (b : value) : value :=
  match a with
  | Some v => if truthy a then v else b
  | None => b
  end.

Fixpoint assoc (k : string) (props : list (string * value)) : option value :=
  match props with
  | [] => None
  | (k', v) :: rest => if String.eqb k k' then Some v else assoc k rest
  end.

(** [v.k] for a value that is not [null]: own properties of an object;
    none of the property names the code reads ([type], [call_id], [delta],
    [name], [arguments], [vocabulary_score], ...) exists on a number, a
    boolean, a string or an array. *)
Definition get_prop (v : value) (k : string) : option value :=
  match v with
  | Obj props => assoc k props
  | _ => None
  end.

(** [v.k] in general: reading a property of [null] throws. *)
Definition read_prop (v : value) (k : string) : completion (option value) :=
  match v with
  | Null =>
      Thrown (TypeError ("Cannot read properties of null (reading '" ++ k ++ "')"))
  | _ => Returned (get_prop v k)
  end.

(** SameValueZero, the equality of [Array.prototype.includes] and of the
    keys of a [Map].  Arrays and objects are compared by reference; every
    array or object the bridge meets is a fresh result of [JSON.parse], so
    two of them met at different places are never the same reference. *)
Definition same_value_zero (a b : value) : bool :=
  match a, b with
  | Null, Null => true
  | Bool x, Bool y => Bool.eqb x y
  | Num x, Num y => PrimFloat.eqb x y || (is_nan x && is_nan y)
  | Str x, Str y => String.eqb x y
  | _, _ => false
  end.

(** The double nearest to an integer (the integer itself below 2^53). *)
Definition float_of_Z (n : Z) : float :=
  SF2Prim (binary_normalize prec emax n 0 false).

(** [Math.round]: the integer nearest to [x], ties towards +infinity;
    NaN, the infinities, the zeros and the integers are returned as they
    are, and a negative [x >= -0.5] gives [-0]. *)
Definition Math_round (x : float) : float :=
  match Prim2SF x with
  | S754_finite s m e =>
      if (0 <=? e)%Z then x
      else
        let sm := if s then Z.neg m else Z.pos m in
        (* floor (sm * 2^e + 1/2) *)
        let n := Z.shiftr (2 * sm + Z.shiftl 1 (- e)) (1 - e) in
        if (n =? 0)%Z then (if s then (-0)%float else 0%float)
        else float_of_Z n
  | _ => x
  end.

End JS.
Export JS.

(* ===================================================================== *)
(** ** The runtime's built-ins *)
(* ===================================================================== *)

(** What [JSON.parse] does with a text: a value, or a [SyntaxError] with
    its message. *)
Inductive parse_result : Type :=
| Parsed (v : value)
| SyntaxError (message : string).

(** The built-ins the bridge calls and that the model leaves open. *)
Record Runtime : Type := {
  JSON_parse : string -> parse_result;
  JSON_stringify : value -> string;
  Number_toString : float -> string
}.

Definition join (sep : string) (parts : list string) : string :=
  String.concat sep parts.

Section WithRuntime.

Variable rt : Runtime.

(** What the conversion of an object to a primitive value throws when
    neither [toString] nor [valueOf] gives one. *)
Definition cannotConvert : exn :=
  TypeError "Cannot convert object to primitive value".

(** [String(v)], the conversion a template literal and [JSON.parse] apply
    to a value that is not a string.  An array is its elements joined by
    commas ([null] elements as the empty string).  An object calls its
    [toString]: the one of [Object.prototype] gives ["[object Object]"];
    an own property [toString] hides it, and as no value of [JSON.parse]
    can be called, the conversion then falls back on [valueOf], which
    gives no primitive value either, and throws. *)
Fixpoint ToString (v : value) : completion string :=
  match v with
  | Null => Returned "null"
  | Bool true => Returned "true"
  | Bool false => Returned "false"
  | Num x => Returned (Number_toString rt x)
  | Str s => Returned s
  | Arr items =>
      let fix elements (items : list value) : completion (list string) :=
        match items with
        | [] => Returned []
        | i :: rest =>
            match match i with Null => Returned "" | _ => ToString i end with
            | Thrown e => Thrown e
            | Returned t =>
                match elements rest with
                | Thrown e => Thrown e
                | Returned ts => Returned (t :: ts)
                end
            end
        end in
      match elements items with
      | Thrown e => Thrown e
      | Returned parts => Returned (join "," parts)
      end
  | Obj props =>
      match assoc "toString" props with
      | Some _ => Thrown cannotConvert
      | None => Returned "[object Object]"
      end
  end.

(** [`${v}`] where [v] may be [undefined]. *)
Definition template (v : option value) : completion string :=
  match v with
  | None => Returned "undefined"
  | Some v => ToString v
  end.

(* ===================================================================== *)
(** ** tools.ts *)
(* ===================================================================== *)

(** [typeof x === "number" ? x : 0]. *)
Definition number_or_zero (x : option value) : float :=
  match x with
  | Some (Num n) => n
  | _ => 0%float
  end.

(** [typeof x === "string" ? x : d]. *)
Definition string_or (x : option value) (d : string) : string :=
  match x with
  | Some (Str s) => s
  | _ => d
  end.

Definition gradeLesson (args : value) : completion value :=
  match read_prop args "vocabulary_score" with
  | Thrown e => Thrown e
  | Returned vocabulary_score =>
      let vocabScore := number_or_zero vocabulary_score in
      let grammarScore := number_or_zero (get_prop args "grammar_score") in
      let fluencyScore := number_or_zero (get_prop args "fluency_score") in
      let average := ((vocabScore + grammarScore + fluencyScore) / 3)%float in
      Returned (Obj [
        ("ok", Bool true);
        ("score", Num (Math_round (average * 100) / 100)%float);
        ("vocabulary_score", Num vocabScore);
        ("grammar_score", Num grammarScore);
        ("fluency_score", Num fluencyScore);
        ("notes", Str (string_or (get_prop args "notes") "stub"))
      ])
  end.

Definition triggerQuiz (args : value) (scenarioId : string) : completion value :=
  match read_prop args "lesson_id" with
  | Thrown e => Thrown e
  | Returned lesson_id =>
      Returned (Obj [
        ("ok", Bool true);
        ("quiz", Obj [
          ("lesson_id", Str (string_or lesson_id scenarioId));
          ("focus", Str (string_or (get_prop args "focus") "vocabulary"))
        ])
      ])
  end.

(** The [default] branch of the [switch]: the template literal converts
    the name, whatever value it is, to a string. *)
Definition unknownTool (name : value) : completion value :=
  match ToString name with
  | Thrown e => Thrown e
  | Returned n =>
      Returned (Obj [("ok", Bool false); ("error", Str ("Unknown tool: " ++ n))])
  end.

(** The [switch (name)] of [executeTool]: the tool result before it is
    serialised. *)
Definition toolResult (name : value) (args : value) (scenarioId : string)
  : completion value :=
  match name with
  | Str n =>
      if String.eqb n "grade_lesson" then gradeLesson args
      else if String.eqb n "trigger_quiz" then triggerQuiz args scenarioId
      else unknownTool name
  | _ => unknownTool name
  end.

Definition executeTool (name : value) (args : value) (scenarioId : string)
  : completion string :=
  match toolResult name args scenarioId with
  | Returned result => Returned (JSON_stringify rt result)
  | Thrown e => Thrown e
  end.


(* ===================================================================== *)
(** ** shared/src/types.ts and the shared constants *)
(* ===================================================================== *)

(** A scenario as the bridge reads it; [tools] is the array of tool
    schemas of the scenario's JSON file, passed on as it is. *)
Record Scenario : Type := {
  id : string;
  level : string;
  title : string;
  system : string;
  opening_line : string;
  tools : list value
}.

Definition ALLOWED_CLIENT_EVENT_TYPES : list string := [
  "input_audio_buffer.append";
  "input_audio_buffer.commit";
  "response.cancel";
  "conversation.item.truncate";
  "response.create";
  "conversation.item.create";
  "session.update"
].

Definition LF : string := String "010"%char EmptyString.

Definition GLOBAL_TUTOR_RULES : string :=
  "You are a friendly, encouraging language tutor having a real-time voice conversation with a student.

Rules:
- Speak in the target language at the student's level. Use simple vocabulary and short sentences for beginners.
- If the student makes a mistake, gently correct them and explain briefly.
- Keep your responses concise — this is a spoken conversation, not a written essay.
- Encourage the student frequently.
- Stay in character for the scenario described below.
- If the student asks to switch topics, politely steer them back to the lesson scenario.
- Use the provided tools (grade_lesson, trigger_quiz) when appropriate.
".

(** [ALLOWED_CLIENT_EVENT_TYPES.includes(v)]. *)
Definition includes (l : list string) (v : value) : bool :=
  existsb (fun t => same_value_zero (Str t) v) l.

(* ===================================================================== *)
(** ** The session: state, effects and the handler monad *)
(* ===================================================================== *)

Inductive ReadyState : Type := CONNECTING | OPEN | CLOSING | CLOSED.

(** The payload of a WebSocket message: [string | ArrayBuffer]. *)
Inductive WsData : Type :=
| Text (s : string)
| Binary (bytes : list Byte.byte).

(** The promise [connectUpstream] returns; [fetch] awaits it. *)
Inductive PromiseState : Type := Pending | Resolved | Rejected.

(** An entry of [pendingToolCalls]. *)
Record PendingToolCall : Type := {
  name : value;
  argFragments : list string
}.

(** A JavaScript [Map] with its insertion order; keys are compared with
    [same_value_zero]. *)
Definition JsMap : Type := list (value * PendingToolCall).

Fixpoint Map_get (m : JsMap) (k : value) : option PendingToolCall :=
  match m with
  | [] => None
  | (k', e) :: rest => if same_value_zero k' k then Some e else Map_get rest k
  end.

(** [m.set(k, e)]: the value of an existing key is replaced where it
    stands, a new key goes to the end. *)
Fixpoint Map_set (m : JsMap) (k : value) (e : PendingToolCall) : JsMap :=
  match m with
  | [] => [(k, e)]
  | (k', e') :: rest =>
      if same_value_zero k' k then (k', e) :: rest
      else (k', e') :: Map_set rest k e
  end.

(** [m.delete(k)].  A map holds a key once ([distinct_keys] below), so
    dropping what has the key drops the one entry. *)
Definition Map_delete (m : JsMap) (k : value) : JsMap :=
  filter (fun p => negb (same_value_zero (fst p) k)) m.

Definition Map_clear (m : JsMap) : JsMap := [].

(** The fields of [RealtimeSession].  A connection field is [null]
    ([None]) or a socket, of which the code reads the [readyState] only;
    [connecting] is the state of the promise of [connectUpstream]. *)
Record Session : Type := {
  clientWs : option ReadyState;
  upstreamWs : option ReadyState;
  scenarioId : string;
  userId : string;
  pendingToolCalls : JsMap;
  connecting : PromiseState
}.

Definition set_clientWs (ws : option ReadyState) (s : Session) : Session :=
  {| clientWs := ws; upstreamWs := upstreamWs s; scenarioId := scenarioId s;
     userId := userId s; pendingToolCalls := pendingToolCalls s;
     connecting := connecting s |}.

Definition set_upstreamWs (ws : option ReadyState) (s : Session) : Session :=
  {| clientWs := clientWs s; upstreamWs := ws; scenarioId := scenarioId s;
     userId := userId s; pendingToolCalls := pendingToolCalls s;
     connecting := connecting s |}.

Definition set_pendingToolCalls (m : JsMap) (s : Session) : Session :=
  {| clientWs := clientWs s; upstreamWs := upstreamWs s; scenarioId := scenarioId s;
     userId := userId s; pendingToolCalls := m; connecting := connecting s |}.

Definition set_connecting (p : PromiseState) (s : Session) : Session :=
  {| clientWs := clientWs s; upstreamWs := upstreamWs s; scenarioId := scenarioId s;
     userId := userId s; pendingToolCalls := pendingToolCalls s; connecting := p |}.

(** [ws?.readyState === WebSocket.OPEN]. *)
Definition is_open (ws : option ReadyState) : bool :=
  match ws with
  | Some OPEN => true
  | _ => false
  end.

(** What a handler does to the outside, in the order it does it.
    [ToolDispatch] records a call of [executeTool]. *)
Inductive Effect : Type :=
| UpstreamSend (data : string)
| ClientSend (data : WsData)
| UpstreamClose (code : Z) (reason : string)
| ClientClose (code : Z) (reason : string)
| ToolDispatch (tool : value) (args : value).

(** A handler: from the session's state to a completion, the new state
    and the effects.  The state changes made before a [throw] stay. *)
Definition M (A : Type) : Type := Session -> completion A * Session * list Effect.

Definition ret {A} (a : A) : M A := fun s => (Returned a, s, []).

Definition bind {A B} (m : M A) (f : A -> M B) : M B :=
  fun s =>
    match m s with
    | (Returned a, s1, t1) =>
        match f a s1 with
        | (r, s2, t2) => (r, s2, (t1 ++ t2)%list)
        end
    | (Thrown e, s1, t1) => (Thrown e, s1, t1)
    end.

Definition get : M Session := fun s => (Returned s, s, []).
Definition modify (f : Session -> Session) : M unit := fun s => (Returned tt, f s, []).
Definition emit (e : Effect) : M unit := fun s => (Returned tt, s, [e]).
Definition lift {A} (c : completion A) : M A := fun s => (c, s, []).

Notation "x <- m ;; k" := (bind m (fun x => k))
  (at level 61, m at next level, right associativity).
Notation "m ;; k" := (bind m (fun _ => k))
  (at level 61, right associativity).

Definition outcome {A} (r : completion A * Session * list Effect) : completion A :=
  fst (fst r).
Definition state_after {A} (r : completion A * Session * list Effect) : Session :=
  snd (fst r).
Definition effects {A} (r : completion A * Session * list Effect) : list Effect :=
  snd r.

(* ===================================================================== *)
(** ** RealtimeSession *)
(* ===================================================================== *)

Definition sendUpstream (data : value) : M unit :=
  s <- get ;;
  if is_open (upstreamWs s) then emit (UpstreamSend (JSON_stringify rt data))
  else ret tt.

Definition sendClient (data : value) : M unit :=
  s <- get ;;
  if is_open (clientWs s) then emit (ClientSend (Text (JSON_stringify rt data)))
  else ret tt.

(** The three events of [onUpstreamOpen]. *)
Definition sessionUpdateEvent (scenario : Scenario) : value :=
  Obj [
    ("type", Str "session.update");
    ("session", Obj [
      ("instructions", Str (GLOBAL_TUTOR_RULES ++ LF ++ LF ++ system scenario));
      ("turn_detection", Obj [
        ("type", Str "server_vad");
        ("interrupt_response", Bool true);
        ("create_response", Bool true)
      ]);
      ("modalities", Arr [Str "audio"; Str "text"]);
      ("input_audio_format", Str "pcm16");
      ("output_audio_format", Str "pcm16");
      ("tools", Arr (tools scenario))
    ])
  ].

Definition openingMessageEvent (scenario : Scenario) : value :=
  Obj [
    ("type", Str "conversation.item.create");
    ("item", Obj [
      ("type", Str "message");
      ("role", Str "assistant");
      ("content", Arr [
        Obj [
          ("type", Str "input_text");
          ("text", Str (opening_line scenario))
        ]
      ])
    ])
  ].

Definition responseCreateEvent : value :=
  Obj [("type", Str "response.create")].

Definition onUpstreamOpen (scenario : Scenario) : M unit :=
  sendUpstream (sessionUpdateEvent scenario) ;;
  sendUpstream (openingMessageEvent scenario) ;;
  sendUpstream responseCreateEvent.

(** The synthetic error event of the whitelist check; the template
    literal of its message converts the discriminant to a string. *)
Definition notAllowedEvent (eventType : option value) : completion value :=
  match template eventType with
  | Thrown e => Thrown e
  | Returned t =>
      Returned (Obj [
        ("type", Str "error");
        ("error", Obj [
          ("message", Str ("Event type not allowed: " ++ t))
        ])
      ])
  end.

Definition handleClientMessage (data : WsData) : M unit :=
  s <- get ;;
  if negb (is_open (upstreamWs s)) then ret tt
  else
    match data with
    | Binary _ => ret tt
    | Text text =>
        match JSON_parse rt text with
        | SyntaxError _ => ret tt
        | Parsed parsed =>
            eventType <- lift (read_prop parsed "type") ;;
            if negb (truthy eventType)
               || negb (match eventType with
                        | Some t => includes ALLOWED_CLIENT_EVENT_TYPES t
                        | None => false
                        end)
            then
              event <- lift (notAllowedEvent eventType) ;;
              sendClient event
            else emit (UpstreamSend text)
        end
    end.

(** The entry of [onToolCallDelta] after the event: the one found, or a
    new one, with the name the event carries (when it is a non-empty
    string) and the delta pushed. *)
Definition pushFragment (found : option PendingToolCall) (event : value)
    (delta : string) : PendingToolCall :=
  let entry :=
    match found with
    | Some e => e
    | None => {| name := or_else (get_prop event "name") (Str "");
                 argFragments := [] |}
    end in
  let entry :=
    match get_prop event "name" with
    | Some (Str n) =>
        if truthy (Some (Str n))
        then {| name := Str n; argFragments := argFragments entry |}
        else entry
    | _ => entry
    end in
  {| name := name entry; argFragments := (argFragments entry ++ [delta])%list |}.

Definition onToolCallDelta (event : value) : M unit :=
  call_id <- lift (read_prop event "call_id") ;;
  match call_id, get_prop event "delta" with
  | Some callId, Some (Str delta) =>
      if negb (truthy call_id) then ret tt
      else
        s <- get ;;
        let entry := pushFragment (Map_get (pendingToolCalls s) callId) event delta in
        modify (set_pendingToolCalls (Map_set (pendingToolCalls s) callId entry))
  | _, _ => ret tt
  end.

(** [entry ? entry.argFragments.join("") : (event.arguments as string) || "{}"]. *)
Definition resolveArgsString (entry : option PendingToolCall) (event : value) : value :=
  match entry with
  | Some e => Str (join "" (argFragments e))
  | None => or_else (get_prop event "arguments") (Str "{}")
  end.

(** [entry?.name || name], where [name] is [(event.name as string) || ""]. *)
Definition resolveToolName (entry : option PendingToolCall) (event : value) : value :=
  let event_name := or_else (get_prop event "name") (Str "") in
  match entry with
  | Some e => or_else (Some (name e)) event_name
  | None => event_name
  end.

Definition functionCallOutputEvent (callId : value) (output : string) : value :=
  Obj [
    ("type", Str "conversation.item.create");
    ("item", Obj [
      ("type", Str "function_call_output");
      ("call_id", callId);
      ("output", Str output)
    ])
  ].

(** The [ToolResult] of the [catch] branch, before it is serialised. *)
Definition parseFailureResult (message : string) : value :=
  Obj [
    ("ok", Bool false);
    ("error", Str ("Failed to parse tool arguments: " ++ message))
  ].

(** The [catch] branch of [onToolCallDone]; [message] is the message of
    the error that was caught. *)
Definition reportParseFailure (callId : value) (message : string) : M unit :=
  let errorOutput := JSON_stringify rt (parseFailureResult message) in
  sendUpstream (functionCallOutputEvent callId errorOutput) ;;
  sendUpstream responseCreateEvent.

(** The rest of [onToolCallDone], from [// Parse args safely] on.  In the
    [try], [JSON.parse] converts the argument string (any value, the
    cast checks nothing) to a string and parses it; whichever of the two
    throws, the error is caught and reported.  Otherwise the tool is run,
    outside the [try], and its output and a [response.create] go
    upstream. *)
Definition completeToolCall (callId argsString toolName : value) : M unit :=
  match ToString argsString with
  | Thrown (TypeError message) => reportParseFailure callId message
  | Returned text =>
      match JSON_parse rt text with
      | SyntaxError message => reportParseFailure callId message
      | Parsed args =>
          s <- get ;;
          emit (ToolDispatch toolName args) ;;
          output <- lift (executeTool toolName args (scenarioId s)) ;;
          sendUpstream (functionCallOutputEvent callId output) ;;
          sendUpstream responseCreateEvent
      end
  end.

Definition onToolCallDone (event : value) : M unit :=
  call_id <- lift (read_prop event "call_id") ;;
  match call_id with
  | None => ret tt
  | Some callId =>
      if negb (truthy call_id) then ret tt
      else
        s <- get ;;
        let entry := Map_get (pendingToolCalls s) callId in
        let argsString := resolveArgsString entry event in
        let toolName := resolveToolName entry event in
        modify (set_pendingToolCalls (Map_delete (pendingToolCalls s) callId)) ;;
        completeToolCall callId argsString toolName
  end.

(** The [switch (event.type)] of [handleUpstreamMessage]. *)
Definition interceptToolCall (event : value) : M unit :=
  type <- lift (read_prop event "type") ;;
  match type with
  | Some (Str t) =>
      if String.eqb t "response.function_call_arguments.delta"
      then onToolCallDelta event
      else if String.eqb t "response.function_call_arguments.done"
      then onToolCallDone event
      else ret tt
  | _ => ret tt
  end.

Definition handleUpstreamMessage (data : WsData) : M unit :=
  match data with
  | Binary bytes =>
      s <- get ;;
      match clientWs s with
      | Some _ => emit (ClientSend (Binary bytes))
      | None => ret tt
      end
  | Text text =>
      match JSON_parse rt text with
      | SyntaxError _ => ret tt
      | Parsed event =>
          interceptToolCall event ;;
          sendClient event
      end
  end.

Definition cleanup : M unit :=
  s <- get ;;
  (if is_open (upstreamWs s)
   then emit (UpstreamClose 1000 "Client disconnected")
   else ret tt) ;;
  modify (set_upstreamWs None) ;;
  modify (set_clientWs None) ;;
  modify (fun s => set_pendingToolCalls (Map_clear (pendingToolCalls s)) s).

(* ===================================================================== *)
(** ** The listeners registered by [fetch] and [connectUpstream] *)
(* ===================================================================== *)

(** [upstream.addEventListener("open", ...)]: [onUpstreamOpen], then
    [resolve()]. *)
Definition upstreamOpenListener (scenario : Scenario) : M unit :=
  onUpstreamOpen scenario ;;
  s <- get ;;
  match connecting s with
  | Pending => modify (set_connecting Resolved)
  | _ => ret tt
  end.

(** [upstream.addEventListener("close", ...)]: the close is forwarded to
    the client, with the code and the reason of the upstream's close
    event; [close] leaves the client socket in the state [CLOSING]. *)
Definition upstreamCloseListener (code : Z) (reason : string) : M unit :=
  s <- get ;;
  if is_open (clientWs s) then
    emit (ClientClose code (if String.eqb reason "" then "Upstream closed" else reason)) ;;
    modify (set_clientWs (Some CLOSING))
  else ret tt.

Definition upstreamFailureMessage : string :=
  "Upstream WebSocket connection failed".

(** [upstream.addEventListener("error", ...)]: [reject(...)], which does
    nothing once the promise is settled; while it is pending, the [catch]
    block of [fetch] runs: one error event to the client, which is then
    closed with code 1011. *)
Definition upstreamErrorListener : M unit :=
  s <- get ;;
  match connecting s with
  | Pending =>
      modify (set_connecting Rejected) ;;
      emit (ClientSend (Text (JSON_stringify rt
        (Obj [("type", Str "error");
              ("error", Obj [("message", Str upstreamFailureMessage)])])))) ;;
      emit (ClientClose 1011 upstreamFailureMessage) ;;
      modify (set_clientWs (Some CLOSING))
  | _ => ret tt
  end.

(** What can happen to a session once [connectUpstream] has created the
    upstream socket. *)
Inductive Input : Type :=
| ClientMessage (data : WsData)
| ClientClosed
| ClientErrored
| UpstreamOpened
| UpstreamMessage (data : WsData)
| UpstreamClosed (code : Z) (reason : string)
| UpstreamErrored.

(** The listeners of the client socket are registered by [fetch] after
    the promise of [connectUpstream] has resolved. *)
Definition listener (scenario : Scenario) (i : Input) : M unit :=
  match i with
  | UpstreamOpened => upstreamOpenListener scenario
  | UpstreamMessage data => handleUpstreamMessage data
  | UpstreamClosed code reason => upstreamCloseListener code reason
  | UpstreamErrored => upstreamErrorListener
  | ClientMessage data =>
      s <- get ;;
      match connecting s with
      | Resolved => handleClientMessage data
      | _ => ret tt
      end
  | ClientClosed | ClientErrored =>
      s <- get ;;
      match connecting s with
      | Resolved => cleanup
      | _ => ret tt
      end
  end.

Definition with_state (st : ReadyState) (ws : option ReadyState) : option ReadyState :=
  match ws with
  | Some _ => Some st
  | None => None
  end.

(** The [readyState] the runtime gives a socket before it dispatches the
    socket's event. *)
Definition socketUpdate (i : Input) (s : Session) : Session :=
  match i with
  | UpstreamOpened => set_upstreamWs (with_state OPEN (upstreamWs s)) s
  | UpstreamClosed _ _ => set_upstreamWs (with_state CLOSED (upstreamWs s)) s
  | ClientClosed => set_clientWs (with_state CLOSED (clientWs s)) s
  | _ => s
  end.

Definition step (scenario : Scenario) (i : Input) : M unit :=
  modify (socketUpdate i) ;; listener scenario i.

(** Events are handled one at a time; an exception a listener throws ends
    that listener only. *)
Fixpoint process (scenario : Scenario) (inputs : list Input) (s : Session)
  : Session * list Effect :=
  match inputs with
  | [] => (s, [])
  | i :: rest =>
      let r := step scenario i s in
      let r' := process scenario rest (state_after r) in
      (fst r', (effects r ++ snd r')%list)
  end.

(** The session when [connectUpstream] has created the upstream socket:
    the client socket is accepted, the upstream socket is connecting. *)
Definition connectingSession (scenario_id user : string) : Session :=
  {| clientWs := Some OPEN; upstreamWs := Some CONNECTING;
     scenarioId := scenario_id; userId := user;
     pendingToolCalls := []; connecting := Pending |}.

End WithRuntime.

Arguments ret {A} a _ /.
Arguments get _ /.
Arguments modify f _ /.
Arguments emit e _ /.
Arguments lift {A} c _ /.

(* ===================================================================== *)
(** ** A runtime for the examples *)
(* ===================================================================== *)

(** The theorems below hold for every runtime.  To run the handlers on
    concrete messages the examples use a runtime that knows what
    [JSON.parse] returns on the few texts they send, and that serialises
    with the compact form of [JSON.stringify]. *)
Module Sample.

Definition dq : string := String "034"%char EmptyString.

Definition quoted (s : string) : string := dq ++ s ++ dq.

(** [{"k":v}], [v] a JSON text. *)
Definition field (k v : string) : string := quoted k ++ ":" ++ v.

Definition object (fields : list string) : string :=
  "{" ++ join "," fields ++ "}".

(** [{"type":"foo"}]. *)
Definition fooText : string := object [field "type" (quoted "foo")].

(** [{"type": "foo"}], the same event written with a space. *)
Definition spacedFooText : string :=
  "{" ++ quoted "type" ++ ": " ++ quoted "foo" ++ "}".

(** [{"type":"session.update"}]. *)
Definition sessionUpdateText : string :=
  object [field "type" (quoted "session.update")].

(** [{"type":"response.function_call_arguments.delta","call_id":"call_1","delta":d}]
    for a JSON text [d]. *)
Definition deltaText (d : string) : string :=
  object [field "type" (quoted "response.function_call_arguments.delta");
          field "call_id" (quoted "call_1");
          field "delta" d].

Definition deltaEvent (d : string) : value :=
  Obj [("type", Str "response.function_call_arguments.delta");
       ("call_id", Str "call_1");
       ("delta", Str d)].

(** [{"type":"response.function_call_arguments.done","call_id":"call_1","name":"grade_lesson","arguments":a}]
    for a JSON text [a]. *)
Definition doneText (a : string) : string :=
  object [field "type" (quoted "response.function_call_arguments.done");
          field "call_id" (quoted "call_1");
          field "name" (quoted "grade_lesson");
          field "arguments" a].

Definition doneEvent (a : string) : value :=
  Obj [("type", Str "response.function_call_arguments.done");
       ("call_id", Str "call_1");
       ("name", Str "grade_lesson");
       ("arguments", Str a)].

(** [{"vocabulary_score":8,"grammar_score":7,"fluency_score":9}]. *)
Definition scoresText : string :=
  object [field "vocabulary_score" "8"; field "grammar_score" "7";
          field "fluency_score" "9"].

Definition scores : value :=
  Obj [("vocabulary_score", Num 8); ("grammar_score", Num 7);
       ("fluency_score", Num 9)].

Definition parses : list (string * parse_result) := [
  (fooText, Parsed (Obj [("type", Str "foo")]));
  (spacedFooText, Parsed (Obj [("type", Str "foo")]));
  (sessionUpdateText, Parsed (Obj [("type", Str "session.update")]));
  ("null", Parsed Null);
  ("{}", Parsed (Obj []));
  (scoresText, Parsed scores);
  (deltaText (quoted "{"), Parsed (deltaEvent "{"));
  (deltaText (quoted "}"), Parsed (deltaEvent "}"));
  (doneText (quoted "null"), Parsed (doneEvent "null"));
  (doneText (quoted "{oops"), Parsed (doneEvent "{oops"));
  ("{oops", SyntaxError "Expected property name or '}' in JSON at position 1")
].

Fixpoint lookup (text : string) (table : list (string * parse_result))
  : parse_result :=
  match table with
  | [] => SyntaxError "Unexpected token"
  | (t, r) :: rest => if String.eqb text t then r else lookup text rest
  end.

Fixpoint escape (s : string) : string :=
  match s with
  | EmptyString => EmptyString
  | String c rest =>
      if Ascii.eqb c "034" then String "\" (String c (escape rest))
      else if Ascii.eqb c "\" then String "\" (String c (escape rest))
      else String c (escape rest)
  end.

(** The integer a double is, when it is one. *)
Definition integer_of (x : float) : option Z :=
  match Prim2SF x with
  | S754_zero _ => Some 0%Z
  | S754_finite s m e =>
      let sm := if s then Z.neg m else Z.pos m in
      if (0 <=? e)%Z then Some (Z.shiftl sm e)
      else if (Z.land (Z.pos m) (Z.ones (- e)) =? 0)%Z then Some (Z.shiftr sm (- e))
      else None
  | _ => None
  end.

Definition number (x : float) : string :=
  match integer_of x with
  | Some n => DecimalString.NilZero.string_of_int (Z.to_int n)
  | None => "NaN"
  end.

Fixpoint stringify (v : value) : string :=
  match v with
  | Null => "null"
  | Bool true => "true"
  | Bool false => "false"
  | Num x => number x
  | Str s => quoted (escape s)
  | Arr items => "[" ++ join "," (map stringify items) ++ "]"
  | Obj props =>
      "{" ++ join "," (map (fun p => quoted (escape (fst p)) ++ ":" ++ stringify (snd p)) props)
          ++ "}"
  end.

Definition runtime : Runtime :=
  {| JSON_parse := fun text => lookup text parses;
     JSON_stringify := stringify;
     Number_toString := number |}.

Definition scenario : Scenario :=
  {| id := "a1_taxi_bogota"; level := "A1"; title := "Taxi in Bogota";
     system := "You are a taxi driver in Bogota.";
     opening_line := "Buenos dias! A donde vamos?";
     tools := [] |}.

(** A session that is bridging: both sockets open, nothing pending. *)
Definition active : Session :=
  {| clientWs := Some OPEN; upstreamWs := Some OPEN;
     scenarioId := "a1_taxi_bogota"; userId := "anonymous";
     pendingToolCalls := []; connecting := Resolved |}.

End Sample.

(* ===================================================================== *)
(** ** scenarios.ts, index.ts and the prologue of [RealtimeSession.fetch] *)
(* ===================================================================== *)

(** The string built-ins of the platform that the worker calls and that
    the model leaves open. *)
Record Platform : Type := {
  String_trim : string -> string;
  String_toLowerCase : string -> string
}.

(** The scenario files bundled with the worker, [scenarios/index.json]
    and [scenarios/a1_taxi_bogota.json]; the latter is used as a
    [Scenario] without a check. *)
Record Catalog : Type := {
  scenarioIndex : value;
  a1TaxiBogota : Scenario
}.

(** The properties of the object literal [scenarioMap]. *)
Definition scenarioMap (catalog : Catalog) : list (string * Scenario) :=
  [("a1_taxi_bogota", a1TaxiBogota catalog)].

(** The names of the properties an object literal inherits from
    [Object.prototype]: eleven functions, and the accessor [__proto__],
    which gives the prototype itself. *)
Definition Object_prototype : list string := [
  "constructor"; "__defineGetter__"; "__defineSetter__"; "hasOwnProperty";
  "__lookupGetter__"; "__lookupSetter__"; "isPrototypeOf";
  "propertyIsEnumerable"; "toString"; "valueOf"; "__proto__"; "toLocaleString"
].

(** What [scenarioMap[id]] can give besides [undefined]: a scenario of
    the map, or the member of [Object.prototype] of that name, which is
    no scenario but passes every test of truthiness. *)
Inductive Member : Type :=
| Own (scenario : Scenario)
| Inherited (name : string).

Definition getScenarioIndex (catalog : Catalog) : value := scenarioIndex catalog.

Definition getScenario (catalog : Catalog) (id : string) : option Member :=
  match find (fun p => String.eqb id (fst p)) (scenarioMap catalog) with
  | Some (_, scenario) => Some (Own scenario)
  | None =>
      if existsb (String.eqb id) Object_prototype then Some (Inherited id)
      else None
  end.

(** What the handlers read of a [Request]: the method, the path and the
    query parameters of its URL, and two headers; [None] is [null]. *)
Record Request : Type := {
  method : string;
  pathname : string;
  originHeader : option string;
  upgradeHeader : option string;
  scenarioParam : option string;
  userParam : option string
}.

(** The body a [Response] is made with: none, a text, or the argument
    of [Response.json] -- a JSON value, a scenario, or a member of
    [Object.prototype] (what the platform makes of such a member, a body
    or an exception, is not modelled). *)
Inductive Body : Type :=
| NoBody
| TextBody (text : string)
| JsonBody (data : value)
| ScenarioBody (scenario : Scenario)
| MemberBody (name : string).

(** The [Response] a handler makes. *)
Record Response : Type := {
  status : Z;
  body : Body;
  headers : list (string * string)
}.

(** [s || d] for [s : string | null]. *)
Definition string_or_else (s : option string) (d : string) : string :=
  match s with
  | Some v => if String.eqb v "" then d else v
  | None => d
  end.

(** [!!s] for [s : string | null]. *)
Definition present (s : option string) : bool :=
  match s with
  | Some v => negb (String.eqb v "")
  | None => false
  end.

(** [s.split(c)] for a separator of one character. *)
Fixpoint split_on (c : ascii) (s : string) : list string :=
  match s with
  | EmptyString => [EmptyString]
  | String a rest =>
      match split_on c rest with
      | [] => []
      | hd :: tl =>
          if Ascii.eqb a c then EmptyString :: hd :: tl
          else String a hd :: tl
      end
  end.

Section WithPlatform.

Variable pf : Platform.

Definition isOriginAllowed (origin : option string) (allowedOrigins : string) : bool :=
  if String.eqb allowedOrigins "" then true
  else if negb (present origin) then false
  else
    let list := map (String_trim pf) (split_on "," allowedOrigins) in
    match origin with
    | Some o => existsb (String.eqb o) list
    | None => false
    end.

Definition corsHeaders (origin : option string) (allowedOrigins : string)
  : list (string * string) :=
  let headers := [("Access-Control-Allow-Methods", "GET, OPTIONS");
                  ("Access-Control-Allow-Headers", "Content-Type")] in
  if isOriginAllowed origin allowedOrigins
  then (headers ++ [("Access-Control-Allow-Origin", string_or_else origin "*")])%list
  else headers.

(** [!upgradeHeader || upgradeHeader.toLowerCase() !== "websocket"]. *)
Definition notWebSocketUpgrade (upgrade : option string) : bool :=
  negb (present upgrade)
  || negb (String.eqb (String_toLowerCase pf (string_or_else upgrade "")) "websocket").

(** What the worker does with a request: it returns the response it
    makes, with [new Response] or with [Response.json], or it passes the
    request to the Durable Object of the given name. *)
Inductive WorkerResult : Type :=
| Respond (response : Response)
| Forward (doName : string).

(** The [fetch] handler of the worker; [now] is [Date.now()]. *)
Definition workerFetch (catalog : Catalog) (ALLOWED_ORIGINS : string) (now : Z)
    (request : Request) : WorkerResult :=
  let origin := originHeader request in
  if String.eqb (method request) "OPTIONS" then
    Respond {| status := 204; body := NoBody;
               headers := corsHeaders origin ALLOWED_ORIGINS |}
  else if String.eqb (method request) "GET"
          && negb (present (upgradeHeader request))
          && negb (isOriginAllowed origin ALLOWED_ORIGINS)
          && (present origin && String.prefix "/api" (pathname request))
  then Respond {| status := 403; body := TextBody "Origin not allowed"; headers := [] |}
  else if String.eqb (pathname request) "/api/health" then
    Respond {| status := 200; body := JsonBody (Obj [("ok", Bool true)]);
               headers := corsHeaders origin ALLOWED_ORIGINS |}
  else if String.eqb (pathname request) "/api/scenarios" then
    Respond {| status := 200; body := JsonBody (getScenarioIndex catalog);
               headers := corsHeaders origin ALLOWED_ORIGINS |}
  else if String.prefix "/api/scenarios/" (pathname request) then
    let id := string_or_else
                (Some (last (split_on "/" (pathname request)) EmptyString))
                "" in
    match getScenario catalog id with
    | None =>
        Respond {| status := 404;
                   body := JsonBody (Obj [("error", Str "Scenario not found")]);
                   headers := corsHeaders origin ALLOWED_ORIGINS |}
    | Some (Own scenario) =>
        Respond {| status := 200; body := ScenarioBody scenario;
                   headers := corsHeaders origin ALLOWED_ORIGINS |}
    | Some (Inherited name) =>
        Respond {| status := 200; body := MemberBody name;
                   headers := corsHeaders origin ALLOWED_ORIGINS |}
    end
  else if String.eqb (pathname request) "/ws" then
    if notWebSocketUpgrade (upgradeHeader request) then
      Respond {| status := 426; body := TextBody "Expected WebSocket upgrade";
                 headers := [] |}
    else if negb (isOriginAllowed origin ALLOWED_ORIGINS) && present origin then
      Respond {| status := 403; body := TextBody "Origin not allowed"; headers := [] |}
    else
      let scenarioId := string_or_else (scenarioParam request) "" in
      let userId := string_or_else (userParam request) "anonymous" in
      if String.eqb scenarioId "" then
        Respond {| status := 400; body := TextBody "Missing scenario query parameter";
                   headers := [] |}
      else
        Forward (userId ++ ":" ++ scenarioId ++ ":"
                 ++ DecimalString.NilZero.string_of_int (Z.to_int now))
  else Respond {| status := 404; body := TextBody "Not found"; headers := [] |}.

(** [RealtimeSession.fetch] up to the [await]: the request is refused, or
    the client socket is accepted and the upstream socket is created, for
    what [getScenario] gave. *)
Inductive SessionFetch : Type :=
| Refused (response : Response)
| Upgrading (scenario : Member).

Definition set_scenarioId (v : string) (s : Session) : Session :=
  {| clientWs := clientWs s; upstreamWs := upstreamWs s; scenarioId := v;
     userId := userId s; pendingToolCalls := pendingToolCalls s;
     connecting := connecting s |}.

Definition set_userId (v : string) (s : Session) : Session :=
  {| clientWs := clientWs s; upstreamWs := upstreamWs s; scenarioId := scenarioId s;
     userId := v; pendingToolCalls := pendingToolCalls s;
     connecting := connecting s |}.

Definition sessionFetch (catalog : Catalog) (request : Request)
  : Session -> SessionFetch * Session :=
  fun s =>
    if notWebSocketUpgrade (upgradeHeader request) then
      (Refused {| status := 426; body := TextBody "Expected WebSocket upgrade";
                  headers := [] |}, s)
    else
      let s := set_scenarioId (string_or_else (scenarioParam request) "") s in
      let s := set_userId (string_or_else (userParam request) "anonymous") s in
      match getScenario catalog (scenarioId s) with
      | None =>
          (Refused {| status := 400;
                      body := TextBody ("Unknown scenario: " ++ scenarioId s);
                      headers := [] |}, s)
      | Some scenario =>
          (* server.accept(); this.clientWs = server; connectUpstream *)
          let s := set_clientWs (Some OPEN) s in
          let s := set_upstreamWs (Some CONNECTING) s in
          (Upgrading scenario, set_connecting Pending s)
      end.

(** The fields of a [RealtimeSession] that has just been constructed
    (nothing is registered on a promise yet). *)
Definition newSession : Session :=
  {| clientWs := None; upstreamWs := None; scenarioId := ""; userId := "";
     pendingToolCalls := []; connecting := Pending |}.

(** A request from the worker's [fetch] to the session it is forwarded
    to, a Durable Object that was just made for it. *)
Definition route (catalog : Catalog) (ALLOWED_ORIGINS : string) (now : Z)
    (request : Request) : WorkerResult + (SessionFetch * Session) :=
  match workerFetch catalog ALLOWED_ORIGINS now request with
  | Forward _ => inr (sessionFetch catalog request newSession)
  | result => inl result
  end.

End WithPlatform.

(** A platform and a catalog for the examples: the strings the examples
    use are ASCII, where [trim] strips spaces, tabs and line ends and
    [toLowerCase] maps [A]-[Z] to [a]-[z]. *)
Module SampleWorker.

Definition is_space (c : ascii) : bool :=
  match c with
  | " "%char | "009"%char | "010"%char | "011"%char | "012"%char | "013"%char => true
  | _ => false
  end.

Fixpoint trimStart (s : string) : string :=
  match s with
  | String c rest => if is_space c then trimStart rest else s
  | EmptyString => EmptyString
  end.

Fixpoint trimEnd (s : string) : string :=
  match s with
  | EmptyString => EmptyString
  | String c rest =>
      match trimEnd rest with
      | EmptyString => if is_space c then EmptyString else String c EmptyString
      | rest' => String c rest'
      end
  end.

Definition lower (c : ascii) : ascii :=
  let n := nat_of_ascii c in
  if (65 <=? n)%nat && (n <=? 90)%nat then ascii_of_nat (n + 32) else c.

Fixpoint toLowerCase (s : string) : string :=
  match s with
  | EmptyString => EmptyString
  | String c rest => String (lower c) (toLowerCase rest)
  end.

Definition platform : Platform :=
  {| String_trim := fun s => trimEnd (trimStart s);
     String_toLowerCase := toLowerCase |}.

Definition catalog : Catalog :=
  {| scenarioIndex :=
       Arr [Obj [("id", Str "a1_taxi_bogota"); ("level", Str "A1");
                 ("title", Str "Taxi in Bogota")]];
     a1TaxiBogota := Sample.scenario |}.

Definition allowed : string := "https://tutor.example, http://localhost:5173".

(** [GET /ws?scenario=a1_taxi_bogota] with [Upgrade: WebSocket]. *)
Definition upgradeRequest (origin : option string) : Request :=
  {| method := "GET"; pathname := "/ws"; originHeader := origin;
     upgradeHeader := Some "WebSocket";
     scenarioParam := Some "a1_taxi_bogota"; userParam := None |}.

Definition getRequest (path : string) (origin : option string) : Request :=
  {| method := "GET"; pathname := path; originHeader := origin;
     upgradeHeader := None; scenarioParam := None; userParam := None |}.

End SampleWorker.

(** More messages for the examples: completion events for any tool, and a
    fragment event that carries a name. *)
Module Sample2.

Import Sample.

(** [{"type":"response.function_call_arguments.done","call_id":"call_2","name":tool,"arguments":a}]
    for a JSON text [a]. *)
Definition doneText (tool a : string) : string :=
  object [field "type" (quoted "response.function_call_arguments.done");
          field "call_id" (quoted "call_2");
          field "name" (quoted tool);
          field "arguments" a].

Definition doneEvent (tool a : string) : value :=
  Obj [("type", Str "response.function_call_arguments.done");
       ("call_id", Str "call_2");
       ("name", Str tool);
       ("arguments", Str a)].

(** [{"type":"response.function_call_arguments.done","name":"grade_lesson"}]:
    a completion event without a call id. *)
Definition anonymousText : string :=
  object [field "type" (quoted "response.function_call_arguments.done");
          field "name" (quoted "grade_lesson")].

Definition anonymousEvent : value :=
  Obj [("type", Str "response.function_call_arguments.done");
       ("name", Str "grade_lesson")].

(** A fragment event for [call_1] that carries the tool name. *)
Definition namedDelta (tool d : string) : value :=
  Obj [("type", Str "response.function_call_arguments.delta");
       ("call_id", Str "call_1");
       ("name", Str tool);
       ("delta", Str d)].

Definition parses : list (string * parse_result) :=
  ([(doneText "translate" (quoted "{}"), Parsed (doneEvent "translate" "{}"));
    (doneText "trigger_quiz" (quoted "{}"), Parsed (doneEvent "trigger_quiz" "{}"));
    (doneText "grade_lesson" (quoted scoresText),
     Parsed (doneEvent "grade_lesson" scoresText));
    (anonymousText, Parsed anonymousEvent)]
   ++ Sample.parses)%list.

Definition runtime : Runtime :=
  {| JSON_parse := fun text => lookup text parses;
     JSON_stringify := stringify;
     Number_toString := number |}.

End Sample2.

(* ===================================================================== *)
(** ** The vocabulary of the properties *)
(* ===================================================================== *)

(** The discriminant of a client message is not one of the seven
    whitelisted strings (it may be absent, or not a string at all). *)
Definition disallowed (eventType : option value) : Prop :=
  forall t, In t ALLOWED_CLIENT_EVENT_TYPES -> eventType <> Some (Str t).

(** The condition of the [if] of the whitelist check. *)
Definition rejected (eventType : option value) : bool :=
  negb (truthy eventType)
  || negb (match eventType with
           | Some t => includes ALLOWED_CLIENT_EVENT_TYPES t
           | None => false
           end).

(** The messages [sendUpstream] sends for a list of events. *)
Definition upstreamSends (rt : Runtime) (s : Session) (events : list value)
  : list Effect :=
  if is_open (upstreamWs s)
  then map (fun e => UpstreamSend (JSON_stringify rt e)) events
  else [].

(** The pending calls after [onToolCallDelta]. *)
Definition pendingAfterDelta (event : value) (m : JsMap) : JsMap :=
  match get_prop event "call_id", get_prop event "delta" with
  | Some callId, Some (Str delta) =>
      if truthy (Some callId)
      then Map_set m callId (pushFragment (Map_get m callId) event delta)
      else m
  | _, _ => m
  end.

(** What a handler sent to the client, in order. *)
Definition client_sends (t : list Effect) : list WsData :=
  flat_map (fun e => match e with ClientSend d => [d] | _ => [] end) t.

Definition doneType : string := "response.function_call_arguments.done".
Definition deltaType : string := "response.function_call_arguments.delta".

(** [JSON.parse(argsString)] gives [args]: the argument string, whatever
    value it is, converts to a text, and the text parses to [args]. *)
Definition parses_to (rt : Runtime) (argsString args : value) : Prop :=
  exists text,
    ToString rt argsString = Returned text /\ JSON_parse rt text = Parsed args.

(** [JSON.parse(argsString)] throws an error with the message [message]:
    the argument string does not convert to a string, or it converts to
    a text that is not JSON. *)
Definition parse_fails (rt : Runtime) (argsString : value) (message : string)
  : Prop :=
  ToString rt argsString = Thrown (TypeError message) \/
  exists text,
    ToString rt argsString = Returned text /\
    JSON_parse rt text = SyntaxError message.

(** [event] is a completion event with a call id whose argument string,
    resolved in the session [s], is JSON for [null]. *)
Definition null_arguments (rt : Runtime) (event : value) (s : Session) : Prop :=
  get_prop event "type" = Some (Str doneType) /\
  exists callId,
    get_prop event "call_id" = Some callId /\
    truthy (Some callId) = true /\
    parses_to rt
      (resolveArgsString (Map_get (pendingToolCalls s) callId) event) Null.

(** The value is an object with a property [toString], or an array that
    holds such a value (at any depth). *)
Fixpoint unprintable (v : value) : bool :=
  match v with
  | Obj props =>
      match assoc "toString" props with
      | Some _ => true
      | None => false
      end
  | Arr items => existsb unprintable items
  | _ => false
  end.

(** [event] is a completion event with a call id whose tool name,
    resolved in the session [s], is such a value. *)
Definition unprintable_name (event : value) (s : Session) : Prop :=
  get_prop event "type" = Some (Str doneType) /\
  exists callId,
    get_prop event "call_id" = Some callId /\
    truthy (Some callId) = true /\
    unprintable (resolveToolName (Map_get (pendingToolCalls s) callId) event)
    = true.

(** The event that carries the output of a call to the upstream:
    [{type:"conversation.item.create", item:{type:"function_call_output",
    call_id, output}}]. *)
Definition outputItem (callId : value) (output : string) : value :=
  Obj [("type", Str "conversation.item.create");
       ("item", Obj [("type", Str "function_call_output");
                     ("call_id", callId);
                     ("output", Str output)])].

(** The event that asks the upstream for a response. *)
Definition continuation : value := Obj [("type", Str "response.create")].

(** No two entries of the map share a key. *)
Definition distinct_keys (m : JsMap) : Prop :=
  ForallOrdPairs (fun p q => same_value_zero (fst p) (fst q) = false) m.

(** The fragments an entry holds, none when there is no entry. *)
Definition fragments_held (entry : option PendingToolCall) : list string :=
  match entry with
  | Some e => argFragments e
  | None => []
  end.

(** The delta of [event] when it is a fragment event for [callId]: its
    type is the fragment type, its [call_id] is [callId], its [delta] is a
    string. *)
Definition fragment_of (callId : string) (event : value) : option string :=
  match get_prop event "type", get_prop event "call_id", get_prop event "delta" with
  | Some (Str t), Some (Str c), Some (Str d) =>
      if String.eqb t deltaType && String.eqb c callId then Some d else None
  | _, _, _ => None
  end.

(** [event] is a completion event for [callId]. *)
Definition completes (callId : string) (event : value) : bool :=
  match get_prop event "type", get_prop event "call_id" with
  | Some (Str t), Some (Str c) => String.eqb t doneType && String.eqb c callId
  | _, _ => false
  end.

(** The deltas of the fragment events for [callId] among [events], in
    the order of arrival. *)
Definition fragments_of (callId : string) (events : list value) : list string :=
  flat_map (fun ev => match fragment_of callId ev with
                      | Some d => [d]
                      | None => []
                      end) events.

(** The session after the interception of a sequence of upstream events,
    one after the other. *)
Definition intercepted (rt : Runtime) (events : list value) (s : Session) : Session :=
  fold_left (fun s ev => state_after (interceptToolCall rt ev s)) events s.

(** [v.k1.k2...]. *)
Fixpoint path (v : value) (keys : list string) : option value :=
  match keys with
  | [] => Some v
  | k :: rest =>
      match get_prop v k with
      | Some v' => path v' rest
      | None => None
      end
  end.

(** The inputs that come from the client socket. *)
Definition from_client (i : Input) : bool :=
  match i with
  | ClientMessage _ | ClientClosed | ClientErrored => true
  | _ => false
  end.

(** The mean of three integers rounded to two decimal places, halves
    upwards, computed on the integers: the nearest hundredth is
    [floor (100 (a + b + c) / 3 + 1/2)] hundredths, and the score is the
    double nearest to it. *)
Definition exact_score (a b c : Z) : float :=
  (float_of_Z ((200 * (a + b + c) + 3) / 6) / 100)%float.

(** The field [k] of the result echoes the number the arguments give for
    [k], and is zero when they give none. *)
Definition echoes (props : list (string * value)) (result : value) (k : string)
  : Prop :=
  (forall x, assoc k props = Some (Num x) -> get_prop result k = Some (Num x)) /\
  ((forall x, assoc k props <> Some (Num x)) -> get_prop result k = Some (Num 0)).

(** The whole numbers from 0 to 100. *)
Definition whole_scores : list Z := map Z.of_nat (seq 0 101).

(** The arguments give the whole number [n] for [k]; giving no number
    counts as giving zero. *)
Definition gives (props : list (string * value)) (k : string) (n : Z) : Prop :=
  assoc k props = Some (Num (float_of_Z n)) \/
  ((forall x, assoc k props <> Some (Num x)) /\ n = 0%Z).

(** The exact value of a finite double, [m * 2^e], as [(m, e)]. *)
Definition exact_value (x : float) : option (Z * Z) :=
  match Prim2SF x with
  | S754_zero _ => Some (0, 0)%Z
  | S754_finite s m e => Some (if s then Z.neg m else Z.pos m, e)
  | _ => None
  end.

(** The mean of three finite doubles rounded to two decimal places,
    halves upwards, in hundredths: [floor (100 (a + b + c) / 3 + 1/2)],
    computed on the exact values of the doubles. *)
Definition mean_in_hundredths (a b c : float) : option Z :=
  match exact_value a, exact_value b, exact_value c with
  | Some (ma, ea), Some (mb, eb), Some (mc, ec) =>
      let e := Z.min 0 (Z.min ea (Z.min eb ec)) in
      (* a + b + c = n / 2^(-e) *)
      let n := (ma * 2 ^ (ea - e) + mb * 2 ^ (eb - e) + mc * 2 ^ (ec - e))%Z in
      Some ((200 * n + 3 * 2 ^ (- e)) / (6 * 2 ^ (- e)))%Z
  | _, _, _ => None
  end.

(** What a handler sent upstream, in order. *)
Definition sent_upstream (t : list Effect) : list string :=
  flat_map (fun e => match e with UpstreamSend d => [d] | _ => [] end) t.

(** An effect that reaches neither connection. *)
Definition internal (e : Effect) : bool :=
  match e with
  | ToolDispatch _ _ => true
  | _ => false
  end.

(** The name is one of the two tools of [executeTool]. *)
Definition registered (tool : value) : Prop :=
  tool = Str "grade_lesson" \/ tool = Str "trigger_quiz".

(** The failure result for a tool that is not known, [n] being its name
    as a string. *)
Definition unknownToolResult (n : string) : value :=
  Obj [("ok", Bool false); ("error", Str ("Unknown tool: " ++ n))].

(** A client text message that the whitelist lets through. *)
Definition passes (rt : Runtime) (data : WsData) : bool :=
  match data with
  | Binary _ => false
  | Text text =>
      match JSON_parse rt text with
      | Parsed Null => false
      | Parsed parsed => negb (rejected (get_prop parsed "type"))
      | SyntaxError _ => false
      end
  end.

(** The texts among the payloads that pass the whitelist, in order. *)
Definition passing (rt : Runtime) (messages : list WsData) : list string :=
  flat_map (fun data => match data with
                        | Text text => if passes rt data then [text] else []
                        | Binary _ => []
                        end) messages.

(** Every key of the map is a value that counts as a call id, and every
    entry holds at least one fragment. *)
Definition well_formed (m : JsMap) : Prop :=
  Forall (fun p => truthy (Some (fst p)) = true /\ argFragments (snd p) <> []) m.

(** The name a fragment event for [callId] gives its entry: a non-empty
    string [name]. *)
Definition name_of (callId : string) (event : value) : option string :=
  match fragment_of callId event, get_prop event "name" with
  | Some _, Some (Str n) => if String.eqb n "" then None else Some n
  | _, _ => None
  end.

(** The last name the fragment events for [callId] give, if any does. *)
Fixpoint last_name (callId : string) (events : list value) : option string :=
  match events with
  | [] => None
  | ev :: rest =>
      match last_name callId rest with
      | Some n => Some n
      | None => name_of callId ev
      end
  end.

(** The inputs that can follow a failed handshake: the client's events,
    and the error and close events of the upstream socket. *)
Definition after_failure (i : Input) : bool :=
  match i with
  | UpstreamOpened | UpstreamMessage _ => false
  | _ => true
  end.

(** The character occurs in the string. *)
Fixpoint has_char (c : ascii) (s : string) : bool :=
  match s with
  | EmptyString => false
  | String a rest => Ascii.eqb a c || has_char c rest
  end.

(** The entries of [ALLOWED_ORIGINS]: its comma-separated parts, trimmed. *)
Definition allowedList (pf : Platform) (allowedOrigins : string) : list string :=
  map (String_trim pf) (split_on "," allowedOrigins).

Definition allowOrigin : string := "Access-Control-Allow-Origin".

(** The lookup of [id] in the scenario map gives [found]: the bundled
    scenario for its id, or, for a name that an object literal inherits,
    the member of [Object.prototype] of that name. *)
Definition looked_up (catalog : Catalog) (id : string) (found : Member) : Prop :=
  (id = "a1_taxi_bogota" /\ found = Own (a1TaxiBogota catalog)) \/
  (In id Object_prototype /\ found = Inherited id).

(** The lookup of [id] gives [undefined]. *)
Definition unknown_id (id : string) : Prop :=
  id <> "a1_taxi_bogota" /\ ~ In id Object_prototype.

(* ===================================================================== *)
(** ** Properties *)
(* ===================================================================== *)

(** *** Values and the whitelist *)

Lemma same_value_zero_Str (k : value) (c : string) :
  same_value_zero k (Str c) = true <-> k = Str c.
Proof.
  destruct k; cbn; split; intros H; try discriminate.
  - apply String.eqb_eq in H. now subst.
  - injection H as ->. apply String.eqb_refl.
Qed.

Lemma same_value_zero_Str_l (k : value) (c : string) :
  same_value_zero (Str c) k = true <-> k = Str c.
Proof.
  destruct k; cbn; split; intros H; try discriminate.
  - apply String.eqb_eq in H. now subst.
  - injection H as ->. apply String.eqb_refl.
Qed.

Lemma includes_In (l : list string) (v : value) :
  includes l v = true <-> exists t, In t l /\ v = Str t.
Proof.
  unfold includes. rewrite existsb_exists. split.
  - intros (t & Hin & H). apply same_value_zero_Str_l in H. eauto.
  - intros (t & Hin & ->). exists t. split; [assumption|].
    now apply same_value_zero_Str_l.
Qed.

Lemma disallowed_rejected (eventType : option value) :
  disallowed eventType <-> rejected eventType = true.
Proof.
  unfold disallowed, rejected. split.
  - intros H. destruct eventType as [v|]; [|reflexivity].
    destruct (includes ALLOWED_CLIENT_EVENT_TYPES v) eqn:E.
    + apply includes_In in E. destruct E as (t & Hin & ->).
      now destruct (H t Hin).
    + apply orb_true_r.
  - intros H t Hin ->. cbn in Hin.
    repeat (destruct Hin as [<- | Hin]; [discriminate H|]). contradiction.
Qed.

Lemma foo_disallowed : disallowed (Some (Str "foo")).
Proof. apply disallowed_rejected. reflexivity. Qed.

(** *** The conversion to a string *)

(** The conversion throws for the objects that have a property
    [toString] and the arrays that hold one, and for no other value. *)
Lemma ToString_unprintable (rt : Runtime) (v : value) :
  if unprintable v then ToString rt v = Thrown cannotConvert
  else exists t, ToString rt v = Returned t.
Proof.
  revert v. fix IH 1. intros [| [] | x | t | items | props]; cbn [unprintable];
    try (eexists; reflexivity).
  - cbn [ToString].
    match goal with
    | |- context [match ?F items with Returned _ => _ | Thrown _ => _ end] =>
        set (elements := F)
    end.
    assert (H : if existsb unprintable items
                then elements items = Thrown cannotConvert
                else exists ts, elements items = Returned ts).
    { induction items as [|i items IHitems]; [now exists []|].
      cbn [existsb]. specialize (IH i).
      assert (Hi : if unprintable i
                   then match i with Null => Returned "" | _ => ToString rt i end
                        = Thrown cannotConvert
                   else exists t,
                       match i with Null => Returned "" | _ => ToString rt i end
                       = Returned t).
      { destruct i; try exact IH. now exists "". }
      clear IH. unfold elements; fold elements.
      destruct (unprintable i); cbn [orb].
      - now rewrite Hi.
      - destruct Hi as [t ->].
        destruct (existsb unprintable items).
        + now rewrite IHitems.
        + destruct IHitems as [ts ->]. now eexists. }
    destruct (existsb unprintable items).
    + now rewrite H.
    + destruct H as [ts ->]. now eexists.
  - cbn [ToString]. destruct (assoc "toString" props); [reflexivity|].
    now eexists.
Qed.

Lemma ToString_throws (rt : Runtime) (v : value) :
  (exists e, ToString rt v = Thrown e) <-> unprintable v = true.
Proof.
  pose proof (ToString_unprintable rt v) as H.
  destruct (unprintable v).
  - split; [reflexivity|]. intros _. now exists cannotConvert.
  - destruct H as [t ->]. split; [intros [e He]; discriminate He|discriminate].
Qed.

(** *** The handler monad *)

Lemma bind_ret {A B} (a : A) (f : A -> M B) (s : Session) :
  bind (ret a) f s = f a s.
Proof. unfold bind, ret. now destruct (f a s) as [[r s2] t2]. Qed.

Lemma bind_get {B} (f : Session -> M B) (s : Session) :
  bind get f s = f s s.
Proof. unfold bind, get. now destruct (f s s) as [[r s2] t2]. Qed.

Lemma bind_modify {B} (g : Session -> Session) (f : unit -> M B) (s : Session) :
  bind (modify g) f s = f tt (g s).
Proof. unfold bind, modify. now destruct (f tt (g s)) as [[r s2] t2]. Qed.

Lemma bind_emit {B} (e : Effect) (f : unit -> M B) (s : Session) :
  bind (emit e) f s =
  (outcome (f tt s), state_after (f tt s), e :: effects (f tt s)).
Proof. unfold bind, emit. now destruct (f tt s) as [[r s2] t2]. Qed.

Lemma bind_lift_Returned {A B} (a : A) (f : A -> M B) (s : Session) :
  bind (lift (Returned a)) f s = f a s.
Proof. unfold bind, lift. now destruct (f a s) as [[r s2] t2]. Qed.

Lemma bind_lift_Thrown {A B} (e : exn) (f : A -> M B) (s : Session) :
  bind (lift (@Thrown A e)) f s = (Thrown e, s, []).
Proof. reflexivity. Qed.

Lemma bind_returned {A B} (m : M A) (f : A -> M B) (s s1 : Session)
    (a : A) (t1 : list Effect) :
  m s = (Returned a, s1, t1) ->
  bind m f s =
  (outcome (f a s1), state_after (f a s1), (t1 ++ effects (f a s1))%list).
Proof. intros H. unfold bind. rewrite H. now destruct (f a s1) as [[r s2] t2]. Qed.

Lemma bind_thrown {A B} (m : M A) (f : A -> M B) (s s1 : Session)
    (e : exn) (t1 : list Effect) :
  m s = (Thrown e, s1, t1) ->
  bind m f s = (Thrown e, s1, t1).
Proof. intros H. unfold bind. now rewrite H. Qed.

Create Rewrite HintDb handler.
#[local] Hint Rewrite @bind_ret @bind_get @bind_modify @bind_emit
  @bind_lift_Returned @bind_lift_Thrown : handler.

Ltac run := autorewrite with handler; cbn [outcome state_after effects fst snd].

Lemma sendClient_run (rt : Runtime) (data : value) (s : Session) :
  sendClient rt data s =
  (Returned tt, s,
   if is_open (clientWs s)
   then [ClientSend (Text (JSON_stringify rt data))] else []).
Proof. unfold sendClient. run. now destruct (is_open (clientWs s)). Qed.

Lemma sendUpstream_run (rt : Runtime) (data : value) (s : Session) :
  sendUpstream rt data s =
  (Returned tt, s,
   if is_open (upstreamWs s)
   then [UpstreamSend (JSON_stringify rt data)] else []).
Proof. unfold sendUpstream. run. now destruct (is_open (upstreamWs s)). Qed.

Lemma read_prop_not_null (v : value) (k : string) :
  v <> Null -> read_prop v k = Returned (get_prop v k).
Proof. now destruct v. Qed.

(** *** Client messages *)

Lemma handleClientMessage_closed (rt : Runtime) (s : Session) (data : WsData) :
  is_open (upstreamWs s) = false ->
  handleClientMessage rt data s = (Returned tt, s, []).
Proof. intros H. unfold handleClientMessage. run. now rewrite H. Qed.

(** What [handleClientMessage] does with a text that parses to a value
    other than [null], while the upstream connection is open. *)
Lemma handleClientMessage_parsed (rt : Runtime) (s : Session) (text : string)
    (parsed : value) :
  is_open (upstreamWs s) = true ->
  JSON_parse rt text = Parsed parsed ->
  parsed <> Null ->
  handleClientMessage rt (Text text) s =
  if rejected (get_prop parsed "type")
  then match notAllowedEvent rt (get_prop parsed "type") with
       | Returned event => sendClient rt event s
       | Thrown e => (Thrown e, s, [])
       end
  else (Returned tt, s, [UpstreamSend text]).
Proof.
  intros Hup Hparse Hnull. unfold handleClientMessage. run.
  rewrite Hup, Hparse. cbn [negb].
  rewrite (read_prop_not_null _ _ Hnull). run.
  fold (rejected (get_prop parsed "type")).
  destruct (rejected _); [|reflexivity].
  destruct (notAllowedEvent rt (get_prop parsed "type")); now run.
Qed.

Lemma handleClientMessage_null (rt : Runtime) (s : Session) (text : string) :
  is_open (upstreamWs s) = true ->
  JSON_parse rt text = Parsed Null ->
  handleClientMessage rt (Text text) s =
  (Thrown (TypeError "Cannot read properties of null (reading 'type')"), s, []).
Proof.
  intros Hup Hparse. unfold handleClientMessage. run.
  now rewrite Hup, Hparse.
Qed.

(** [handleClientMessage] never changes the session. *)
Lemma handleClientMessage_state (rt : Runtime) (data : WsData) (s : Session) :
  state_after (handleClientMessage rt data s) = s.
Proof.
  destruct (is_open (upstreamWs s)) eqn:Hup;
    [|now rewrite (handleClientMessage_closed rt s data Hup)].
  destruct data as [text|bytes];
    [|unfold handleClientMessage; run; now rewrite Hup].
  destruct (JSON_parse rt text) as [parsed|message] eqn:Hparse;
    [|unfold handleClientMessage; run; now rewrite Hup, Hparse].
  assert (Hnull : parsed = Null \/ parsed <> Null)
    by (destruct parsed; (now left) || (right; discriminate)).
  destruct Hnull as [-> | Hnull];
    [now rewrite (handleClientMessage_null rt s text Hup Hparse)|].
  rewrite (handleClientMessage_parsed rt s text parsed Hup Hparse Hnull).
  destruct (rejected _); [|reflexivity].
  destruct (notAllowedEvent rt _); [now rewrite sendClient_run|reflexivity].
Qed.

(** C10.  While the upstream connection is absent or not [OPEN], a client
    message of any kind (binary, malformed, whitelisted or not) is
    discarded: nothing is sent to either side, no error event is
    synthesised, and the session is left as it was. *)
Theorem client_message_discarded_unless_upstream_open
    (rt : Runtime) (s : Session) (data : WsData) :
  upstreamWs s <> Some OPEN ->
  handleClientMessage rt data s = (Returned tt, s, []).
Proof.
  intros H. apply handleClientMessage_closed.
  destruct (upstreamWs s) as [[]|]; try reflexivity. now destruct H.
Qed.

Lemma client_message_discarded_witness :
  upstreamWs (set_upstreamWs (Some CLOSED) Sample.active) <> Some OPEN /\
  handleClientMessage Sample.runtime (Text Sample.fooText)
    (set_upstreamWs (Some CLOSED) Sample.active)
  = (Returned tt, set_upstreamWs (Some CLOSED) Sample.active, []).
Proof.
  split; [discriminate|].
  apply client_message_discarded_unless_upstream_open. discriminate.
Defined.


(** X2.  While the upstream connection is open, a client text message
    whose discriminant is one of the seven whitelisted strings is sent
    upstream as it was received, and nothing else happens. *)
Theorem allowed_client_event_forwarded
    (rt : Runtime) (s : Session) (text : string) (parsed : value) (t : string) :
  is_open (upstreamWs s) = true ->
  JSON_parse rt text = Parsed parsed ->
  get_prop parsed "type" = Some (Str t) ->
  In t ALLOWED_CLIENT_EVENT_TYPES ->
  handleClientMessage rt (Text text) s = (Returned tt, s, [UpstreamSend text]).
Proof.
  intros Hup Hparse Hty Hin.
  assert (Hnull : parsed <> Null) by (intros ->; discriminate).
  rewrite (handleClientMessage_parsed rt s text parsed Hup Hparse Hnull).
  destruct (rejected (get_prop parsed "type")) eqn:E; [|reflexivity].
  apply disallowed_rejected in E. now destruct (E t Hin).
Qed.

Lemma allowed_client_event_witness :
  handleClientMessage Sample.runtime (Text Sample.sessionUpdateText) Sample.active
  = (Returned tt, Sample.active, [UpstreamSend Sample.sessionUpdateText]).
Proof.
  apply (allowed_client_event_forwarded Sample.runtime Sample.active
           Sample.sessionUpdateText (Obj [("type", Str "session.update")])
           "session.update"); try reflexivity.
  cbn. tauto.
Defined.

(** C1 (amended).  For every client text message whose parsed
    discriminant is not one of the seven whitelisted strings, nothing is
    forwarded upstream and the session (its pending calls included) is
    left unchanged; and while both connections are open and the message
    is not the JSON text [null], the client is sent exactly one synthetic
    event [{type:"error", error:{message:"Event type not allowed: <t>"}}],
    [<t>] being the discriminant as a string, when the discriminant
    converts to a string; when it does not (an object with a property
    [toString], or an array that holds one), the handler throws and
    nothing is sent. *)
Theorem disallowed_client_event_rejected
    (rt : Runtime) (s : Session) (text : string) (parsed : value) :
  JSON_parse rt text = Parsed parsed ->
  disallowed (get_prop parsed "type") ->
  let r := handleClientMessage rt (Text text) s in
  state_after r = s /\
  (forall d, ~ In (UpstreamSend d) (effects r)) /\
  (is_open (upstreamWs s) = true -> is_open (clientWs s) = true ->
   parsed <> Null ->
   (forall t, template rt (get_prop parsed "type") = Returned t ->
      r = (Returned tt, s,
           [ClientSend (Text (JSON_stringify rt
              (Obj [("type", Str "error");
                    ("error",
                     Obj [("message",
                           Str ("Event type not allowed: " ++ t))])])))])) /\
   (forall e, template rt (get_prop parsed "type") = Thrown e ->
      r = (Thrown e, s, []))).
Proof.
  intros Hparse Hdis r. subst r.
  apply disallowed_rejected in Hdis.
  destruct (is_open (upstreamWs s)) eqn:Hup.
  - assert (Hnull : parsed = Null \/ parsed <> Null)
      by (destruct parsed; (now left) || (right; discriminate)).
    destruct Hnull as [-> | Hnull].
    + rewrite (handleClientMessage_null rt s text Hup Hparse).
      split; [reflexivity|]. split; [intros d []|].
      intros _ _ H. now destruct H.
    + rewrite (handleClientMessage_parsed rt s text parsed Hup Hparse Hnull).
      rewrite Hdis. unfold notAllowedEvent.
      destruct (template rt (get_prop parsed "type")) as [t|e].
      * rewrite sendClient_run.
        split; [reflexivity|]. split.
        -- intros d Hin. cbn in Hin. destruct (is_open (clientWs s)).
           ++ destruct Hin as [Hin|[]]. discriminate Hin.
           ++ destruct Hin.
        -- intros _ Hcl _. rewrite Hcl. split.
           ++ intros t' H. now injection H as <-.
           ++ intros e H. discriminate H.
      * split; [reflexivity|]. split; [intros d []|].
        intros _ _ _. split.
        -- intros t H. discriminate H.
        -- intros e' H. now injection H as <-.
  - rewrite (handleClientMessage_closed rt s (Text text) Hup).
    split; [reflexivity|]. split; [intros d []|]. discriminate.
Qed.

Lemma disallowed_client_event_witness :
  handleClientMessage Sample.runtime (Text Sample.fooText) Sample.active
  = (Returned tt, Sample.active,
     [ClientSend (Text (JSON_stringify Sample.runtime
        (Obj [("type", Str "error");
              ("error",
               Obj [("message", Str "Event type not allowed: foo")])])))]).
Proof.
  destruct (disallowed_client_event_rejected Sample.runtime Sample.active
              Sample.fooText (Obj [("type", Str "foo")]) eq_refl foo_disallowed)
    as (_ & _ & H).
  destruct (H eq_refl eq_refl ltac:(discriminate)) as [Hsent _].
  exact (Hsent "foo" eq_refl).
Defined.

(** C1 as stated fails: once the upstream connection has closed, a client
    message with the discriminant ["foo"], which is not whitelisted, is
    answered with nothing. *)
Lemma disallowed_event_unanswered_after_upstream_close :
  let s := fst (process Sample.runtime Sample.scenario
                  [UpstreamOpened; UpstreamClosed 1000 ""]
                  (connectingSession "a1_taxi_bogota" "anonymous")) in
  JSON_parse Sample.runtime Sample.fooText = Parsed (Obj [("type", Str "foo")]) /\
  includes ALLOWED_CLIENT_EVENT_TYPES (Str "foo") = false /\
  connecting s = Resolved /\
  handleClientMessage Sample.runtime (Text Sample.fooText) s = (Returned tt, s, []).
Proof. repeat split. Qed.

(** *** Tool calls: what the handlers compute *)

Lemma reportParseFailure_run (rt : Runtime) (callId : value) (message : string)
    (s : Session) :
  reportParseFailure rt callId message s =
  (Returned tt, s,
   upstreamSends rt s
     [functionCallOutputEvent callId
        (JSON_stringify rt (parseFailureResult message));
      responseCreateEvent]).
Proof.
  unfold reportParseFailure, upstreamSends.
  rewrite (bind_returned _ _ _ _ _ _ (sendUpstream_run rt _ s)).
  rewrite sendUpstream_run. cbn [outcome state_after effects fst snd].
  now destruct (is_open (upstreamWs s)).
Qed.

Lemma completeToolCall_run (rt : Runtime) (callId argsString toolName : value)
    (s : Session) :
  completeToolCall rt callId argsString toolName s =
  match ToString rt argsString with
  | Thrown (TypeError message) => reportParseFailure rt callId message s
  | Returned text =>
      match JSON_parse rt text with
      | SyntaxError message => reportParseFailure rt callId message s
      | Parsed args =>
          match executeTool rt toolName args (scenarioId s) with
          | Returned output =>
              (Returned tt, s,
               ToolDispatch toolName args ::
               upstreamSends rt s
                 [functionCallOutputEvent callId output; responseCreateEvent])
          | Thrown e => (Thrown e, s, [ToolDispatch toolName args])
          end
      end
  end.
Proof.
  unfold completeToolCall, upstreamSends.
  destruct (ToString rt argsString) as [text|[message]]; [|reflexivity].
  destruct (JSON_parse rt text) as [args|message]; [|reflexivity].
  run. destruct (executeTool rt toolName args (scenarioId s)) as [output|e]; run.
  - rewrite (bind_returned _ _ _ _ _ _ (sendUpstream_run rt _ s)).
    rewrite sendUpstream_run. cbn [outcome state_after effects fst snd].
    now destruct (is_open (upstreamWs s)).
  - reflexivity.
Qed.

(** The arguments parse: the tool is run. *)
Lemma completeToolCall_parsed (rt : Runtime) (callId argsString toolName args : value)
    (s : Session) :
  parses_to rt argsString args ->
  completeToolCall rt callId argsString toolName s =
  match executeTool rt toolName args (scenarioId s) with
  | Returned output =>
      (Returned tt, s,
       ToolDispatch toolName args ::
       upstreamSends rt s
         [functionCallOutputEvent callId output; responseCreateEvent])
  | Thrown e => (Thrown e, s, [ToolDispatch toolName args])
  end.
Proof.
  intros (text & Htext & Hparse). now rewrite completeToolCall_run, Htext, Hparse.
Qed.

(** The arguments do not parse: the failure is reported. *)
Lemma completeToolCall_failed (rt : Runtime) (callId argsString toolName : value)
    (message : string) (s : Session) :
  parse_fails rt argsString message ->
  completeToolCall rt callId argsString toolName s =
  (Returned tt, s,
   upstreamSends rt s
     [functionCallOutputEvent callId
        (JSON_stringify rt (parseFailureResult message));
      responseCreateEvent]).
Proof.
  intros [Hthrown | (text & Htext & Hparse)]; rewrite completeToolCall_run.
  - rewrite Hthrown. apply reportParseFailure_run.
  - rewrite Htext, Hparse. apply reportParseFailure_run.
Qed.

(** [JSON.parse] of the argument string gives a value or throws. *)
Lemma parses_or_fails (rt : Runtime) (argsString : value) :
  (exists args, parses_to rt argsString args) \/
  (exists message, parse_fails rt argsString message).
Proof.
  unfold parses_to, parse_fails.
  destruct (ToString rt argsString) as [text|[message]] eqn:Htext.
  - destruct (JSON_parse rt text) as [args|message] eqn:Hparse.
    + left. exists args, text. now split.
    + right. exists message. right. exists text. now split.
  - right. exists message. now left.
Qed.

Lemma set_pendingToolCalls_same (s : Session) :
  set_pendingToolCalls (pendingToolCalls s) s = s.
Proof. now destruct s. Qed.

Lemma onToolCallDelta_run (event : value) (s : Session) :
  event <> Null ->
  onToolCallDelta event s =
  (Returned tt,
   set_pendingToolCalls (pendingAfterDelta event (pendingToolCalls s)) s, []).
Proof.
  intros Hnull. unfold onToolCallDelta, pendingAfterDelta.
  rewrite (read_prop_not_null _ _ Hnull). run.
  destruct (get_prop event "call_id") as [callId|];
    [|now rewrite set_pendingToolCalls_same].
  destruct (get_prop event "delta") as [[]|];
    try now rewrite set_pendingToolCalls_same.
  destruct (truthy (Some callId)); cbn [negb]; run;
    [reflexivity | now rewrite set_pendingToolCalls_same].
Qed.

Lemma onToolCallDone_run (rt : Runtime) (event callId : value) (s : Session) :
  get_prop event "call_id" = Some callId ->
  truthy (Some callId) = true ->
  let entry := Map_get (pendingToolCalls s) callId in
  onToolCallDone rt event s =
  completeToolCall rt callId (resolveArgsString entry event)
    (resolveToolName entry event)
    (set_pendingToolCalls (Map_delete (pendingToolCalls s) callId) s).
Proof.
  intros Hid Htruthy entry. unfold onToolCallDone.
  assert (Hnull : event <> Null) by (intros ->; discriminate Hid).
  rewrite (read_prop_not_null _ _ Hnull). run.
  rewrite Hid, Htruthy. cbn [negb]. run. reflexivity.
Qed.

Lemma onToolCallDone_ignored (rt : Runtime) (event : value) (s : Session) :
  event <> Null ->
  truthy (get_prop event "call_id") = false ->
  onToolCallDone rt event s = (Returned tt, s, []).
Proof.
  intros Hnull Hid. unfold onToolCallDone.
  rewrite (read_prop_not_null _ _ Hnull). run.
  destruct (get_prop event "call_id"); [|reflexivity].
  now rewrite Hid.
Qed.

(** *** Upstream messages *)

Lemma client_sends_upstreamSends (rt : Runtime) (s : Session) (events : list value) :
  client_sends (upstreamSends rt s events) = [].
Proof.
  unfold upstreamSends. destruct (is_open (upstreamWs s)); [|reflexivity].
  induction events as [|e events IH]; [reflexivity|exact IH].
Qed.

(** [completeToolCall] reads the session and talks to the upstream only. *)
Lemma completeToolCall_frame (rt : Runtime) (callId argsString toolName : value)
    (s : Session) :
  state_after (completeToolCall rt callId argsString toolName s) = s /\
  client_sends (effects (completeToolCall rt callId argsString toolName s)) = [].
Proof.
  destruct (parses_or_fails rt argsString) as [[args H]|[message H]].
  - rewrite (completeToolCall_parsed rt callId argsString toolName args s H).
    destruct (executeTool rt toolName args (scenarioId s)); split; try reflexivity.
    apply (client_sends_upstreamSends rt s).
  - rewrite (completeToolCall_failed rt callId argsString toolName message s H).
    split; [reflexivity|]. apply (client_sends_upstreamSends rt s).
Qed.

(** The interception touches the pending calls only, and never the
    client. *)
Lemma interceptToolCall_frame (rt : Runtime) (event : value) (s : Session) :
  let r := interceptToolCall rt event s in
  clientWs (state_after r) = clientWs s /\
  upstreamWs (state_after r) = upstreamWs s /\
  client_sends (effects r) = [].
Proof.
  unfold interceptToolCall.
  destruct event eqn:Hev; try (cbn; now repeat split).
  rewrite <- Hev. assert (Hnull : event <> Null) by (subst; discriminate).
  rewrite (read_prop_not_null _ _ Hnull). run.
  destruct (get_prop event "type") as [[| | |t| |]|]; try (cbn; now repeat split).
  destruct (String.eqb t _).
  { rewrite (onToolCallDelta_run _ _ Hnull). cbn. now repeat split. }
  destruct (String.eqb t _); [|cbn; now repeat split].
  destruct (truthy (get_prop event "call_id")) eqn:Hid.
  - destruct (get_prop event "call_id") as [callId|] eqn:Hc; [|discriminate].
    rewrite (onToolCallDone_run rt event callId s Hc Hid).
    destruct (completeToolCall_frame rt callId
                (resolveArgsString (Map_get (pendingToolCalls s) callId) event)
                (resolveToolName (Map_get (pendingToolCalls s) callId) event)
                (set_pendingToolCalls (Map_delete (pendingToolCalls s) callId) s))
      as [Hs Hc'].
    cbv zeta. rewrite Hs, Hc'. now repeat split.
  - rewrite (onToolCallDone_ignored rt event s Hnull Hid). cbn. now repeat split.
Qed.

(** The default branch of [executeTool] returns for a name that converts
    to a string. *)
Lemma unknownTool_returns (rt : Runtime) (tool : value) :
  unprintable tool = false ->
  exists n, ToString rt tool = Returned n /\
            unknownTool rt tool = Returned (unknownToolResult n).
Proof.
  intros H. pose proof (ToString_unprintable rt tool) as Hs. rewrite H in Hs.
  destruct Hs as [n Hn]. exists n. split; [exact Hn|].
  unfold unknownTool. now rewrite Hn.
Qed.

(** The tools throw on [null] arguments, and the dispatcher on a name
    that does not convert to a string; nothing else throws. *)
Lemma executeTool_returns (rt : Runtime) (tool args : value) (scenario_id : string) :
  args <> Null ->
  unprintable tool = false ->
  exists output, executeTool rt tool args scenario_id = Returned output.
Proof.
  intros Hnull Hname. unfold executeTool.
  destruct (unknownTool_returns rt tool Hname) as (n & _ & Hunknown).
  assert (H : exists result, toolResult rt tool args scenario_id = Returned result).
  { unfold toolResult, gradeLesson, triggerQuiz.
    destruct tool as [| | |t| |]; try (eexists; exact Hunknown).
    rewrite !(read_prop_not_null _ _ Hnull).
    destruct (String.eqb t "grade_lesson"); [eexists; reflexivity|].
    destruct (String.eqb t "trigger_quiz"); eexists; [reflexivity|exact Hunknown]. }
  destruct H as [result ->]. now eexists.
Qed.

(** Every event passes the interception without an exception, but
    [null], the completion events whose arguments are [null] and those
    whose tool name does not convert to a string. *)
Lemma interceptToolCall_returns (rt : Runtime) (event : value) (s : Session) :
  event <> Null ->
  ~ null_arguments rt event s ->
  ~ unprintable_name event s ->
  outcome (interceptToolCall rt event s) = Returned tt.
Proof.
  intros Hnull Hargs Hname. unfold interceptToolCall.
  rewrite (read_prop_not_null _ _ Hnull). run.
  destruct (get_prop event "type") as [[| | |t| |]|] eqn:Hty; try reflexivity.
  destruct (String.eqb t _).
  { now rewrite (onToolCallDelta_run _ _ Hnull). }
  destruct (String.eqb_spec t "response.function_call_arguments.done")
    as [->|]; [|reflexivity].
  destruct (truthy (get_prop event "call_id")) eqn:Hid;
    [|now rewrite (onToolCallDone_ignored rt event s Hnull Hid)].
  destruct (get_prop event "call_id") as [callId|] eqn:Hc; [|discriminate].
  rewrite (onToolCallDone_run rt event callId s Hc Hid). cbv zeta.
  destruct (parses_or_fails rt
              (resolveArgsString (Map_get (pendingToolCalls s) callId) event))
    as [[args Hparse]|[message Hfail]];
    [|now rewrite (completeToolCall_failed _ _ _ _ _ _ Hfail)].
  rewrite (completeToolCall_parsed _ _ _ _ _ _ Hparse).
  assert (Hnot : args <> Null).
  { intros ->. apply Hargs. split; [exact Hty|]. now exists callId. }
  assert (Hprintable :
            unprintable (resolveToolName (Map_get (pendingToolCalls s) callId) event)
            = false).
  { destruct (unprintable _) eqn:E; [|reflexivity].
    destruct Hname. split; [exact Hty|]. now exists callId. }
  destruct (executeTool_returns rt
              (resolveToolName (Map_get (pendingToolCalls s) callId) event) args
              (scenarioId (set_pendingToolCalls
                             (Map_delete (pendingToolCalls s) callId) s))
              Hnot Hprintable)
    as [output Hout].
  now rewrite Hout.
Qed.

Lemma handleUpstreamMessage_text (rt : Runtime) (s : Session) (text : string)
    (event : value) :
  JSON_parse rt text = Parsed event ->
  handleUpstreamMessage rt (Text text) s =
  bind (interceptToolCall rt event) (fun _ => sendClient rt event) s.
Proof. intros H. unfold handleUpstreamMessage. now rewrite H. Qed.

(** C2 (amended).  While the client connection is open: a binary message
    from the upstream is passed to the client as it is; a text message
    that parses to an event is forwarded to the client as the
    serialisation of the parsed event, once and after the interception,
    whenever handling it ends without an exception -- which is so for
    every event other than [null], fragment and completion events
    included, but the completion events whose argument string is JSON for
    [null] and those whose tool name does not convert to a string (an
    object with a property [toString], or an array that holds one).
    (Text that does not parse is dropped.) *)
Theorem upstream_event_forwarded (rt : Runtime) (s : Session) :
  is_open (clientWs s) = true ->
  (forall bytes,
     handleUpstreamMessage rt (Binary bytes) s
     = (Returned tt, s, [ClientSend (Binary bytes)])) /\
  (forall text event,
     JSON_parse rt text = Parsed event ->
     let r := handleUpstreamMessage rt (Text text) s in
     (outcome r = Returned tt ->
      client_sends (effects r) = [Text (JSON_stringify rt event)] /\
      effects r = (effects (interceptToolCall rt event s)
                   ++ [ClientSend (Text (JSON_stringify rt event))])%list /\
      state_after r = state_after (interceptToolCall rt event s)) /\
     (event <> Null -> ~ null_arguments rt event s ->
      ~ unprintable_name event s ->
      outcome r = Returned tt)) /\
  (forall text message,
     JSON_parse rt text = SyntaxError message ->
     handleUpstreamMessage rt (Text text) s = (Returned tt, s, [])).
Proof.
  intros Hopen. split; [|split].
  - intros bytes. unfold handleUpstreamMessage. run.
    destruct (clientWs s); [reflexivity|discriminate].
  - intros text event Hparse r. subst r.
    rewrite (handleUpstreamMessage_text rt s text event Hparse).
    pose proof (interceptToolCall_frame rt event s) as Hframe.
    pose proof (interceptToolCall_returns rt event s) as Hret.
    destruct (interceptToolCall rt event s) as [[[[]|e] s1] t1] eqn:Hint;
      cbn [outcome state_after effects fst snd] in *.
    + destruct Hframe as (Hcl & _ & Hsends).
      rewrite (bind_returned _ _ _ _ _ _ Hint), sendClient_run.
      rewrite Hcl, Hopen. cbn [outcome state_after effects fst snd].
      split; [|reflexivity].
      intros _. split; [|split; reflexivity].
      unfold client_sends in *. rewrite flat_map_app, Hsends. reflexivity.
    + rewrite (bind_thrown _ _ _ _ _ _ Hint).
      cbn [outcome state_after effects fst snd].
      split; [discriminate|]. intros Hnull Hargs Hname. now apply Hret.
  - intros text message Hparse. unfold handleUpstreamMessage. now rewrite Hparse.
Qed.

Lemma upstream_event_forwarded_witness :
  is_open (clientWs Sample.active) = true /\
  client_sends (effects (handleUpstreamMessage Sample.runtime
                           (Text (Sample.deltaText (Sample.quoted "{")))
                           Sample.active))
  = [Text (JSON_stringify Sample.runtime (Sample.deltaEvent "{"))].
Proof.
  split; [reflexivity|].
  destruct (upstream_event_forwarded Sample.runtime Sample.active eq_refl)
    as (_ & Htext & _).
  destruct (Htext (Sample.deltaText (Sample.quoted "{")) (Sample.deltaEvent "{")
              eq_refl) as (Hsent & Hreturns).
  apply Hsent. apply Hreturns; [discriminate| |].
  - intros [Hty _]. discriminate Hty.
  - intros [Hty _]. discriminate Hty.
Defined.

(** C2 as stated fails, with both connections open: a text message from
    the upstream that is not JSON reaches the handler like any other and
    is dropped; and an event is forwarded as the serialisation of what
    was parsed, which is not the text that was received when that text
    was not in the compact form. *)
Lemma unparseable_upstream_text_dropped :
  is_open (clientWs Sample.active) = true /\
  is_open (upstreamWs Sample.active) = true /\
  JSON_parse Sample.runtime "{oops"
  = SyntaxError "Expected property name or '}' in JSON at position 1" /\
  handleUpstreamMessage Sample.runtime (Text "{oops") Sample.active
  = (Returned tt, Sample.active, []) /\
  handleUpstreamMessage Sample.runtime (Text Sample.spacedFooText) Sample.active
  = (Returned tt, Sample.active, [ClientSend (Text Sample.fooText)]) /\
  Sample.fooText <> Sample.spacedFooText.
Proof. repeat split. discriminate. Qed.

(** *** The pending-call map *)

Lemma Map_get_set_same (m : JsMap) (c : string) (e : PendingToolCall) :
  Map_get (Map_set m (Str c) e) (Str c) = Some e.
Proof.
  induction m as [|[k' e'] m IH]; cbn [Map_set Map_get].
  - cbn. now rewrite String.eqb_refl.
  - destruct (same_value_zero k' (Str c)) eqn:E; cbn [Map_get]; now rewrite E.
Qed.

Lemma Map_get_set_other (m : JsMap) (k : value) (c : string) (e : PendingToolCall) :
  same_value_zero k (Str c) = false ->
  Map_get (Map_set m k e) (Str c) = Map_get m (Str c).
Proof.
  intros Hk. induction m as [|[k' e'] m IH]; cbn [Map_set Map_get].
  - now rewrite Hk.
  - destruct (same_value_zero k' k) eqn:E; cbn [Map_get].
    + destruct (same_value_zero k' (Str c)) eqn:E'; [|reflexivity].
      apply same_value_zero_Str in E'. subst k'.
      apply same_value_zero_Str_l in E. subst k.
      cbn in Hk. now rewrite String.eqb_refl in Hk.
    + now rewrite IH.
Qed.

Lemma Map_get_delete_same (m : JsMap) (k : value) :
  Map_get (Map_delete m k) k = None.
Proof.
  unfold Map_delete. induction m as [|[k' e'] m IH]; [reflexivity|].
  cbn [filter fst]. destruct (same_value_zero k' k) eqn:E; cbn [negb Map_get].
  - exact IH.
  - now rewrite E.
Qed.

Lemma Map_get_delete_other (m : JsMap) (k : value) (c : string) :
  same_value_zero k (Str c) = false ->
  Map_get (Map_delete m k) (Str c) = Map_get m (Str c).
Proof.
  intros Hk. unfold Map_delete.
  induction m as [|[k' e'] m IH]; [reflexivity|].
  cbn [filter fst]. destruct (same_value_zero k' k) eqn:E; cbn [negb Map_get].
  - destruct (same_value_zero k' (Str c)) eqn:E'; [|exact IH].
    apply same_value_zero_Str in E'. subst k'.
    apply same_value_zero_Str_l in E. subst k.
    cbn in Hk. now rewrite String.eqb_refl in Hk.
  - now rewrite IH.
Qed.

Lemma Map_set_keys (Q : value -> Prop) (m : JsMap) (k : value) (e : PendingToolCall) :
  Forall (fun q => Q (fst q)) m -> Q k ->
  Forall (fun q => Q (fst q)) (Map_set m k e).
Proof.
  intros Hm Hk. induction Hm as [|[k' e'] m Hk' Hm IH]; cbn [Map_set].
  - now repeat constructor.
  - destruct (same_value_zero k' k); constructor; assumption.
Qed.

Lemma distinct_keys_set (m : JsMap) (k : value) (e : PendingToolCall) :
  distinct_keys m -> distinct_keys (Map_set m k e).
Proof.
  unfold distinct_keys. intros Hm.
  induction Hm as [|[k' e'] m Hk' Hm IH]; cbn [Map_set].
  - repeat constructor.
  - destruct (same_value_zero k' k) eqn:E.
    + now constructor.
    + constructor; [|exact IH].
      now apply (Map_set_keys (fun x => same_value_zero k' x = false)).
Qed.

Lemma distinct_keys_delete (m : JsMap) (k : value) :
  distinct_keys m -> distinct_keys (Map_delete m k).
Proof.
  unfold distinct_keys, Map_delete. intros Hm.
  induction Hm as [|p m Hp Hm IH]; cbn [filter]; [constructor|].
  destruct (negb _); [|exact IH].
  constructor; [|exact IH].
  apply Forall_forall. intros q Hq. apply filter_In in Hq.
  rewrite Forall_forall in Hp. now apply Hp.
Qed.

Lemma pushFragment_fragments (found : option PendingToolCall) (event : value)
    (delta : string) :
  argFragments (pushFragment found event delta)
  = (fragments_held found ++ [delta])%list.
Proof.
  unfold pushFragment.
  destruct found as [e|]; cbn [fragments_held];
    destruct (get_prop event "name") as [[| | |n| |]|]; try reflexivity;
    now destruct (truthy (Some (Str n))).
Qed.

Lemma truthy_Str (c : string) : truthy (Some (Str c)) = true <-> c <> "".
Proof.
  cbn. destruct (String.eqb_spec c ""); cbn; split; congruence.
Qed.

(** *** Accumulating the fragments of a call *)

Lemma onToolCallDone_pending (rt : Runtime) (event callId : value) (s : Session) :
  get_prop event "call_id" = Some callId ->
  truthy (Some callId) = true ->
  state_after (onToolCallDone rt event s)
  = set_pendingToolCalls (Map_delete (pendingToolCalls s) callId) s.
Proof.
  intros Hid Htruthy. rewrite (onToolCallDone_run rt event callId s Hid Htruthy).
  apply completeToolCall_frame.
Qed.

(** The pending calls after the interception of one event. *)
Lemma interceptToolCall_pending (rt : Runtime) (event : value) (s : Session) :
  let m := pendingToolCalls s in
  let m' := pendingToolCalls (state_after (interceptToolCall rt event s)) in
  m' = m \/
  (get_prop event "type" = Some (Str deltaType) /\ m' = pendingAfterDelta event m) \/
  (get_prop event "type" = Some (Str doneType) /\
   exists callId, get_prop event "call_id" = Some callId /\
                  truthy (Some callId) = true /\ m' = Map_delete m callId).
Proof.
  cbv zeta. unfold interceptToolCall.
  destruct event eqn:Hev; try (now left).
  rewrite <- Hev. assert (Hnull : event <> Null) by (subst; discriminate).
  rewrite (read_prop_not_null _ _ Hnull). run.
  destruct (get_prop event "type") as [[| | |t| |]|]; try (now left).
  destruct (String.eqb_spec t "response.function_call_arguments.delta") as [->|_].
  { rewrite (onToolCallDelta_run _ _ Hnull). right. left. now split. }
  destruct (String.eqb_spec t "response.function_call_arguments.done") as [->|_];
    [|now left].
  destruct (truthy (get_prop event "call_id")) eqn:Hid.
  - destruct (get_prop event "call_id") as [callId|] eqn:Hc; [|discriminate].
    rewrite (onToolCallDone_pending rt event callId s Hc Hid).
    right. right. split; [reflexivity|]. now exists callId.
  - rewrite (onToolCallDone_ignored rt event s Hnull Hid). now left.
Qed.

Lemma not_fragment_key (callId : string) (event k : value) (d : string) :
  get_prop event "type" = Some (Str deltaType) ->
  get_prop event "call_id" = Some k ->
  get_prop event "delta" = Some (Str d) ->
  fragment_of callId event = None ->
  same_value_zero k (Str callId) = false.
Proof.
  unfold fragment_of. intros -> -> -> H.
  destruct k; try reflexivity. cbn in *.
  now destruct (String.eqb s callId).
Qed.

Lemma intercept_fragment (rt : Runtime) (callId : string) (event : value)
    (d : string) (s : Session) :
  callId <> "" ->
  fragment_of callId event = Some d ->
  Map_get (pendingToolCalls (state_after (interceptToolCall rt event s))) (Str callId)
  = Some (pushFragment (Map_get (pendingToolCalls s) (Str callId)) event d).
Proof.
  intros Hid Hfrag. unfold fragment_of in Hfrag.
  destruct (get_prop event "type") as [[| | |t| |]|] eqn:Hty; try discriminate.
  destruct (get_prop event "call_id") as [[| | |c| |]|] eqn:Hc; try discriminate.
  destruct (get_prop event "delta") as [[| | |d'| |]|] eqn:Hd; try discriminate.
  destruct (String.eqb_spec t deltaType) as [->|]; [|discriminate].
  destruct (String.eqb_spec c callId) as [->|]; [|discriminate].
  injection Hfrag as ->.
  assert (Hnull : event <> Null) by (intros ->; discriminate).
  unfold interceptToolCall.
  rewrite (read_prop_not_null _ _ Hnull). run. rewrite Hty.
  cbn [deltaType String.eqb Ascii.eqb Bool.eqb].
  rewrite (onToolCallDelta_run _ _ Hnull).
  cbn [state_after fst snd pendingToolCalls set_pendingToolCalls].
  unfold pendingAfterDelta. rewrite Hc, Hd.
  apply truthy_Str in Hid. rewrite Hid.
  apply Map_get_set_same.
Qed.

Lemma intercept_other (rt : Runtime) (callId : string) (event : value) (s : Session) :
  fragment_of callId event = None ->
  completes callId event = false ->
  Map_get (pendingToolCalls (state_after (interceptToolCall rt event s))) (Str callId)
  = Map_get (pendingToolCalls s) (Str callId).
Proof.
  intros Hfrag Hdone.
  destruct (interceptToolCall_pending rt event s)
    as [-> | [(Hty & ->) | (Hty & k & Hk & Htruthy & ->)]].
  - reflexivity.
  - unfold pendingAfterDelta.
    destruct (get_prop event "call_id") as [k|] eqn:Hk; [|reflexivity].
    destruct (get_prop event "delta") as [[| | |d| |]|] eqn:Hd; try reflexivity.
    destruct (truthy (Some k)); [|reflexivity].
    apply Map_get_set_other.
    exact (not_fragment_key callId event k d Hty Hk Hd Hfrag).
  - apply Map_get_delete_other.
    unfold completes in Hdone. rewrite Hty, Hk in Hdone.
    destruct k; try reflexivity. cbn in *. exact Hdone.
Qed.

(** After any sequence of upstream events none of which completes
    [callId], the entry of [callId] holds what it held before, then the
    deltas of its fragment events in the order they came; and there is an
    entry exactly when there was one or a fragment came. *)
Lemma fragments_accumulate (rt : Runtime) (callId : string) (events : list value) :
  callId <> "" ->
  (forall ev, In ev events -> completes callId ev = false) ->
  forall s,
    let found := Map_get (pendingToolCalls s) (Str callId) in
    let found' := Map_get (pendingToolCalls (intercepted rt events s)) (Str callId) in
    fragments_held found' = (fragments_held found ++ fragments_of callId events)%list /\
    (found' = None <-> found = None /\ fragments_of callId events = []).
Proof.
  intros Hid. induction events as [|ev events IH]; intros Hdone s; cbv zeta.
  - cbn. rewrite app_nil_r. tauto.
  - cbn [intercepted fold_left fragments_of flat_map].
    fold (intercepted rt events (state_after (interceptToolCall rt ev s))).
    fold (fragments_of callId events).
    destruct (IH (fun e H => Hdone e (or_intror H))
                 (state_after (interceptToolCall rt ev s))) as [IHf IHn].
    rewrite IHf, IHn. clear IHf IHn.
    destruct (fragment_of callId ev) as [d|] eqn:Hfrag.
    + rewrite (intercept_fragment rt callId ev d s Hid Hfrag).
      cbn [fragments_held]. rewrite pushFragment_fragments, <- app_assoc.
      split; [reflexivity|]. split; intros [H1 H2]; discriminate.
    + rewrite (intercept_other rt callId ev s Hfrag (Hdone ev (or_introl eq_refl))).
      cbn [app]. tauto.
Qed.

(** C3.  For a call id (a non-empty string) with no pending entry, after
    any sequence of upstream events that holds at least one fragment event
    for that id (each with a string delta) and no completion event for it,
    a completion event for the id uses as its argument string the
    concatenation of the deltas in their order of arrival, whatever
    [arguments] the completion event itself carries. *)
Theorem fragments_concatenated_at_completion
    (rt : Runtime) (callId : string) (events : list value) (done : value)
    (s : Session) :
  callId <> "" ->
  Map_get (pendingToolCalls s) (Str callId) = None ->
  (forall ev, In ev events -> completes callId ev = false) ->
  fragments_of callId events <> [] ->
  get_prop done "call_id" = Some (Str callId) ->
  let s' := intercepted rt events s in
  let entry := Map_get (pendingToolCalls s') (Str callId) in
  let argsString := Str (join "" (fragments_of callId events)) in
  resolveArgsString entry done = argsString /\
  onToolCallDone rt done s'
  = completeToolCall rt (Str callId) argsString (resolveToolName entry done)
      (set_pendingToolCalls (Map_delete (pendingToolCalls s') (Str callId)) s').
Proof.
  intros Hid Hnone Hdone Hsome Hcall s' entry argsString.
  destruct (fragments_accumulate rt callId events Hid Hdone s) as [Hheld Hpresent].
  fold s' in Hheld, Hpresent. fold entry in Hheld, Hpresent.
  rewrite Hnone in Hheld. cbn [fragments_held app] in Hheld.
  assert (Hargs : resolveArgsString entry done = argsString).
  { destruct entry as [e|] eqn:He.
    - cbn [fragments_held] in Hheld. unfold resolveArgsString, argsString.
      now rewrite Hheld.
    - destruct Hpresent as [Hp _]. destruct (Hp eq_refl) as [_ Hempty].
      now destruct Hsome. }
  split; [exact Hargs|].
  rewrite (onToolCallDone_run rt done (Str callId) s' Hcall
             (proj2 (truthy_Str callId) Hid)).
  cbv zeta. fold entry. now rewrite Hargs.
Qed.

Lemma fragments_concatenated_witness :
  let events := [Sample.deltaEvent "{"; Sample.deltaEvent "}"] in
  let s' := intercepted Sample.runtime events Sample.active in
  fragments_of "call_1" events = ["{"; "}"] /\
  resolveArgsString (Map_get (pendingToolCalls s') (Str "call_1"))
    (Sample.doneEvent "null")
  = Str "{}".
Proof.
  split; [reflexivity|].
  apply (fragments_concatenated_at_completion Sample.runtime "call_1"
           [Sample.deltaEvent "{"; Sample.deltaEvent "}"]
           (Sample.doneEvent "null") Sample.active).
  - discriminate.
  - reflexivity.
  - intros ev [<-|[<-|[]]]; reflexivity.
  - discriminate.
  - reflexivity.
Defined.

(** *** The life of an entry *)

Lemma onUpstreamOpen_run (rt : Runtime) (scenario : Scenario) (s : Session) :
  onUpstreamOpen rt scenario s =
  (Returned tt, s,
   upstreamSends rt s
     [sessionUpdateEvent scenario; openingMessageEvent scenario;
      responseCreateEvent]).
Proof.
  unfold onUpstreamOpen, upstreamSends.
  repeat (rewrite (bind_returned _ _ _ _ _ _ (sendUpstream_run rt _ s));
          cbn [outcome state_after effects fst snd]).
  rewrite sendUpstream_run. cbn [outcome state_after effects fst snd].
  now destruct (is_open (upstreamWs s)).
Qed.

(** Whatever [P] holds of the empty map and is kept by [set] and [delete]
    holds of the pending calls after every event. *)
Lemma step_pending_closed (P : JsMap -> Prop) :
  P [] ->
  (forall m k e, P m -> P (Map_set m k e)) ->
  (forall m k, P m -> P (Map_delete m k)) ->
  forall rt scenario i s,
    P (pendingToolCalls s) ->
    P (pendingToolCalls (state_after (step rt scenario i s))).
Proof.
  intros Hnil Hset Hdel rt scenario i s Hs.
  unfold step. run.
  assert (Hs' : P (pendingToolCalls (socketUpdate i s))) by (now destruct i).
  revert Hs'. generalize (socketUpdate i s). clear s Hs. intros s Hs.
  assert (Hcleanup : P (pendingToolCalls (state_after (cleanup s)))).
  { unfold cleanup. run. now destruct (is_open (upstreamWs s)); run. }
  destruct i; cbn [listener].
  - (* client message *)
    run. destruct (connecting s); try exact Hs.
    now rewrite handleClientMessage_state.
  - run. now destruct (connecting s).
  - run. now destruct (connecting s).
  - (* upstream open *)
    unfold upstreamOpenListener.
    rewrite (bind_returned _ _ _ _ _ _ (onUpstreamOpen_run rt scenario s)).
    run. now destruct (connecting s).
  - (* upstream message *)
    destruct data as [text|bytes].
    + unfold handleUpstreamMessage.
      destruct (JSON_parse rt text) as [event|]; [|exact Hs].
      assert (Hint : P (pendingToolCalls (state_after (interceptToolCall rt event s)))).
      { destruct (interceptToolCall_pending rt event s)
          as [-> | [(_ & ->) | (_ & k & _ & _ & ->)]].
        - exact Hs.
        - unfold pendingAfterDelta.
          destruct (get_prop event "call_id"); [|exact Hs].
          destruct (get_prop event "delta") as [[]|]; try exact Hs.
          destruct (truthy _); [now apply Hset|exact Hs].
        - now apply Hdel. }
      destruct (interceptToolCall rt event s) as [[[[]|e] s1] t1] eqn:E.
      * rewrite (bind_returned _ _ _ _ _ _ E), sendClient_run. exact Hint.
      * now rewrite (bind_thrown _ _ _ _ _ _ E).
    + unfold handleUpstreamMessage. run. now destruct (clientWs s).
  - (* upstream close *)
    unfold upstreamCloseListener. run. now destruct (is_open (clientWs s)); run.
  - (* upstream error *)
    unfold upstreamErrorListener. run. now destruct (connecting s); run.
Qed.

Lemma process_pending_closed (P : JsMap -> Prop) :
  P [] ->
  (forall m k e, P m -> P (Map_set m k e)) ->
  (forall m k, P m -> P (Map_delete m k)) ->
  forall rt scenario inputs s,
    P (pendingToolCalls s) ->
    P (pendingToolCalls (fst (process rt scenario inputs s))).
Proof.
  intros Hnil Hset Hdel rt scenario inputs.
  induction inputs as [|i inputs IH]; intros s Hs; [exact Hs|].
  cbn [process fst]. apply IH. now apply step_pending_closed.
Qed.

(** C4.  For every call id (a non-empty string): once a completion event
    for it has been handled the map has no entry for it, whether the
    arguments parse or not and whether the tool returns or throws; a
    fragment event for the same id that comes next makes a fresh entry,
    which holds that fragment's delta and nothing older, and so do the
    fragment events of any later sequence of events; and at no point of
    a session do two entries of the map share a key. *)
Theorem pending_entry_lifecycle
    (rt : Runtime) (scenario : Scenario) (callId : string)
    (done fragment : value) (delta : string) (s : Session) :
  callId <> "" ->
  get_prop done "call_id" = Some (Str callId) ->
  get_prop fragment "call_id" = Some (Str callId) ->
  get_prop fragment "delta" = Some (Str delta) ->
  let s1 := state_after (onToolCallDone rt done s) in
  let s2 := state_after (onToolCallDelta fragment s1) in
  Map_get (pendingToolCalls s1) (Str callId) = None /\
  (exists entry,
     Map_get (pendingToolCalls s2) (Str callId) = Some entry /\
     argFragments entry = [delta]) /\
  (forall events,
     (forall ev, In ev events -> completes callId ev = false) ->
     fragments_held
       (Map_get (pendingToolCalls (intercepted rt events s1)) (Str callId))
     = fragments_of callId events) /\
  (forall scenario_id user inputs,
     distinct_keys
       (pendingToolCalls
          (fst (process rt scenario inputs (connectingSession scenario_id user))))).
Proof.
  intros Hid Hdone Hfrag Hdelta s1 s2.
  assert (Htruthy : truthy (Some (Str callId)) = true) by now apply truthy_Str.
  assert (Hgone : Map_get (pendingToolCalls s1) (Str callId) = None).
  { subst s1. rewrite (onToolCallDone_pending rt done (Str callId) s Hdone Htruthy).
    apply Map_get_delete_same. }
  split; [exact Hgone|]. split; [|split].
  - exists (pushFragment None fragment delta). split.
    + subst s2. rewrite onToolCallDelta_run by (intros ->; discriminate).
      cbn [state_after fst snd pendingToolCalls set_pendingToolCalls].
      unfold pendingAfterDelta. rewrite Hfrag, Hdelta, Htruthy, Hgone.
      apply Map_get_set_same.
    + now rewrite pushFragment_fragments.
  - intros events Hevents.
    destruct (fragments_accumulate rt callId events Hid Hevents s1) as [Hheld _].
    rewrite Hheld, Hgone. reflexivity.
  - intros scenario_id user inputs.
    apply (process_pending_closed distinct_keys).
    + constructor.
    + intros m k e. apply distinct_keys_set.
    + intros m k. apply distinct_keys_delete.
    + constructor.
Qed.

Lemma pending_entry_lifecycle_witness :
  let s := intercepted Sample.runtime [Sample.deltaEvent "{"] Sample.active in
  let s1 := state_after (onToolCallDone Sample.runtime (Sample.doneEvent "null") s) in
  let s2 := state_after (onToolCallDelta (Sample.deltaEvent "}") s1) in
  fragments_held (Map_get (pendingToolCalls s) (Str "call_1")) = ["{"] /\
  Map_get (pendingToolCalls s1) (Str "call_1") = None /\
  fragments_held (Map_get (pendingToolCalls s2) (Str "call_1")) = ["}"].
Proof.
  cbv zeta. split; [reflexivity|].
  destruct (pending_entry_lifecycle Sample.runtime Sample.scenario "call_1"
              (Sample.doneEvent "null") (Sample.deltaEvent "}") "}"
              (intercepted Sample.runtime [Sample.deltaEvent "{"] Sample.active))
    as (Hgone & (entry & Hentry & Hheld) & _).
  - discriminate.
  - reflexivity.
  - reflexivity.
  - reflexivity.
  - split; [exact Hgone|]. rewrite Hentry. exact Hheld.
Defined.

(** *** Completion events *)



(** C6 (amended).  For every completion event that carries a call id:
    with no pending entry for the id, the argument string is the
    [arguments] of the event when that is there and not empty, and
    ["{}"] otherwise; the tool name is the name of the pending entry when
    there is an entry and its name is not empty, and otherwise (no entry,
    or an entry that never got a name) the name the completion event
    carries, or the empty string when it carries none. *)
Theorem completion_arguments_and_name
    (rt : Runtime) (done callId : value) (s : Session) :
  get_prop done "call_id" = Some callId ->
  truthy (Some callId) = true ->
  let entry := Map_get (pendingToolCalls s) callId in
  let argsString := resolveArgsString entry done in
  let toolName := resolveToolName entry done in
  let eventName := or_else (get_prop done "name") (Str "") in
  onToolCallDone rt done s
  = completeToolCall rt callId argsString toolName
      (set_pendingToolCalls (Map_delete (pendingToolCalls s) callId) s) /\
  (entry = None ->
   (forall a, get_prop done "arguments" = Some a -> truthy (Some a) = true ->
              argsString = a) /\
   (truthy (get_prop done "arguments") = false -> argsString = Str "{}") /\
   toolName = eventName) /\
  (forall e, entry = Some e ->
   (truthy (Some (name e)) = true -> toolName = name e) /\
   (truthy (Some (name e)) = false -> toolName = eventName)) /\
  (forall n, get_prop done "name" = Some (Str n) -> eventName = Str n) /\
  (get_prop done "name" = None -> eventName = Str "").
Proof.
  intros Hid Htruthy entry argsString toolName eventName.
  split; [exact (onToolCallDone_run rt done callId s Hid Htruthy)|].
  subst argsString toolName eventName.
  unfold resolveArgsString, resolveToolName, or_else.
  split; [|split; [|split]].
  - intros ->. split; [|split].
    + intros a -> Ha. now rewrite Ha.
    + intros Ha. destruct (get_prop done "arguments"); [|reflexivity].
      now rewrite Ha.
    + reflexivity.
  - intros e ->. split; intros Hn; now rewrite Hn.
  - intros n ->. cbn. now destruct (String.eqb_spec n "") as [->|].
  - now intros ->.
Qed.

Lemma completion_arguments_and_name_witness :
  resolveArgsString (Map_get (pendingToolCalls Sample.active) (Str "call_1"))
    (Sample.doneEvent "null") = Str "null" /\
  resolveToolName (Map_get (pendingToolCalls Sample.active) (Str "call_1"))
    (Sample.doneEvent "null") = Str "grade_lesson".
Proof.
  destruct (completion_arguments_and_name Sample.runtime (Sample.doneEvent "null")
              (Str "call_1") Sample.active eq_refl eq_refl)
    as (_ & Hnone & _).
  destruct (Hnone eq_refl) as (Hargs & _ & Hname).
  split.
  - apply (Hargs (Str "null")); reflexivity.
  - exact Hname.
Defined.

(** C6 as stated fails: fragment events that carry no name leave an entry
    whose name is empty, and the completion event then provides the tool
    name although an entry is present. *)
Lemma unnamed_entry_takes_name_of_completion :
  let s := intercepted Sample.runtime
             [Sample.deltaEvent "{"; Sample.deltaEvent "}"] Sample.active in
  Map_get (pendingToolCalls s) (Str "call_1")
  = Some {| name := Str ""; argFragments := ["{"; "}"] |} /\
  resolveToolName (Map_get (pendingToolCalls s) (Str "call_1"))
    (Sample.doneEvent "null") = Str "grade_lesson" /\
  hd_error (effects (onToolCallDone Sample.runtime (Sample.doneEvent "null") s))
  = Some (ToolDispatch (Str "grade_lesson") (Obj [])).
Proof. repeat split. Qed.

(** *** The handshake *)

(** While the upstream is still connecting, the client's events reach no
    listener: nothing is sent, and the upstream socket and the promise
    stay as they are. *)
Lemma client_inputs_before_open (rt : Runtime) (scenario : Scenario)
    (inputs : list Input) :
  forallb from_client inputs = true ->
  forall s, connecting s = Pending ->
    let r := process rt scenario inputs s in
    snd r = [] /\ connecting (fst r) = Pending /\
    upstreamWs (fst r) = upstreamWs s /\
    pendingToolCalls (fst r) = pendingToolCalls s.
Proof.
  induction inputs as [|i inputs IH]; intros Hclient s Hpending; cbv zeta.
  - now repeat split.
  - cbn [forallb] in Hclient. apply andb_prop in Hclient as [Hi Hclient].
    cbn [process fst snd].
    assert (Hstep : effects (step rt scenario i s) = [] /\
                    connecting (state_after (step rt scenario i s)) = Pending /\
                    upstreamWs (state_after (step rt scenario i s)) = upstreamWs s /\
                    pendingToolCalls (state_after (step rt scenario i s))
                    = pendingToolCalls s).
    { unfold step. run.
      destruct i; try discriminate Hi; cbn [listener socketUpdate]; run;
        cbn [connecting set_clientWs]; rewrite Hpending; now repeat split. }
    destruct Hstep as (He & Hc & Hu & Hp).
    destruct (IH Hclient _ Hc) as (He' & Hc' & Hu' & Hp').
    rewrite He, He', Hc', Hu', Hp', Hu, Hp. now repeat split.
Qed.

Lemma process_app (rt : Runtime) (scenario : Scenario) (xs ys : list Input)
    (s : Session) :
  process rt scenario (xs ++ ys)%list s =
  (fst (process rt scenario ys (fst (process rt scenario xs s))),
   (snd (process rt scenario xs s)
    ++ snd (process rt scenario ys (fst (process rt scenario xs s))))%list).
Proof.
  revert s. induction xs as [|x xs IH]; intros s; cbn [app process fst snd].
  - now destruct (process rt scenario ys s).
  - rewrite IH. cbn [fst snd]. now rewrite app_assoc.
Qed.

(** C7 (amended).  When the upstream handshake succeeds the bridge sends
    upstream exactly three messages, and nothing before them: (1) a
    [session.update] event whose instructions are the global tutor rules,
    two line feeds and the scenario's system prompt, in this order, with
    server-VAD turn detection, the modalities [audio] and [text], [pcm16]
    for input and output audio, and the scenario's tool schemas; (2) a
    [conversation.item.create] event with an assistant message whose text
    is the scenario's opening line; (3) a [response.create] event. *)
Theorem handshake_sends_three_events
    (rt : Runtime) (scenario : Scenario) (s : Session) :
  is_open (upstreamWs s) = true ->
  let sent := [UpstreamSend (JSON_stringify rt (sessionUpdateEvent scenario));
               UpstreamSend (JSON_stringify rt (openingMessageEvent scenario));
               UpstreamSend (JSON_stringify rt responseCreateEvent)] in
  onUpstreamOpen rt scenario s = (Returned tt, s, sent) /\
  (forall scenario_id user before,
     forallb from_client before = true ->
     snd (process rt scenario (before ++ [UpstreamOpened])
            (connectingSession scenario_id user)) = sent) /\
  path (sessionUpdateEvent scenario) ["type"] = Some (Str "session.update") /\
  path (sessionUpdateEvent scenario) ["session"; "instructions"]
  = Some (Str (GLOBAL_TUTOR_RULES ++ LF ++ LF ++ system scenario)) /\
  path (sessionUpdateEvent scenario) ["session"; "turn_detection"; "type"]
  = Some (Str "server_vad") /\
  path (sessionUpdateEvent scenario) ["session"; "modalities"]
  = Some (Arr [Str "audio"; Str "text"]) /\
  path (sessionUpdateEvent scenario) ["session"; "input_audio_format"]
  = Some (Str "pcm16") /\
  path (sessionUpdateEvent scenario) ["session"; "output_audio_format"]
  = Some (Str "pcm16") /\
  path (sessionUpdateEvent scenario) ["session"; "tools"]
  = Some (Arr (tools scenario)) /\
  path (openingMessageEvent scenario) ["type"]
  = Some (Str "conversation.item.create") /\
  path (openingMessageEvent scenario) ["item"; "type"] = Some (Str "message") /\
  path (openingMessageEvent scenario) ["item"; "role"] = Some (Str "assistant") /\
  path (openingMessageEvent scenario) ["item"; "content"]
  = Some (Arr [Obj [("type", Str "input_text");
                    ("text", Str (opening_line scenario))]]) /\
  responseCreateEvent = Obj [("type", Str "response.create")].
Proof.
  intros Hopen sent. split; [|split; [|now repeat split]].
  - rewrite onUpstreamOpen_run. unfold upstreamSends. now rewrite Hopen.
  - intros scenario_id user before Hbefore.
    rewrite process_app. cbn [snd].
    destruct (client_inputs_before_open rt scenario before Hbefore
                (connectingSession scenario_id user) eq_refl)
      as (Hnone & Hpending & Hup & _).
    rewrite Hnone. cbn [app process fst snd].
    rewrite app_nil_r. unfold step. run.
    cbn [listener socketUpdate]. unfold upstreamOpenListener.
    rewrite (bind_returned _ _ _ _ _ _ (onUpstreamOpen_run rt scenario _)).
    cbn [effects snd]. run. unfold upstreamSends.
    cbn [upstreamWs set_upstreamWs]. rewrite Hup. cbn [connectingSession upstreamWs with_state is_open map].
    cbn [connecting set_upstreamWs]. rewrite Hpending. reflexivity.
Qed.

Lemma handshake_sends_three_events_witness :
  snd (process Sample.runtime Sample.scenario
         [ClientMessage (Text Sample.fooText); UpstreamOpened]
         (connectingSession "a1_taxi_bogota" "anonymous"))
  = [UpstreamSend (JSON_stringify Sample.runtime
                     (sessionUpdateEvent Sample.scenario));
     UpstreamSend (JSON_stringify Sample.runtime
                     (openingMessageEvent Sample.scenario));
     UpstreamSend (JSON_stringify Sample.runtime responseCreateEvent)].
Proof.
  destruct (handshake_sends_three_events Sample.runtime Sample.scenario
              Sample.active eq_refl) as (_ & Hfirst & _).
  exact (Hfirst "a1_taxi_bogota" "anonymous"
           [ClientMessage (Text Sample.fooText)] eq_refl).
Defined.

(** C7 as stated fails: the instructions are not the global tutor rules
    followed at once by the system prompt; a blank line stands between
    them. *)
Lemma instructions_have_a_separator :
  path (sessionUpdateEvent Sample.scenario) ["session"; "instructions"]
  = Some (Str (GLOBAL_TUTOR_RULES ++ LF ++ LF ++ system Sample.scenario)) /\
  GLOBAL_TUTOR_RULES ++ LF ++ LF ++ system Sample.scenario
  <> GLOBAL_TUTOR_RULES ++ system Sample.scenario /\
  String.length (GLOBAL_TUTOR_RULES ++ LF ++ LF ++ system Sample.scenario)
  = 2 + String.length (GLOBAL_TUTOR_RULES ++ system Sample.scenario).
Proof.
  split; [reflexivity|]. split; [|reflexivity].
  intros E. apply (f_equal String.length) in E. vm_compute in E. discriminate E.
Qed.

(** *** Closing *)

Lemma cleanup_run (s : Session) :
  cleanup s =
  (Returned tt,
   set_pendingToolCalls [] (set_clientWs None (set_upstreamWs None s)),
   if is_open (upstreamWs s)
   then [UpstreamClose 1000 "Client disconnected"] else []).
Proof. unfold cleanup. run. now destruct (is_open (upstreamWs s)); run. Qed.

(** C8 (amended).  In a session whose upstream handshake has succeeded:
    when the client connection closes or errors, the upstream connection,
    if it is open, is closed with the normal-closure code 1000, both
    connection fields are cleared and the pending-call map is emptied;
    when the upstream connection closes, the client connection, if it is
    open, is closed with the code and the reason of the upstream's close
    event (the reason ["Upstream closed"] when that one is empty), the
    pending calls are left as they are, and they are released when the
    client's close event is handled in its turn, which sends nothing
    more; an error event of the upstream socket alone changes nothing. *)
Theorem close_propagates
    (rt : Runtime) (scenario : Scenario) (s : Session) :
  connecting s = Resolved ->
  (forall i, i = ClientClosed \/ i = ClientErrored ->
     let r := step rt scenario i s in
     outcome r = Returned tt /\
     effects r = (if is_open (upstreamWs s)
                  then [UpstreamClose 1000 "Client disconnected"] else []) /\
     clientWs (state_after r) = None /\
     upstreamWs (state_after r) = None /\
     pendingToolCalls (state_after r) = []) /\
  (forall code reason,
     is_open (clientWs s) = true ->
     let r := step rt scenario (UpstreamClosed code reason) s in
     outcome r = Returned tt /\
     effects r = [ClientClose code
                    (if String.eqb reason "" then "Upstream closed" else reason)] /\
     pendingToolCalls (state_after r) = pendingToolCalls s /\
     let r' := step rt scenario ClientClosed (state_after r) in
     effects r' = [] /\
     clientWs (state_after r') = None /\
     upstreamWs (state_after r') = None /\
     pendingToolCalls (state_after r') = []) /\
  step rt scenario UpstreamErrored s = (Returned tt, s, []).
Proof.
  intros Hresolved. split; [|split].
  - intros i Hi r. subst r. unfold step. run.
    destruct Hi as [-> | ->]; cbn [listener socketUpdate]; run;
      cbn [connecting set_clientWs]; rewrite Hresolved, cleanup_run;
      cbn [outcome effects state_after fst snd upstreamWs set_clientWs];
      now repeat split.
  - intros code reason Hopen r.
    assert (Hr : r = (Returned tt,
                      set_clientWs (Some CLOSING)
                        (set_upstreamWs (with_state CLOSED (upstreamWs s)) s),
                      [ClientClose code
                         (if String.eqb reason "" then "Upstream closed"
                          else reason)])).
    { subst r. unfold step. run. cbn [listener socketUpdate].
      unfold upstreamCloseListener. run.
      cbn [clientWs set_upstreamWs]. rewrite Hopen. run. reflexivity. }
    rewrite Hr. cbn [outcome effects state_after fst snd].
    split; [reflexivity|]. split; [reflexivity|]. split; [reflexivity|].
    unfold step. run. cbn [listener socketUpdate]. run.
    cbn [connecting set_clientWs set_upstreamWs]. rewrite Hresolved, cleanup_run.
    cbn [outcome effects state_after fst snd upstreamWs clientWs
         set_clientWs set_upstreamWs set_pendingToolCalls pendingToolCalls
         with_state].
    now destruct (upstreamWs s).
  - unfold step. run. cbn [listener socketUpdate].
    unfold upstreamErrorListener. run. now rewrite Hresolved.
Qed.

Lemma close_propagates_witness :
  effects (step Sample.runtime Sample.scenario ClientClosed Sample.active)
  = [UpstreamClose 1000 "Client disconnected"] /\
  effects (step Sample.runtime Sample.scenario (UpstreamClosed 1000 "") Sample.active)
  = [ClientClose 1000 "Upstream closed"].
Proof.
  destruct (close_propagates Sample.runtime Sample.scenario Sample.active eq_refl)
    as (Hclient & Hupstream & _).
  split.
  - exact (proj1 (proj2 (Hclient ClientClosed (or_introl eq_refl)))).
  - exact (proj1 (proj2 (Hupstream 1000%Z "" eq_refl))).
Defined.

(** C8 as stated fails: when the upstream closes with the code 1011 the
    client is closed with 1011, not with the normal-closure code, and the
    pending calls are still there when the listener returns. *)
Lemma upstream_close_code_is_forwarded :
  let s := intercepted Sample.runtime [Sample.deltaEvent "{"] Sample.active in
  let r := step Sample.runtime Sample.scenario (UpstreamClosed 1011 "server error") s in
  is_open (clientWs s) = true /\ is_open (upstreamWs s) = true /\
  effects r = [ClientClose 1011 "server error"] /\
  pendingToolCalls (state_after r)
  = [(Str "call_1", {| name := Str ""; argFragments := ["{"] |})].
Proof. repeat split. Qed.

(** *** The grading tool *)

Lemma number_or_zero_echoes (props : list (string * value)) (result : value)
    (k : string) :
  get_prop result k = Some (Num (number_or_zero (assoc k props))) ->
  echoes props result k.
Proof.
  intros H. unfold echoes. rewrite H. split.
  - now intros x ->.
  - intros Hnone. destruct (assoc k props) as [[| |x| | |]|]; try reflexivity.
    now destruct (Hnone x).
Qed.

(** The whole numbers from 0 to [k]. *)
Lemma upto_In (k : nat) (n : Z) :
  (0 <= n <= Z.of_nat k)%Z -> In n (map Z.of_nat (seq 0 (S k))).
Proof.
  intros H. rewrite <- (Z2Nat.id n) by lia.
  apply in_map, in_seq. lia.
Qed.

(** Whole numbers this small add up in the doubles without rounding. *)
Lemma whole_scores_add :
  forallb (fun n => forallb (fun c =>
    PrimFloat.Leibniz.eqb (float_of_Z n + float_of_Z c) (float_of_Z (n + c)))
    whole_scores) (map Z.of_nat (seq 0 201)) = true.
Proof. vm_compute. reflexivity. Qed.

Lemma float_of_Z_add (n c : Z) :
  (0 <= n <= 200)%Z -> (0 <= c <= 100)%Z ->
  (float_of_Z n + float_of_Z c)%float = float_of_Z (n + c).
Proof.
  intros Hn Hc. pose proof whole_scores_add as H.
  rewrite forallb_forall in H. specialize (H n (upto_In 200 n Hn)).
  rewrite forallb_forall in H. specialize (H c (upto_In 100 c Hc)).
  now apply FloatAxioms.Leibniz.eqb_spec.
Qed.

(** For a whole sum up to 300, the double operations of [gradeLesson]
    give the double nearest to the mean rounded on the integers. *)
Lemma whole_sums_checked :
  forallb (fun n =>
    PrimFloat.Leibniz.eqb
      (Math_round (float_of_Z n / 3 * 100) / 100)
      (float_of_Z ((200 * n + 3) / 6) / 100))
    (map Z.of_nat (seq 0 301)) = true.
Proof. vm_compute. reflexivity. Qed.

Lemma gives_number (props : list (string * value)) (k : string) (n : Z) :
  gives props k n -> number_or_zero (assoc k props) = float_of_Z n.
Proof.
  intros [-> | [H ->]]; [reflexivity|].
  destruct (assoc k props) as [[| |x| | |]|]; try reflexivity.
  now destruct (H x).
Qed.

(** C9 (amended).  For every argument object the grading tool returns a
    success result ([ok] is [true]) whose [vocabulary_score],
    [grammar_score] and [fluency_score] echo the numbers given (zero
    where the argument is absent or not a number) and whose [notes] are
    the notes given when they are a string; for sub-scores that are
    whole numbers from 0 to 100 (an argument that gives no number
    counting as 0), the [score] is their arithmetic mean rounded to two
    decimal places, halves upwards -- the double nearest to it; the
    sub-scores 8, 7 and 9 give the score 8. *)
Theorem grading_tool_result
    (rt : Runtime) (props : list (string * value)) (scenario_id : string) :
  exists result,
    gradeLesson (Obj props) = Returned result /\
    executeTool rt (Str "grade_lesson") (Obj props) scenario_id
    = Returned (JSON_stringify rt result) /\
    get_prop result "ok" = Some (Bool true) /\
    echoes props result "vocabulary_score" /\
    echoes props result "grammar_score" /\
    echoes props result "fluency_score" /\
    (forall n, assoc "notes" props = Some (Str n) ->
               get_prop result "notes" = Some (Str n)) /\
    (forall a b c,
       (0 <= a <= 100)%Z -> (0 <= b <= 100)%Z -> (0 <= c <= 100)%Z ->
       gives props "vocabulary_score" a ->
       gives props "grammar_score" b ->
       gives props "fluency_score" c ->
       get_prop result "score" = Some (Num (exact_score a b c))) /\
    gradeLesson (Obj [("vocabulary_score", Num 8); ("grammar_score", Num 7);
                      ("fluency_score", Num 9)])
    = Returned (Obj [("ok", Bool true); ("score", Num 8);
                     ("vocabulary_score", Num 8); ("grammar_score", Num 7);
                     ("fluency_score", Num 9); ("notes", Str "stub")]).
Proof.
  eexists. split; [reflexivity|].
  split; [reflexivity|]. split; [reflexivity|].
  split; [now apply number_or_zero_echoes|].
  split; [now apply number_or_zero_echoes|].
  split; [now apply number_or_zero_echoes|].
  split; [intros n Hn; cbn; now rewrite Hn|].
  split; [|reflexivity].
  intros a b c Ha Hb Hc Hv Hg Hf.
  cbn [get_prop assoc String.eqb Ascii.eqb Bool.eqb].
  rewrite (gives_number _ _ _ Hv), (gives_number _ _ _ Hg), (gives_number _ _ _ Hf).
  rewrite (float_of_Z_add a b) by lia.
  rewrite (float_of_Z_add (a + b) c) by lia.
  unfold exact_score. do 2 f_equal.
  pose proof whole_sums_checked as H.
  rewrite forallb_forall in H.
  assert (Hsum : (0 <= a + b + c <= 300)%Z) by lia.
  specialize (H (a + b + c)%Z (upto_In 300 _ Hsum)).
  now apply FloatAxioms.Leibniz.eqb_spec.
Qed.

Lemma grading_tool_result_witness :
  exists result,
    gradeLesson (Obj [("vocabulary_score", Num 10); ("grammar_score", Num 9);
                      ("fluency_score", Str "good"); ("notes", Str "fine")])
    = Returned result /\
    get_prop result "score" = Some (Num (float_of_Z 633 / 100)) /\
    get_prop result "fluency_score" = Some (Num 0) /\
    get_prop result "notes" = Some (Str "fine").
Proof.
  destruct (grading_tool_result Sample.runtime
              [("vocabulary_score", Num 10); ("grammar_score", Num 9);
               ("fluency_score", Str "good"); ("notes", Str "fine")]
              "a1_taxi_bogota")
    as (result & Hresult & _ & _ & _ & _ & (_ & Hfluency) & Hnotes & Hscore & _).
  exists result. split; [exact Hresult|]. split; [|split].
  - apply (Hscore 10 9 0)%Z; try lia.
    + now left.
    + now left.
    + right. split; [|reflexivity]. intros x H. discriminate H.
  - apply Hfluency. intros x H. discriminate H.
  - now apply Hnotes.
Defined.

(** C9 as stated fails: the score is computed in the doubles, on the sum
    of the sub-scores as it was rounded.  For the sub-scores 0.095, 7 and
    9 (the doubles nearest to them) the mean rounded to two decimal
    places is 5.37, and the score is 5.36; and three sub-scores of 1e308
    have the mean 1e308, and the score is [Infinity]. *)
Lemma grading_score_off_the_rounded_mean :
  let small := 0x1.851eb851eb852p-4%float in
  let large := 0x1.1ccf385ebc8a0p+1023%float in
  mean_in_hundredths small 7 9 = Some 537%Z /\
  gradeLesson (Obj [("vocabulary_score", Num small); ("grammar_score", Num 7);
                    ("fluency_score", Num 9)])
  = Returned (Obj [("ok", Bool true); ("score", Num (float_of_Z 536 / 100));
                   ("vocabulary_score", Num small); ("grammar_score", Num 7);
                   ("fluency_score", Num 9); ("notes", Str "stub")]) /\
  gradeLesson (Obj [("vocabulary_score", Num large); ("grammar_score", Num large);
                    ("fluency_score", Num large)])
  = Returned (Obj [("ok", Bool true); ("score", Num infinity);
                   ("vocabulary_score", Num large); ("grammar_score", Num large);
                   ("fluency_score", Num large); ("notes", Str "stub")]).
Proof. cbv zeta. split; [|split]; vm_compute; reflexivity. Qed.

(** What goes upstream as the output of the call, for the sample scores:
    [{"ok":true,"score":8,"vocabulary_score":8,"grammar_score":7,"fluency_score":9,"notes":"stub"}]. *)
Example grade_lesson_output :
  JSON_parse Sample.runtime Sample.scoresText = Parsed Sample.scores /\
  executeTool Sample.runtime (Str "grade_lesson") Sample.scores "a1_taxi_bogota"
  = Returned (Sample.object
                [Sample.field "ok" "true"; Sample.field "score" "8";
                 Sample.field "vocabulary_score" "8";
                 Sample.field "grammar_score" "7";
                 Sample.field "fluency_score" "9";
                 Sample.field "notes" (Sample.quoted "stub")]).
Proof. split; reflexivity. Qed.

(** *** Arguments that parse to [null] *)

Lemma toolResult_null (rt : Runtime) (tool : value) (scenario_id : string) :
  tool = Str "grade_lesson" \/ tool = Str "trigger_quiz" ->
  exists e, executeTool rt tool Null scenario_id = Thrown e.
Proof. intros [-> | ->]; eexists; reflexivity. Qed.

(** X1.  A completion event whose argument string is valid JSON for
    [null] passes [JSON.parse], and [gradeLesson] or [triggerQuiz] then throws
    on the first argument it reads: the entry is gone, nothing is sent
    upstream, and the completion event is not forwarded to the client. *)
Theorem null_arguments_abort_completion
    (rt : Runtime) (text : string) (done callId : value) (s : Session) :
  JSON_parse rt text = Parsed done ->
  get_prop done "type" = Some (Str doneType) ->
  get_prop done "call_id" = Some callId ->
  truthy (Some callId) = true ->
  let entry := Map_get (pendingToolCalls s) callId in
  parses_to rt (resolveArgsString entry done) Null ->
  resolveToolName entry done = Str "grade_lesson"
  \/ resolveToolName entry done = Str "trigger_quiz" ->
  let r := handleUpstreamMessage rt (Text text) s in
  (exists e, outcome r = Thrown e) /\
  effects r = [ToolDispatch (resolveToolName entry done) Null] /\
  state_after r = set_pendingToolCalls (Map_delete (pendingToolCalls s) callId) s.
Proof.
  intros Hparse Hty Hid Htruthy entry Hargs Htool r. subst r.
  rewrite (handleUpstreamMessage_text rt s text done Hparse).
  assert (Hnull : done <> Null) by (intros ->; discriminate).
  destruct (toolResult_null rt _ (scenarioId s) Htool) as [e He].
  assert (Hint : interceptToolCall rt done s =
                 (Thrown e,
                  set_pendingToolCalls (Map_delete (pendingToolCalls s) callId) s,
                  [ToolDispatch (resolveToolName entry done) Null])).
  { unfold interceptToolCall.
    rewrite (read_prop_not_null _ _ Hnull). run. rewrite Hty.
    cbn [doneType String.eqb Ascii.eqb Bool.eqb].
    rewrite (onToolCallDone_run rt done callId s Hid Htruthy). cbv zeta.
    fold entry. rewrite (completeToolCall_parsed _ _ _ _ _ _ Hargs).
    cbn [scenarioId set_pendingToolCalls]. now rewrite He. }
  rewrite (bind_thrown _ _ _ _ _ _ Hint).
  cbn [outcome effects state_after fst snd].
  split; [now exists e|]. now split.
Qed.

Lemma null_arguments_abort_completion_witness :
  effects (handleUpstreamMessage Sample.runtime
             (Text (Sample.doneText (Sample.quoted "null"))) Sample.active)
  = [ToolDispatch (Str "grade_lesson") Null].
Proof.
  apply (null_arguments_abort_completion Sample.runtime
           (Sample.doneText (Sample.quoted "null")) (Sample.doneEvent "null")
           (Str "call_1") Sample.active); try reflexivity.
  - now exists "null".
  - now left.
Defined.

(* ===================================================================== *)
(** ** Further properties *)
(* ===================================================================== *)

(** *** The tool dispatcher *)

Lemma registered_dec (tool : value) : registered tool \/ ~ registered tool.
Proof.
  unfold registered. destruct tool as [| | |n| |];
    try (right; intros [H|H]; discriminate H).
  destruct (String.eqb_spec n "grade_lesson") as [->|Hg]; [now left; left|].
  destruct (String.eqb_spec n "trigger_quiz") as [->|Hq]; [now left; right|].
  right. intros [H|H]; injection H as H; contradiction.
Qed.

Lemma executeTool_unregistered (rt : Runtime) (tool args : value)
    (scenario_id : string) :
  ~ registered tool ->
  executeTool rt tool args scenario_id =
  match ToString rt tool with
  | Returned n => Returned (JSON_stringify rt (unknownToolResult n))
  | Thrown e => Thrown e
  end.
Proof.
  intros Hun. unfold executeTool, toolResult, unknownTool, unknownToolResult.
  destruct tool as [| | |n| |]; try (now destruct (ToString rt _)).
  destruct (String.eqb_spec n "grade_lesson") as [->|_];
    [destruct Hun; now left|].
  destruct (String.eqb_spec n "trigger_quiz") as [->|_];
    [destruct Hun; now right|].
  reflexivity.
Qed.

Lemma registered_printable (tool : value) : registered tool -> unprintable tool = false.
Proof. now intros [-> | ->]. Qed.

(** X3.  [executeTool] throws in two cases and no other: the arguments
    are [null] and the name is one of the two registered tools (the tool
    reads a property of [null]), or the name is not registered and does
    not convert to a string (an object with a property [toString], or an
    array that holds one), whatever the arguments.  In every other case
    it returns a serialised result. *)
Theorem executeTool_throws_iff
    (rt : Runtime) (tool args : value) (scenario_id : string) :
  (exists e, executeTool rt tool args scenario_id = Thrown e)
  <-> (args = Null /\ registered tool) \/ unprintable tool = true.
Proof.
  split.
  - intros [e He].
    destruct (unprintable tool) eqn:Hname; [now right|]. left.
    assert (Hd : args = Null \/ args <> Null)
      by (destruct args; (now left) || (right; discriminate)).
    destruct Hd as [Hd|Hd].
    + split; [exact Hd|].
      destruct (registered_dec tool) as [H|H]; [exact H|].
      rewrite (executeTool_unregistered rt tool args scenario_id H) in He.
      pose proof (ToString_unprintable rt tool) as Hs. rewrite Hname in Hs.
      destruct Hs as [n Hn]. rewrite Hn in He. discriminate He.
    + destruct (executeTool_returns rt tool args scenario_id Hd Hname)
        as [out Hout].
      rewrite He in Hout. discriminate Hout.
  - intros [[-> H] | H]; [now apply toolResult_null|].
    assert (Hun : ~ registered tool).
    { intros Hreg. apply registered_printable in Hreg. congruence. }
    rewrite (executeTool_unregistered rt tool args scenario_id Hun).
    pose proof (ToString_unprintable rt tool) as Hs. rewrite H in Hs.
    rewrite Hs. now eexists.
Qed.

(** *** Completion events that run a tool *)

(** X4.  For a completion event with a call id, in a session whose
    upstream connection is open, when the argument string parses to a
    value other than [null] and the tool name converts to a string: the
    tool returns, and the handler calls it once, sends upstream the
    [conversation.item.create] event that carries the tool's output as
    the [function_call_output] of the call id and then
    [{type:"response.create"}], removes the entry of the call and changes
    nothing else. *)
Theorem tool_call_completed
    (rt : Runtime) (done callId args : value) (s : Session) :
  get_prop done "call_id" = Some callId ->
  truthy (Some callId) = true ->
  is_open (upstreamWs s) = true ->
  let entry := Map_get (pendingToolCalls s) callId in
  let toolName := resolveToolName entry done in
  parses_to rt (resolveArgsString entry done) args ->
  args <> Null ->
  unprintable toolName = false ->
  exists output,
    executeTool rt toolName args (scenarioId s) = Returned output /\
    onToolCallDone rt done s =
    (Returned tt,
     set_pendingToolCalls (Map_delete (pendingToolCalls s) callId) s,
     [ToolDispatch toolName args;
      UpstreamSend (JSON_stringify rt (outputItem callId output));
      UpstreamSend (JSON_stringify rt continuation)]).
Proof.
  intros Hid Htruthy Hopen entry toolName Hparse Hnull Hname.
  destruct (executeTool_returns rt toolName args (scenarioId s) Hnull Hname)
    as [output Hout].
  exists output. split; [exact Hout|].
  rewrite (onToolCallDone_run rt done callId s Hid Htruthy). cbv zeta.
  fold entry. fold toolName. rewrite (completeToolCall_parsed _ _ _ _ _ _ Hparse).
  cbn [scenarioId set_pendingToolCalls]. rewrite Hout.
  unfold upstreamSends. cbn [upstreamWs set_pendingToolCalls].
  now rewrite Hopen.
Qed.

Lemma tool_call_completed_witness :
  exists output,
    onToolCallDone Sample2.runtime
      (Sample2.doneEvent "grade_lesson" Sample.scoresText) Sample.active =
    (Returned tt, Sample.active,
     [ToolDispatch (Str "grade_lesson") Sample.scores;
      UpstreamSend (JSON_stringify Sample2.runtime
                      (outputItem (Str "call_2") output));
      UpstreamSend (JSON_stringify Sample2.runtime continuation)]).
Proof.
  destruct (tool_call_completed Sample2.runtime
              (Sample2.doneEvent "grade_lesson" Sample.scoresText)
              (Str "call_2") Sample.scores Sample.active
              eq_refl eq_refl eq_refl
              (ex_intro _ Sample.scoresText (conj eq_refl eq_refl))
              ltac:(discriminate) eq_refl)
    as [output [_ H]].
  exists output. exact H.
Defined.

(** X5.  A completion event that names a tool that is not registered,
    with both connections open, an argument string that parses (to
    anything, [null] included) and a tool name that converts to the
    string [n]: the failure result [{ok:false, error:"Unknown tool: n"}]
    goes upstream as the [function_call_output] of the call id, then
    [{type:"response.create"}]; the handler returns and the event is
    forwarded to the client.  When the name does not convert to a string,
    the handler throws after the entry is removed: nothing is sent to
    either side. *)
Theorem unknown_tool_reported
    (rt : Runtime) (text : string) (done callId args : value) (s : Session) :
  JSON_parse rt text = Parsed done ->
  get_prop done "type" = Some (Str doneType) ->
  get_prop done "call_id" = Some callId ->
  truthy (Some callId) = true ->
  is_open (upstreamWs s) = true ->
  is_open (clientWs s) = true ->
  let entry := Map_get (pendingToolCalls s) callId in
  let toolName := resolveToolName entry done in
  parses_to rt (resolveArgsString entry done) args ->
  ~ registered toolName ->
  let r := handleUpstreamMessage rt (Text text) s in
  (forall n, ToString rt toolName = Returned n ->
     r = (Returned tt,
          set_pendingToolCalls (Map_delete (pendingToolCalls s) callId) s,
          [ToolDispatch toolName args;
           UpstreamSend (JSON_stringify rt
             (outputItem callId
                (JSON_stringify rt
                   (Obj [("ok", Bool false);
                         ("error", Str ("Unknown tool: " ++ n))]))));
           UpstreamSend (JSON_stringify rt continuation);
           ClientSend (Text (JSON_stringify rt done))])) /\
  (unprintable toolName = true ->
     r = (Thrown cannotConvert,
          set_pendingToolCalls (Map_delete (pendingToolCalls s) callId) s,
          [ToolDispatch toolName args])).
Proof.
  intros Hparse Hty Hid Htruthy Hup Hcl entry toolName Hargs Hun r. subst r.
  rewrite (handleUpstreamMessage_text rt s text done Hparse).
  assert (Hnull : done <> Null) by (intros ->; discriminate).
  assert (Hint : interceptToolCall rt done s =
    match ToString rt toolName with
    | Returned n =>
        (Returned tt,
         set_pendingToolCalls (Map_delete (pendingToolCalls s) callId) s,
         [ToolDispatch toolName args;
          UpstreamSend (JSON_stringify rt
            (outputItem callId (JSON_stringify rt (unknownToolResult n))));
          UpstreamSend (JSON_stringify rt continuation)])
    | Thrown e =>
        (Thrown e,
         set_pendingToolCalls (Map_delete (pendingToolCalls s) callId) s,
         [ToolDispatch toolName args])
    end).
  { unfold interceptToolCall.
    rewrite (read_prop_not_null _ _ Hnull). run. rewrite Hty.
    cbn [doneType String.eqb Ascii.eqb Bool.eqb].
    rewrite (onToolCallDone_run rt done callId s Hid Htruthy). cbv zeta.
    fold entry. fold toolName. rewrite (completeToolCall_parsed _ _ _ _ _ _ Hargs).
    rewrite (executeTool_unregistered rt toolName args _ Hun).
    destruct (ToString rt toolName); [|reflexivity].
    unfold upstreamSends. cbn [upstreamWs set_pendingToolCalls].
    now rewrite Hup. }
  split.
  - intros n Hn. rewrite Hn in Hint.
    rewrite (bind_returned _ _ _ _ _ _ Hint), sendClient_run.
    cbn [outcome state_after effects fst snd clientWs set_pendingToolCalls].
    now rewrite Hcl.
  - intros Hname. pose proof (ToString_unprintable rt toolName) as Hs.
    rewrite Hname in Hs. rewrite Hs in Hint.
    now rewrite (bind_thrown _ _ _ _ _ _ Hint).
Qed.

Lemma translate_unregistered : ~ registered (Str "translate").
Proof. intros [H|H]; discriminate H. Qed.

Lemma unknown_tool_reported_witness :
  handleUpstreamMessage Sample2.runtime
    (Text (Sample2.doneText "translate" (Sample.quoted "{}"))) Sample.active =
  (Returned tt, Sample.active,
   [ToolDispatch (Str "translate") (Obj []);
    UpstreamSend (JSON_stringify Sample2.runtime
      (outputItem (Str "call_2")
         (JSON_stringify Sample2.runtime
            (Obj [("ok", Bool false);
                  ("error", Str ("Unknown tool: " ++ "translate"))]))));
    UpstreamSend (JSON_stringify Sample2.runtime continuation);
    ClientSend (Text (JSON_stringify Sample2.runtime
                        (Sample2.doneEvent "translate" "{}")))]).
Proof.
  exact (proj1 (unknown_tool_reported Sample2.runtime
           (Sample2.doneText "translate" (Sample.quoted "{}"))
           (Sample2.doneEvent "translate" "{}") (Str "call_2") (Obj [])
           Sample.active eq_refl eq_refl eq_refl eq_refl eq_refl eq_refl
           (ex_intro _ "{}" (conj eq_refl eq_refl))
           translate_unregistered) "translate" eq_refl).
Defined.

(** X6.  For a completion event with a call id that resolves to the tool
    [trigger_quiz], in a session whose upstream connection is open, with
    arguments that parse to a value other than [null]: what goes upstream
    is the [conversation.item.create] event that carries, as the
    [function_call_output] of the call id, the serialised success result
    whose quiz has the [lesson_id] of the arguments when that is a string
    and the scenario id of the session otherwise, and the [focus] of the
    arguments when that is a string and ["vocabulary"] otherwise; then
    [{type:"response.create"}]. *)
Theorem quiz_defaults_to_session_scenario
    (rt : Runtime) (done callId args : value) (s : Session) :
  get_prop done "call_id" = Some callId ->
  truthy (Some callId) = true ->
  is_open (upstreamWs s) = true ->
  let entry := Map_get (pendingToolCalls s) callId in
  resolveToolName entry done = Str "trigger_quiz" ->
  parses_to rt (resolveArgsString entry done) args ->
  args <> Null ->
  exists lesson focus,
    sent_upstream (effects (onToolCallDone rt done s)) =
    [JSON_stringify rt
       (outputItem callId
          (JSON_stringify rt
             (Obj [("ok", Bool true);
                   ("quiz", Obj [("lesson_id", Str lesson);
                                 ("focus", Str focus)])])));
     JSON_stringify rt continuation] /\
    (forall l, get_prop args "lesson_id" = Some (Str l) -> lesson = l) /\
    ((forall l, get_prop args "lesson_id" <> Some (Str l)) ->
     lesson = scenarioId s) /\
    (forall f, get_prop args "focus" = Some (Str f) -> focus = f) /\
    ((forall f, get_prop args "focus" <> Some (Str f)) -> focus = "vocabulary").
Proof.
  intros Hid Htruthy Hopen entry Htool Hparse Hnull.
  exists (string_or (get_prop args "lesson_id") (scenarioId s)),
         (string_or (get_prop args "focus") "vocabulary").
  split.
  - rewrite (onToolCallDone_run rt done callId s Hid Htruthy). cbv zeta.
    fold entry. rewrite (completeToolCall_parsed _ _ _ _ _ _ Hparse), Htool.
    unfold executeTool, toolResult, triggerQuiz.
    cbn [String.eqb Ascii.eqb Bool.eqb].
    rewrite (read_prop_not_null _ _ Hnull).
    unfold upstreamSends. cbn [upstreamWs scenarioId set_pendingToolCalls].
    now rewrite Hopen.
  - repeat split.
    + now intros l ->.
    + intros H. destruct (get_prop args "lesson_id") as [[| | |l| |]|];
        try reflexivity. now destruct (H l).
    + now intros f ->.
    + intros H. destruct (get_prop args "focus") as [[| | |f| |]|];
        try reflexivity. now destruct (H f).
Qed.

Lemma quiz_defaults_witness :
  exists lesson focus,
    sent_upstream (effects (onToolCallDone Sample2.runtime
                              (Sample2.doneEvent "trigger_quiz" "{}")
                              Sample.active)) =
    [JSON_stringify Sample2.runtime
       (outputItem (Str "call_2")
          (JSON_stringify Sample2.runtime
             (Obj [("ok", Bool true);
                   ("quiz", Obj [("lesson_id", Str lesson);
                                 ("focus", Str focus)])])));
     JSON_stringify Sample2.runtime continuation] /\
    lesson = "a1_taxi_bogota" /\ focus = "vocabulary".
Proof.
  destruct (quiz_defaults_to_session_scenario Sample2.runtime
              (Sample2.doneEvent "trigger_quiz" "{}") (Str "call_2") (Obj [])
              Sample.active eq_refl eq_refl eq_refl eq_refl
              (ex_intro _ "{}" (conj eq_refl eq_refl))
              ltac:(discriminate))
    as (lesson & focus & Hsent & _ & Hlesson & _ & Hfocus).
  exists lesson, focus. split; [exact Hsent|]. split.
  - apply Hlesson. intros l H. discriminate H.
  - apply Hfocus. intros f H. discriminate H.
Defined.

(** *** Events the accumulator ignores *)

(** X7.  An upstream event without a call id (absent, empty or otherwise
    falsy), whatever its type, and a fragment event whose delta is not
    a string, change nothing in the session and send nothing upstream:
    with the client connection open they are forwarded to the client and
    that is all. *)
Theorem events_without_call_id_ignored
    (rt : Runtime) (text : string) (event : value) (s : Session) :
  JSON_parse rt text = Parsed event ->
  event <> Null ->
  is_open (clientWs s) = true ->
  truthy (get_prop event "call_id") = false
  \/ (get_prop event "type" = Some (Str deltaType) /\
      forall d, get_prop event "delta" <> Some (Str d)) ->
  handleUpstreamMessage rt (Text text) s =
  (Returned tt, s, [ClientSend (Text (JSON_stringify rt event))]).
Proof.
  intros Hparse Hnull Hopen Hignored.
  rewrite (handleUpstreamMessage_text rt s text event Hparse).
  assert (Hint : interceptToolCall rt event s = (Returned tt, s, [])).
  { unfold interceptToolCall.
    rewrite (read_prop_not_null _ _ Hnull). run.
    destruct (get_prop event "type") as [[| | |t| |]|] eqn:Hty; try reflexivity.
    destruct (String.eqb_spec t "response.function_call_arguments.delta")
      as [->|Hd].
    - rewrite (onToolCallDelta_run _ _ Hnull). unfold pendingAfterDelta.
      destruct Hignored as [Hid | [_ Hdelta]].
      + destruct (get_prop event "call_id") as [k|];
          [|now rewrite set_pendingToolCalls_same].
        rewrite Hid.
        destruct (get_prop event "delta") as [[]|];
          now rewrite set_pendingToolCalls_same.
      + destruct (get_prop event "call_id") as [k|];
          [|now rewrite set_pendingToolCalls_same].
        destruct (get_prop event "delta") as [[| | |d| |]|];
          try now rewrite set_pendingToolCalls_same.
        now destruct (Hdelta d).
    - destruct (String.eqb_spec t "response.function_call_arguments.done")
        as [->|_]; [|reflexivity].
      destruct Hignored as [Hid | [Hty' _]].
      + exact (onToolCallDone_ignored rt event s Hnull Hid).
      + discriminate Hty'. }
  rewrite (bind_returned _ _ _ _ _ _ Hint), sendClient_run.
  cbn [outcome state_after effects fst snd app]. now rewrite Hopen.
Qed.

Lemma events_without_call_id_witness :
  handleUpstreamMessage Sample2.runtime (Text Sample2.anonymousText) Sample.active =
  (Returned tt, Sample.active,
   [ClientSend (Text (JSON_stringify Sample2.runtime Sample2.anonymousEvent))]).
Proof.
  apply (events_without_call_id_ignored Sample2.runtime Sample2.anonymousText
           Sample2.anonymousEvent Sample.active eq_refl).
  - discriminate.
  - reflexivity.
  - now left.
Defined.

(** *** The relay from the client *)

Lemma client_message_step (rt : Runtime) (scenario : Scenario) (data : WsData)
    (s : Session) :
  connecting s = Resolved ->
  is_open (upstreamWs s) = true ->
  state_after (step rt scenario (ClientMessage data) s) = s /\
  sent_upstream (effects (step rt scenario (ClientMessage data) s))
  = passing rt [data].
Proof.
  intros Hres Hup. unfold step. run. cbn [listener socketUpdate]. run.
  rewrite Hres. unfold passing, passes. cbn [flat_map].
  destruct data as [text|bytes].
  - destruct (JSON_parse rt text) as [parsed|message] eqn:Hparse.
    + assert (Hd : parsed = Null \/ parsed <> Null)
        by (destruct parsed; (now left) || (right; discriminate)).
      destruct Hd as [->|Hnull].
      * now rewrite (handleClientMessage_null rt s text Hup Hparse).
      * rewrite (handleClientMessage_parsed rt s text parsed Hup Hparse Hnull).
        replace (match parsed with
                 | Null => false
                 | _ => negb (rejected (get_prop parsed "type"))
                 end) with (negb (rejected (get_prop parsed "type")))
          by now destruct parsed.
        destruct (rejected (get_prop parsed "type")); cbn [negb].
        -- destruct (notAllowedEvent rt _); [|now split].
           rewrite sendClient_run. cbn [state_after effects fst snd].
           split; [reflexivity|]. now destruct (is_open (clientWs s)).
        -- now split.
    + unfold handleClientMessage. run. rewrite Hup, Hparse. now split.
  - unfold handleClientMessage. run. rewrite Hup. now split.
Qed.

(** X8.  In a bridging session (handshake done, upstream open), for any
    sequence of client messages -- binary, malformed, [null], allowed or
    not: what is sent upstream is exactly the texts that parse and pass
    the whitelist, as they were received and in the order they came, and
    the session is the same afterwards. *)
Theorem client_relay_filters
    (rt : Runtime) (scenario : Scenario) (messages : list WsData) (s : Session) :
  connecting s = Resolved ->
  is_open (upstreamWs s) = true ->
  let r := process rt scenario (map ClientMessage messages) s in
  fst r = s /\ sent_upstream (snd r) = passing rt messages.
Proof.
  intros Hres Hup. cbv zeta.
  induction messages as [|data messages IH]; [now split|].
  cbn [map process fst snd].
  destruct (client_message_step rt scenario data s Hres Hup) as [Hs Hsent].
  rewrite Hs. destruct IH as [IHs IHsent].
  split; [exact IHs|].
  unfold sent_upstream in *. rewrite flat_map_app, Hsent, IHsent.
  unfold passing. cbn [flat_map]. now rewrite app_nil_r.
Qed.

Lemma client_relay_filters_witness :
  sent_upstream
    (snd (process Sample.runtime Sample.scenario
            (map ClientMessage
               [Text Sample.sessionUpdateText; Text Sample.fooText;
                Text "null"; Text "{oops"; Binary [];
                Text Sample.sessionUpdateText])
            Sample.active))
  = [Sample.sessionUpdateText; Sample.sessionUpdateText].
Proof.
  exact (proj2 (client_relay_filters Sample.runtime Sample.scenario
                  [Text Sample.sessionUpdateText; Text Sample.fooText;
                   Text "null"; Text "{oops"; Binary [];
                   Text Sample.sessionUpdateText]
                  Sample.active eq_refl eq_refl)).
Defined.

(** *** A handshake that fails *)

Lemma step_after_failure (rt : Runtime) (scenario : Scenario) (i : Input)
    (s : Session) :
  after_failure i = true ->
  connecting s = Rejected ->
  is_open (clientWs s) = false ->
  let r := step rt scenario i s in
  effects r = [] /\ connecting (state_after r) = Rejected /\
  is_open (clientWs (state_after r)) = false /\
  pendingToolCalls (state_after r) = pendingToolCalls s.
Proof.
  intros Hi Hrej Hcl. cbv zeta. unfold step. run.
  destruct i; try discriminate Hi; cbn [listener socketUpdate].
  - run. rewrite Hrej. now repeat split.
  - run. cbn [connecting set_clientWs]. rewrite Hrej.
    cbn [state_after effects fst snd clientWs set_clientWs ret].
    repeat split; try assumption. now destruct (clientWs s).
  - run. rewrite Hrej. now repeat split.
  - unfold upstreamCloseListener. run. cbn [clientWs set_upstreamWs].
    rewrite Hcl. now repeat split.
  - unfold upstreamErrorListener. run. rewrite Hrej. now repeat split.
Qed.

(** X9.  When the upstream socket errors before it has opened, the client
    is sent one [{type:"error", error:{message}}] event and is closed
    with the code 1011; nothing is sent upstream, and whatever the
    client does afterwards, or a further error or the close of the
    upstream socket, has no effect: no retry, no second notice. *)
Theorem handshake_failure_notifies_once
    (rt : Runtime) (scenario : Scenario) (scenario_id user : string)
    (inputs : list Input) :
  forallb after_failure inputs = true ->
  let r := process rt scenario (UpstreamErrored :: inputs)
             (connectingSession scenario_id user) in
  snd r =
    [ClientSend (Text (JSON_stringify rt
       (Obj [("type", Str "error");
             ("error", Obj [("message", Str upstreamFailureMessage)])])));
     ClientClose 1011 upstreamFailureMessage] /\
  connecting (fst r) = Rejected /\
  pendingToolCalls (fst r) = [].
Proof.
  intros Hinputs. cbv zeta. cbn [process fst snd].
  set (s1 := state_after (step rt scenario UpstreamErrored
                            (connectingSession scenario_id user))).
  assert (Hquiet : forall s, connecting s = Rejected ->
            is_open (clientWs s) = false ->
            snd (process rt scenario inputs s) = [] /\
            connecting (fst (process rt scenario inputs s)) = Rejected /\
            pendingToolCalls (fst (process rt scenario inputs s))
            = pendingToolCalls s).
  { clear s1. induction inputs as [|i inputs IH]; intros s Hrej Hcl;
      [now repeat split|].
    cbn [forallb] in Hinputs. apply andb_prop in Hinputs as [Hi Hinputs].
    cbn [process fst snd].
    destruct (step_after_failure rt scenario i s Hi Hrej Hcl)
      as (He & Hrej' & Hcl' & Hp).
    destruct (IH Hinputs _ Hrej' Hcl') as (He' & Hrej'' & Hp').
    rewrite He, He', Hrej'', Hp', Hp. now repeat split. }
  destruct (Hquiet s1 eq_refl eq_refl) as (He & Hrej & Hp).
  rewrite He, Hrej, Hp. now repeat split.
Qed.

Lemma handshake_failure_witness :
  connecting
    (fst (process Sample.runtime Sample.scenario
            [UpstreamErrored; UpstreamClosed 1006 "";
             ClientMessage (Text Sample.sessionUpdateText); ClientClosed]
            (connectingSession "a1_taxi_bogota" "anonymous")))
  = Rejected.
Proof.
  exact (proj1 (proj2 (handshake_failure_notifies_once Sample.runtime
                         Sample.scenario "a1_taxi_bogota" "anonymous"
                         [UpstreamClosed 1006 "";
                          ClientMessage (Text Sample.sessionUpdateText);
                          ClientClosed] eq_refl))).
Defined.

(** *** After the teardown *)

(** The interception changes the pending calls only. *)
Lemma interceptToolCall_state (rt : Runtime) (event : value) (s : Session) :
  exists m, state_after (interceptToolCall rt event s) = set_pendingToolCalls m s.
Proof.
  unfold interceptToolCall.
  destruct event eqn:Hev;
    try (exists (pendingToolCalls s); cbn; now rewrite set_pendingToolCalls_same).
  rewrite <- Hev. assert (Hnull : event <> Null) by (subst; discriminate).
  rewrite (read_prop_not_null _ _ Hnull). run.
  destruct (get_prop event "type") as [[| | |t| |]|];
    try (exists (pendingToolCalls s); cbn; now rewrite set_pendingToolCalls_same).
  destruct (String.eqb t _).
  { rewrite (onToolCallDelta_run _ _ Hnull). now eexists. }
  destruct (String.eqb t _);
    [|exists (pendingToolCalls s); cbn; now rewrite set_pendingToolCalls_same].
  destruct (truthy (get_prop event "call_id")) eqn:Hid.
  - destruct (get_prop event "call_id") as [callId|] eqn:Hc; [|discriminate].
    rewrite (onToolCallDone_pending rt event callId s Hc Hid). now eexists.
  - rewrite (onToolCallDone_ignored rt event s Hnull Hid).
    exists (pendingToolCalls s). cbn. now rewrite set_pendingToolCalls_same.
Qed.

(** With the upstream connection not open the interception sends
    nothing. *)
Lemma interceptToolCall_closed (rt : Runtime) (event : value) (s : Session) :
  is_open (upstreamWs s) = false ->
  forallb internal (effects (interceptToolCall rt event s)) = true.
Proof.
  intros Hup. unfold interceptToolCall.
  destruct event eqn:Hev; try reflexivity.
  rewrite <- Hev. assert (Hnull : event <> Null) by (subst; discriminate).
  rewrite (read_prop_not_null _ _ Hnull). run.
  destruct (get_prop event "type") as [[| | |t| |]|]; try reflexivity.
  destruct (String.eqb t _).
  { now rewrite (onToolCallDelta_run _ _ Hnull). }
  destruct (String.eqb t _); [|reflexivity].
  destruct (truthy (get_prop event "call_id")) eqn:Hid.
  - destruct (get_prop event "call_id") as [callId|] eqn:Hc; [|discriminate].
    rewrite (onToolCallDone_run rt event callId s Hc Hid). cbv zeta.
    destruct (parses_or_fails rt
                (resolveArgsString (Map_get (pendingToolCalls s) callId) event))
      as [[args Hparse]|[message Hfail]].
    + rewrite (completeToolCall_parsed _ _ _ _ _ _ Hparse). unfold upstreamSends.
      cbn [upstreamWs set_pendingToolCalls]. rewrite Hup.
      now destruct (executeTool rt _ _ _).
    + rewrite (completeToolCall_failed _ _ _ _ _ _ Hfail). unfold upstreamSends.
      cbn [upstreamWs set_pendingToolCalls]. now rewrite Hup.
  - now rewrite (onToolCallDone_ignored rt event s Hnull Hid).
Qed.

Lemma step_torn_down (rt : Runtime) (scenario : Scenario) (i : Input)
    (s : Session) :
  connecting s = Resolved -> clientWs s = None -> upstreamWs s = None ->
  let r := step rt scenario i s in
  forallb internal (effects r) = true /\
  connecting (state_after r) = Resolved /\
  clientWs (state_after r) = None /\ upstreamWs (state_after r) = None.
Proof.
  intros Hres Hcl Hup. cbv zeta. unfold step. run.
  assert (Hsame : socketUpdate i s = s).
  { destruct i; cbn [socketUpdate]; try reflexivity;
      rewrite ?Hcl, ?Hup; cbn [with_state];
      destruct s; cbn in *; now subst. }
  rewrite Hsame. destruct i; cbn [listener].
  - run. rewrite Hres.
    rewrite handleClientMessage_closed by now rewrite Hup.
    now repeat split.
  - run. rewrite Hres, cleanup_run, Hup. now repeat split.
  - run. rewrite Hres, cleanup_run, Hup. now repeat split.
  - unfold upstreamOpenListener.
    rewrite (bind_returned _ _ _ _ _ _ (onUpstreamOpen_run rt scenario s)).
    run. rewrite Hres. unfold upstreamSends. rewrite Hup. now repeat split.
  - destruct data as [text|bytes].
    + unfold handleUpstreamMessage.
      destruct (JSON_parse rt text) as [event|]; [|now repeat split].
      destruct (interceptToolCall_state rt event s) as [m Hm].
      pose proof (interceptToolCall_closed rt event s
                    ltac:(now rewrite Hup)) as Hquiet.
      destruct (interceptToolCall rt event s) as [[[[]|e] s1] t1] eqn:E;
        cbn [state_after effects fst snd] in Hm, Hquiet; subst s1.
      * rewrite (bind_returned _ _ _ _ _ _ E), sendClient_run.
        cbn [outcome state_after effects fst snd clientWs set_pendingToolCalls].
        rewrite Hcl. cbn [is_open]. rewrite app_nil_r. now repeat split.
      * rewrite (bind_thrown _ _ _ _ _ _ E). now repeat split.
    + unfold handleUpstreamMessage. run. rewrite Hcl. now repeat split.
  - unfold upstreamCloseListener. run. rewrite Hcl. now repeat split.
  - unfold upstreamErrorListener. run. rewrite Hres. now repeat split.
Qed.

(** X10.  Once the client connection has closed or errored in a session
    whose handshake had succeeded, the session stays torn down: whatever
    events still arrive, from either side, nothing is sent to the client
    or to the upstream and nothing is closed again, and both connection
    fields stay empty. *)
Theorem torn_down_session_is_silent
    (rt : Runtime) (scenario : Scenario) (i : Input) (inputs : list Input)
    (s : Session) :
  connecting s = Resolved ->
  i = ClientClosed \/ i = ClientErrored ->
  let s' := state_after (step rt scenario i s) in
  let r := process rt scenario inputs s' in
  forallb internal (snd r) = true /\
  clientWs (fst r) = None /\ upstreamWs (fst r) = None.
Proof.
  intros Hres Hi. cbv zeta.
  set (s' := state_after (step rt scenario i s)).
  assert (Hs' : connecting s' = Resolved /\ clientWs s' = None /\ upstreamWs s' = None).
  { subst s'. unfold step. run.
    destruct Hi as [-> | ->]; cbn [listener socketUpdate]; run;
      cbn [connecting set_clientWs]; rewrite Hres, cleanup_run;
      now repeat split. }
  clearbody s'. revert s' Hs'.
  induction inputs as [|j inputs IH]; intros s' (Hr & Hc & Hu); [now repeat split|].
  cbn [process fst snd].
  destruct (step_torn_down rt scenario j s' Hr Hc Hu) as (He & Hr' & Hc' & Hu').
  destruct (IH _ (conj Hr' (conj Hc' Hu'))) as (He' & Hc'' & Hu'').
  rewrite forallb_app, He, He'. now repeat split.
Qed.

Lemma torn_down_session_witness :
  forallb internal
    (snd (process Sample.runtime Sample.scenario
            [UpstreamMessage (Text (Sample.deltaText (Sample.quoted "{")));
             UpstreamMessage (Text (Sample.doneText (Sample.quoted "{oops")));
             UpstreamClosed 1000 ""; ClientClosed]
            (state_after (step Sample.runtime Sample.scenario ClientClosed
                            Sample.active))))
  = true.
Proof.
  exact (proj1 (torn_down_session_is_silent Sample.runtime Sample.scenario
                  ClientClosed
                  [UpstreamMessage (Text (Sample.deltaText (Sample.quoted "{")));
                   UpstreamMessage (Text (Sample.doneText (Sample.quoted "{oops")));
                   UpstreamClosed 1000 ""; ClientClosed]
                  Sample.active eq_refl (or_introl eq_refl))).
Defined.

(** *** What the pending-call map holds *)

(** Whatever [P] holds of the empty map and is kept by the update of
    [onToolCallDelta] and by [delete] holds of the pending calls after
    every event. *)
Lemma step_pending_kept (P : JsMap -> Prop) :
  P [] ->
  (forall m event, P m -> P (pendingAfterDelta event m)) ->
  (forall m k, P m -> P (Map_delete m k)) ->
  forall rt scenario i s,
    P (pendingToolCalls s) ->
    P (pendingToolCalls (state_after (step rt scenario i s))).
Proof.
  intros Hnil Hdelta Hdel rt scenario i s Hs.
  unfold step. run.
  assert (Hs' : P (pendingToolCalls (socketUpdate i s))) by (now destruct i).
  revert Hs'. generalize (socketUpdate i s). clear s Hs. intros s Hs.
  destruct i; cbn [listener].
  - run. destruct (connecting s); try exact Hs.
    now rewrite handleClientMessage_state.
  - run. destruct (connecting s); try exact Hs. now rewrite cleanup_run.
  - run. destruct (connecting s); try exact Hs. now rewrite cleanup_run.
  - unfold upstreamOpenListener.
    rewrite (bind_returned _ _ _ _ _ _ (onUpstreamOpen_run rt scenario s)).
    run. now destruct (connecting s).
  - destruct data as [text|bytes].
    + unfold handleUpstreamMessage.
      destruct (JSON_parse rt text) as [event|]; [|exact Hs].
      assert (Hint : P (pendingToolCalls (state_after (interceptToolCall rt event s)))).
      { destruct (interceptToolCall_pending rt event s)
          as [-> | [(_ & ->) | (_ & k & _ & _ & ->)]];
          [exact Hs | now apply Hdelta | now apply Hdel]. }
      destruct (interceptToolCall rt event s) as [[[[]|e] s1] t1] eqn:E.
      * rewrite (bind_returned _ _ _ _ _ _ E), sendClient_run. exact Hint.
      * now rewrite (bind_thrown _ _ _ _ _ _ E).
    + unfold handleUpstreamMessage. run. now destruct (clientWs s).
  - unfold upstreamCloseListener. run. now destruct (is_open (clientWs s)); run.
  - unfold upstreamErrorListener. run. now destruct (connecting s); run.
Qed.

Lemma well_formed_set (m : JsMap) (k : value) (e : PendingToolCall) :
  well_formed m -> truthy (Some k) = true -> argFragments e <> [] ->
  well_formed (Map_set m k e).
Proof.
  unfold well_formed. intros Hm Hk He.
  induction Hm as [|[k' e'] m [Hk' He'] Hm IH]; cbn [Map_set].
  - now repeat constructor.
  - destruct (same_value_zero k' k); constructor; try assumption;
      now split.
Qed.

Lemma well_formed_delta (m : JsMap) (event : value) :
  well_formed m -> well_formed (pendingAfterDelta event m).
Proof.
  intros Hm. unfold pendingAfterDelta.
  destruct (get_prop event "call_id") as [k|]; [|exact Hm].
  destruct (get_prop event "delta") as [[| | |d| |]|]; try exact Hm.
  destruct (truthy (Some k)) eqn:Hk; [|exact Hm].
  apply well_formed_set; [exact Hm|exact Hk|].
  rewrite pushFragment_fragments. now destruct (fragments_held (Map_get m k)).
Qed.

Lemma well_formed_delete (m : JsMap) (k : value) :
  well_formed m -> well_formed (Map_delete m k).
Proof.
  unfold well_formed, Map_delete. intros Hm.
  rewrite Forall_forall in *. intros p Hp.
  apply filter_In in Hp. now apply Hm.
Qed.

(** X11.  At every point of a session, every key of the pending-call map
    is a value that counts as a call id (no absent, empty or otherwise
    falsy key) and every entry holds at least one fragment: an entry is
    made by the fragment that is pushed onto it. *)
Theorem pending_entries_well_formed
    (rt : Runtime) (scenario : Scenario) (scenario_id user : string)
    (inputs : list Input) :
  well_formed
    (pendingToolCalls
       (fst (process rt scenario inputs (connectingSession scenario_id user)))).
Proof.
  assert (H : forall s, well_formed (pendingToolCalls s) ->
            well_formed (pendingToolCalls (fst (process rt scenario inputs s)))).
  { induction inputs as [|i inputs IH]; intros s Hs; [exact Hs|].
    cbn [process fst]. apply IH.
    apply (step_pending_kept well_formed); try assumption.
    - constructor.
    - intros m event. apply well_formed_delta.
    - intros m k. apply well_formed_delete. }
  apply H. constructor.
Qed.

(** *** The name of an entry *)

Lemma pushFragment_name (found : option PendingToolCall) (event : value)
    (delta : string) :
  name (pushFragment found event delta)
  = match get_prop event "name" with
    | Some (Str n) =>
        if String.eqb n ""
        then match found with Some e => name e | None => Str "" end
        else Str n
    | other =>
        match found with
        | Some e => name e
        | None => or_else other (Str "")
        end
    end.
Proof.
  unfold pushFragment.
  destruct (get_prop event "name") as [[| | |n| |]|]; destruct found as [e|];
    try reflexivity; cbn; now destruct (String.eqb n "").
Qed.

Lemma name_of_fragment (callId : string) (event : value) (n : string) :
  name_of callId event = Some n ->
  exists d, fragment_of callId event = Some d /\
            get_prop event "name" = Some (Str n) /\ n <> "".
Proof.
  unfold name_of. destruct (fragment_of callId event) as [d|]; [|discriminate].
  destruct (get_prop event "name") as [[| | |n'| |]|]; try discriminate.
  destruct (String.eqb_spec n' ""); [discriminate|].
  intros H. injection H as <-. now exists d.
Qed.

(** A sequence of events in which no fragment event for [callId] gives a
    name, and none completes it, leaves the name of its entry alone. *)
Lemma name_kept (rt : Runtime) (callId : string) (events : list value) :
  callId <> "" ->
  (forall ev, In ev events -> completes callId ev = false) ->
  last_name callId events = None ->
  forall s e,
    Map_get (pendingToolCalls s) (Str callId) = Some e ->
    exists e',
      Map_get (pendingToolCalls (intercepted rt events s)) (Str callId) = Some e' /\
      name e' = name e.
Proof.
  intros Hid. induction events as [|ev events IH]; intros Hdone Hlast s e He.
  - now exists e.
  - cbn [last_name] in Hlast.
    destruct (last_name callId events) eqn:Hrest; [discriminate|].
    cbn [intercepted fold_left].
    fold (intercepted rt events (state_after (interceptToolCall rt ev s))).
    assert (Hstep : exists e1,
              Map_get (pendingToolCalls (state_after (interceptToolCall rt ev s)))
                (Str callId) = Some e1 /\ name e1 = name e).
    { destruct (fragment_of callId ev) as [d|] eqn:Hfrag.
      - rewrite (intercept_fragment rt callId ev d s Hid Hfrag), He.
        eexists. split; [reflexivity|]. rewrite pushFragment_name.
        unfold name_of in Hlast. rewrite Hfrag in Hlast.
        destruct (get_prop ev "name") as [[| | |n| |]|]; try reflexivity.
        now destruct (String.eqb n "").
      - rewrite (intercept_other rt callId ev s Hfrag (Hdone ev (or_introl eq_refl))).
        now exists e. }
    destruct Hstep as (e1 & He1 & Hn1).
    destruct (IH (fun x H => Hdone x (or_intror H)) eq_refl _ e1 He1)
      as (e' & He' & Hn').
    exists e'. split; [exact He'|]. now rewrite Hn'.
Qed.

(** X12.  For a call id (a non-empty string), after any sequence of
    upstream events without a completion event for it: when some
    fragment event for the id carried a non-empty string name, the entry
    of the id has the name that the last such fragment carried -- a name
    may come on any fragment, and a later one replaces an earlier one. *)
Theorem last_fragment_name_wins
    (rt : Runtime) (callId : string) (events : list value) (n : string)
    (s : Session) :
  callId <> "" ->
  (forall ev, In ev events -> completes callId ev = false) ->
  last_name callId events = Some n ->
  exists entry,
    Map_get (pendingToolCalls (intercepted rt events s)) (Str callId) = Some entry /\
    name entry = Str n.
Proof.
  intros Hid. revert s. induction events as [|ev events IH];
    intros s Hdone Hlast; [discriminate|].
  cbn [last_name] in Hlast. cbn [intercepted fold_left].
  fold (intercepted rt events (state_after (interceptToolCall rt ev s))).
  destruct (last_name callId events) as [n'|] eqn:Hrest.
  - injection Hlast as ->.
    apply (IH _ (fun x H => Hdone x (or_intror H)) eq_refl).
  - destruct (name_of_fragment callId ev n Hlast) as (d & Hfrag & Hname & Hn).
    destruct (name_kept rt callId events Hid
                (fun x H => Hdone x (or_intror H)) Hrest
                (state_after (interceptToolCall rt ev s))
                (pushFragment (Map_get (pendingToolCalls s) (Str callId)) ev d)
                (intercept_fragment rt callId ev d s Hid Hfrag))
      as (e' & He' & Hn').
    exists e'. split; [exact He'|].
    rewrite Hn', pushFragment_name, Hname.
    now destruct (String.eqb_spec n "").
Qed.

Lemma last_fragment_name_witness :
  exists entry,
    Map_get (pendingToolCalls
               (intercepted Sample.runtime
                  [Sample.deltaEvent "{"; Sample2.namedDelta "trigger_quiz" "";
                   Sample2.namedDelta "grade_lesson" "}"; Sample.deltaEvent ""]
                  Sample.active))
      (Str "call_1") = Some entry /\
    name entry = Str "grade_lesson".
Proof.
  apply (last_fragment_name_wins Sample.runtime "call_1"
           [Sample.deltaEvent "{"; Sample2.namedDelta "trigger_quiz" "";
            Sample2.namedDelta "grade_lesson" "}"; Sample.deltaEvent ""]
           "grade_lesson" Sample.active).
  - discriminate.
  - intros ev [<-|[<-|[<-|[<-|[]]]]]; reflexivity.
  - reflexivity.
Defined.

(** *** The worker: origins *)

Lemma isOriginAllowed_true (pf : Platform) (origin : option string)
    (allowedOrigins : string) :
  isOriginAllowed pf origin allowedOrigins = true <->
  allowedOrigins = ""
  \/ exists o, origin = Some o /\ o <> "" /\ In o (allowedList pf allowedOrigins).
Proof.
  unfold isOriginAllowed, allowedList, present.
  destruct (String.eqb_spec allowedOrigins "") as [->|Hconf].
  - split; [now left|reflexivity].
  - destruct origin as [o|]; cbn [negb].
    + destruct (String.eqb_spec o "") as [->|Ho]; cbn [negb].
      * split; [discriminate|]. intros [H|(o & Ho & Hne & _)]; [contradiction|].
        injection Ho as <-. contradiction.
      * rewrite existsb_exists. split.
        -- intros (x & Hin & Hx). apply String.eqb_eq in Hx. subst x.
           right. now exists o.
        -- intros [H|(o' & Ho' & _ & Hin)]; [contradiction|].
           injection Ho' as <-. exists o. split; [exact Hin|apply String.eqb_refl].
    + split; [discriminate|]. intros [H|(o & Ho & _)]; [contradiction|discriminate].
Qed.

Lemma cors_allow_origin_aux (pf : Platform) (origin : option string)
    (allowedOrigins v : string) :
  In (allowOrigin, v) (corsHeaders pf origin allowedOrigins) ->
  isOriginAllowed pf origin allowedOrigins = true.
Proof.
  unfold corsHeaders. intros Hin.
  destruct (isOriginAllowed pf origin allowedOrigins); [reflexivity|].
  cbn in Hin. destruct Hin as [H|[H|[]]]; discriminate H.
Qed.

(** X13.  The CORS headers carry [Access-Control-Allow-Origin] only for
    an allowed origin, and then once: its value is the request's own
    origin, which is then one of the configured entries whenever entries
    are configured; the wildcard [*] is given only to a request without
    an origin, and only while no allowed origins are configured. *)
Theorem cors_allow_origin
    (pf : Platform) (origin : option string) (allowedOrigins v : string) :
  In (allowOrigin, v) (corsHeaders pf origin allowedOrigins) ->
  isOriginAllowed pf origin allowedOrigins = true /\
  corsHeaders pf origin allowedOrigins =
    [("Access-Control-Allow-Methods", "GET, OPTIONS");
     ("Access-Control-Allow-Headers", "Content-Type");
     (allowOrigin, v)] /\
  ((origin = Some v /\ v <> "")
   \/ (v = "*" /\ present origin = false /\ allowedOrigins = "")) /\
  (allowedOrigins <> "" -> In v (allowedList pf allowedOrigins)).
Proof.
  unfold corsHeaders. intros Hin.
  destruct (isOriginAllowed pf origin allowedOrigins) eqn:Hallowed.
  - cbn in Hin. destruct Hin as [H|[H|[H|[]]]]; try discriminate H.
    injection H as Hv. split; [reflexivity|]. split; [cbn; now rewrite Hv|].
    apply isOriginAllowed_true in Hallowed.
    destruct Hallowed as [-> | (o & -> & Ho & Hin)].
    + split; [|intros H; now destruct H].
      destruct origin as [o|]; cbn in Hv |- *.
      * destruct (String.eqb_spec o "") as [->|Ho].
        -- right. now subst v.
        -- left. subst v. now split.
      * right. now subst v.
    + cbn in Hv. destruct (String.eqb_spec o ""); [contradiction|]. subst v.
      split; [left; now split|]. intros _. exact Hin.
  - cbn in Hin. destruct Hin as [H|[H|[]]]; discriminate H.
Qed.

Lemma cors_allow_origin_witness :
  corsHeaders SampleWorker.platform (Some "http://localhost:5173")
    SampleWorker.allowed =
  [("Access-Control-Allow-Methods", "GET, OPTIONS");
   ("Access-Control-Allow-Headers", "Content-Type");
   (allowOrigin, "http://localhost:5173")] /\
  In "http://localhost:5173" (allowedList SampleWorker.platform SampleWorker.allowed).
Proof.
  destruct (cors_allow_origin SampleWorker.platform (Some "http://localhost:5173")
              SampleWorker.allowed "http://localhost:5173")
    as (_ & Hheaders & _ & Hin).
  - cbn. tauto.
  - split; [exact Hheaders|]. apply Hin. discriminate.
Defined.

(** *** The worker: routes *)

(** What [workerFetch] has checked when it forwards. *)
Lemma workerFetch_forward
    (pf : Platform) (catalog : Catalog) (allowedOrigins : string) (now : Z)
    (request : Request) (doName : string) :
  workerFetch pf catalog allowedOrigins now request = Forward doName ->
  method request <> "OPTIONS" /\
  pathname request = "/ws" /\
  (exists u, upgradeHeader request = Some u /\
             String_toLowerCase pf u = "websocket") /\
  (isOriginAllowed pf (originHeader request) allowedOrigins = true
   \/ present (originHeader request) = false) /\
  (exists scenario, scenarioParam request = Some scenario /\ scenario <> "" /\
     doName = string_or_else (userParam request) "anonymous" ++ ":" ++ scenario
              ++ ":" ++ DecimalString.NilZero.string_of_int (Z.to_int now)).
Proof.
  unfold workerFetch. intros H.
  destruct (String.eqb_spec (method request) "OPTIONS") as [|Hmethod];
    [discriminate H|].
  destruct (_ && _ && _ && _); [discriminate H|].
  destruct (String.eqb (pathname request) "/api/health"); [discriminate H|].
  destruct (String.eqb (pathname request) "/api/scenarios"); [discriminate H|].
  destruct (String.prefix "/api/scenarios/" (pathname request)).
  { destruct (getScenario catalog _) as [[]|]; discriminate H. }
  destruct (String.eqb_spec (pathname request) "/ws") as [Hpath|];
    [|discriminate H].
  destruct (notWebSocketUpgrade pf (upgradeHeader request)) eqn:Hup;
    [discriminate H|].
  destruct (negb (isOriginAllowed pf (originHeader request) allowedOrigins)
            && present (originHeader request)) eqn:Horigin; [discriminate H|].
  destruct (String.eqb_spec (string_or_else (scenarioParam request) "") "")
    as [|Hscenario]; [discriminate H|].
  injection H as <-.
  split; [exact Hmethod|]. split; [exact Hpath|]. split; [|split].
  - unfold notWebSocketUpgrade, present in Hup.
    destruct (upgradeHeader request) as [u|]; [|discriminate Hup].
    exists u. split; [reflexivity|]. cbn in Hup.
    destruct (String.eqb_spec u ""); [discriminate Hup|]. cbn in Hup.
    destruct (String.eqb_spec (String_toLowerCase pf u) "websocket");
      [assumption|discriminate Hup].
  - destruct (isOriginAllowed pf _ _); [now left|]. right.
    now destruct (present _).
  - destruct (scenarioParam request) as [scenario|]; [|now destruct Hscenario].
    exists scenario. cbn in Hscenario |- *.
    destruct (String.eqb_spec scenario ""); [now destruct Hscenario|].
    now repeat split.
Qed.

(** X14.  The worker passes a request on to a session only when the path
    is [/ws], the [Upgrade] header is [websocket] in any letter case,
    the origin is allowed or there is none, and the [scenario] parameter
    is there and not empty; the session's name is then made of the user
    (or [anonymous]), the scenario and the time. *)
Theorem forwarded_only_if
    (pf : Platform) (catalog : Catalog) (allowedOrigins : string) (now : Z)
    (request : Request) (doName : string) :
  workerFetch pf catalog allowedOrigins now request = Forward doName ->
  method request <> "OPTIONS" /\
  pathname request = "/ws" /\
  (exists u, upgradeHeader request = Some u /\
             String_toLowerCase pf u = "websocket") /\
  (isOriginAllowed pf (originHeader request) allowedOrigins = true
   \/ present (originHeader request) = false) /\
  (exists scenario, scenarioParam request = Some scenario /\ scenario <> "" /\
     doName = string_or_else (userParam request) "anonymous" ++ ":" ++ scenario
              ++ ":" ++ DecimalString.NilZero.string_of_int (Z.to_int now)).
Proof. apply workerFetch_forward. Qed.

Lemma forwarded_only_if_witness :
  workerFetch SampleWorker.platform SampleWorker.catalog SampleWorker.allowed 1700
    (SampleWorker.upgradeRequest (Some "https://tutor.example"))
  = Forward "anonymous:a1_taxi_bogota:1700" /\
  String_toLowerCase SampleWorker.platform "WebSocket" = "websocket".
Proof.
  split; [reflexivity|].
  destruct (forwarded_only_if SampleWorker.platform SampleWorker.catalog
              SampleWorker.allowed 1700
              (SampleWorker.upgradeRequest (Some "https://tutor.example"))
              "anonymous:a1_taxi_bogota:1700" eq_refl)
    as (_ & _ & (u & Hu & Hlower) & _).
  injection Hu as <-. exact Hlower.
Defined.

(** X15.  A request that names an origin that is not allowed is never
    passed on to a session and never gets an [Access-Control-Allow-Origin]
    header; and when it is a [GET] without [Upgrade] header for a path
    that starts with [/api], the answer is 403 whatever the route. *)
Theorem disallowed_origin_refused
    (pf : Platform) (catalog : Catalog) (allowedOrigins : string) (now : Z)
    (request : Request) :
  present (originHeader request) = true ->
  isOriginAllowed pf (originHeader request) allowedOrigins = false ->
  exists response,
    workerFetch pf catalog allowedOrigins now request = Respond response /\
    (forall v, ~ In (allowOrigin, v) (headers response)) /\
    (method request = "GET" -> present (upgradeHeader request) = false ->
     String.prefix "/api" (pathname request) = true ->
     response = {| status := 403; body := TextBody "Origin not allowed";
                   headers := [] |}).
Proof.
  intros Hpresent Hallowed.
  assert (Hcors : forall v, ~ In (allowOrigin, v)
                    (corsHeaders pf (originHeader request) allowedOrigins)).
  { intros v Hin. apply cors_allow_origin_aux in Hin. congruence. }
  unfold workerFetch. rewrite Hallowed, Hpresent. cbn [negb andb].
  destruct (String.eqb_spec (method request) "OPTIONS") as [Hopt|_].
  { eexists. split; [reflexivity|]. split; [exact Hcors|].
    intros Hget. rewrite Hget in Hopt. discriminate Hopt. }
  destruct (String.eqb_spec (method request) "GET") as [Hget|Hget];
    destruct (present (upgradeHeader request)) eqn:Hup;
    destruct (String.prefix "/api" (pathname request)) eqn:Hapi;
    cbn [negb andb];
    try (eexists; split; [reflexivity|]; split; [intros v []|reflexivity]).
  all: destruct (String.eqb (pathname request) "/api/health");
    [eexists; split; [reflexivity|]; split; [exact Hcors|];
     intros; congruence|].
  all: destruct (String.eqb (pathname request) "/api/scenarios");
    [eexists; split; [reflexivity|]; split; [exact Hcors|];
     intros; congruence|].
  all: destruct (String.prefix "/api/scenarios/" (pathname request));
    [destruct (getScenario catalog _) as [[]|];
     (eexists; split; [reflexivity|]; split; [exact Hcors|];
      intros; congruence)|].
  all: destruct (String.eqb (pathname request) "/ws");
    [|eexists; split; [reflexivity|]; split; [intros v []|];
      intros; congruence].
  all: destruct (notWebSocketUpgrade pf (upgradeHeader request));
    eexists; (split; [reflexivity|]); (split; [intros v []|]);
    intros; congruence.
Qed.

Lemma disallowed_origin_refused_witness :
  workerFetch SampleWorker.platform SampleWorker.catalog SampleWorker.allowed 1700
    (SampleWorker.getRequest "/api/scenarios" (Some "https://evil.example"))
  = Respond {| status := 403; body := TextBody "Origin not allowed";
               headers := [] |} /\
  workerFetch SampleWorker.platform SampleWorker.catalog SampleWorker.allowed 1700
    (SampleWorker.upgradeRequest (Some "https://evil.example"))
  = Respond {| status := 403; body := TextBody "Origin not allowed";
               headers := [] |}.
Proof.
  split; [|reflexivity].
  destruct (disallowed_origin_refused SampleWorker.platform SampleWorker.catalog
              SampleWorker.allowed 1700
              (SampleWorker.getRequest "/api/scenarios" (Some "https://evil.example"))
              eq_refl eq_refl)
    as (response & Hfetch & _ & Hstatus).
  rewrite Hfetch. f_equal. now apply Hstatus.
Defined.

(** *** The worker: the scenario route *)

Lemma split_on_last (c : ascii) (s1 s2 : string) (d : string) :
  exists hd tl,
    split_on c (s1 ++ String c s2) = hd :: tl /\ tl <> [] /\
    last tl d = last (split_on c s2) d.
Proof.
  assert (Hne : forall s, split_on c s <> []).
  { induction s as [|a s IH]; cbn [split_on]; [discriminate|].
    destruct (split_on c s); [contradiction|]. now destruct (Ascii.eqb a c). }
  induction s1 as [|a s1 (hd & tl & Hsplit & Htl & Hlast)];
    cbn [append split_on].
  - rewrite Ascii.eqb_refl. specialize (Hne s2).
    destruct (split_on c s2) as [|hd tl]; [contradiction|].
    exists EmptyString, (hd :: tl). now repeat split.
  - rewrite Hsplit. destruct (Ascii.eqb a c).
    + exists EmptyString, (hd :: tl). repeat split; [discriminate|].
      destruct tl; [contradiction|exact Hlast].
    + exists (String a hd), tl. now repeat split.
Qed.

Lemma split_on_whole (c : ascii) (s : string) :
  has_char c s = false -> split_on c s = [s].
Proof.
  induction s as [|a s IH]; cbn [has_char split_on]; [reflexivity|].
  intros H. apply orb_false_elim in H as [Ha Hs].
  now rewrite (IH Hs), Ha.
Qed.

Lemma last_segment (c : ascii) (dir id : string) :
  has_char c id = false ->
  last (split_on c (dir ++ String c id)) EmptyString = id.
Proof.
  intros Hid.
  destruct (split_on_last c dir id EmptyString) as (hd & tl & Hsplit & Htl & Hlast).
  rewrite Hsplit. cbn [last]. destruct tl; [contradiction|].
  now rewrite Hlast, (split_on_whole c id Hid).
Qed.

Lemma prefix_app (s1 s2 : string) : String.prefix s1 (s1 ++ s2) = true.
Proof.
  induction s1 as [|a s1 IH]; cbn [append String.prefix]; [now destruct s2|].
  now destruct (Ascii.ascii_dec a a).
Qed.

Lemma Object_prototype_In (id : string) :
  existsb (String.eqb id) Object_prototype = true <-> In id Object_prototype.
Proof.
  rewrite existsb_exists. split.
  - intros (x & Hin & H). apply String.eqb_eq in H. now subst.
  - intros H. exists id. split; [exact H|apply String.eqb_refl].
Qed.

Lemma getScenario_run (catalog : Catalog) (id : string) :
  getScenario catalog id =
  if String.eqb id "a1_taxi_bogota" then Some (Own (a1TaxiBogota catalog))
  else if existsb (String.eqb id) Object_prototype then Some (Inherited id)
  else None.
Proof.
  unfold getScenario, scenarioMap. cbn [find fst].
  now destruct (String.eqb id "a1_taxi_bogota").
Qed.

Lemma getScenario_Some (catalog : Catalog) (id : string) (found : Member) :
  getScenario catalog id = Some found <-> looked_up catalog id found.
Proof.
  rewrite getScenario_run. unfold looked_up.
  destruct (String.eqb_spec id "a1_taxi_bogota") as [->|Hid].
  - split.
    + intros H. injection H as <-. now left.
    + intros [[_ ->]|[Hin _]]; [reflexivity|].
      cbn in Hin. repeat (destruct Hin as [Hin|Hin]; [discriminate Hin|]).
      contradiction.
  - destruct (existsb (String.eqb id) Object_prototype) eqn:E.
    + apply Object_prototype_In in E. split.
      * intros H. injection H as <-. now right.
      * intros [[H _]|[_ ->]]; [contradiction|reflexivity].
    + split; [discriminate|].
      intros [[H _]|[Hin _]]; [contradiction|].
      apply Object_prototype_In in Hin. congruence.
Qed.

Lemma getScenario_None (catalog : Catalog) (id : string) :
  getScenario catalog id = None <-> unknown_id id.
Proof.
  rewrite getScenario_run. unfold unknown_id.
  destruct (String.eqb_spec id "a1_taxi_bogota") as [->|Hid].
  - split; [discriminate|]. now intros [H _].
  - destruct (existsb (String.eqb id) Object_prototype) eqn:E.
    + apply Object_prototype_In in E. split; [discriminate|]. now intros [_ H].
    + split; [|reflexivity]. intros _. split; [exact Hid|].
      intros Hin. apply Object_prototype_In in Hin. congruence.
Qed.

(** X16.  [GET /api/scenarios/<id>], for an id without a slash and an
    origin that is allowed or absent, looks up exactly [<id>] in the
    scenario map, an object literal: for [a1_taxi_bogota] the answer is
    the bundled scenario with the status 200; for a name that an object
    literal inherits ([constructor], [toString], [__proto__], ...) the
    lookup gives that member of [Object.prototype], and the handler
    passes it to [Response.json] as if it were a scenario, with no 404;
    for every other id the answer is [{error:"Scenario not found"}] with
    the status 404.  Each comes with the CORS headers. *)
Theorem scenario_route
    (pf : Platform) (catalog : Catalog) (allowedOrigins : string) (now : Z)
    (request : Request) (id : string) :
  method request <> "OPTIONS" ->
  isOriginAllowed pf (originHeader request) allowedOrigins = true
  \/ present (originHeader request) = false ->
  pathname request = "/api/scenarios/" ++ id ->
  has_char "/" id = false ->
  let cors := corsHeaders pf (originHeader request) allowedOrigins in
  let r := workerFetch pf catalog allowedOrigins now request in
  (id = "a1_taxi_bogota" ->
   r = Respond {| status := 200; body := ScenarioBody (a1TaxiBogota catalog);
                  headers := cors |}) /\
  (In id Object_prototype ->
   r = Respond {| status := 200; body := MemberBody id; headers := cors |}) /\
  (unknown_id id ->
   r = Respond {| status := 404;
                  body := JsonBody (Obj [("error", Str "Scenario not found")]);
                  headers := cors |}).
Proof.
  intros Hmethod Horigin Hpath Hid cors r.
  assert (Hr : r = Respond
    match getScenario catalog id with
    | Some (Own scenario) =>
        {| status := 200; body := ScenarioBody scenario; headers := cors |}
    | Some (Inherited name) =>
        {| status := 200; body := MemberBody name; headers := cors |}
    | None =>
        {| status := 404;
           body := JsonBody (Obj [("error", Str "Scenario not found")]);
           headers := cors |}
    end).
  { subst r cors. unfold workerFetch.
    destruct (String.eqb_spec (method request) "OPTIONS"); [contradiction|].
    replace (String.eqb (method request) "GET"
             && negb (present (upgradeHeader request))
             && negb (isOriginAllowed pf (originHeader request) allowedOrigins)
             && (present (originHeader request)
                 && String.prefix "/api" (pathname request)))
      with false
      by (destruct Horigin as [-> | ->]; cbn [negb andb];
          now rewrite ?andb_false_r).
    rewrite Hpath, prefix_app.
    change ("/api/scenarios/" ++ id) with ("/api/scenarios" ++ String "/" id).
    rewrite (last_segment "/" "/api/scenarios" id Hid).
    cbn [append String.eqb Ascii.eqb Bool.eqb].
    replace (string_or_else (Some id) "") with id
      by (cbn; now destruct (String.eqb_spec id "")).
    now destruct (getScenario catalog id) as [[]|]. }
  rewrite Hr. split; [|split].
  - intros ->. now rewrite getScenario_run.
  - intros Hin.
    assert (H : getScenario catalog id = Some (Inherited id))
      by (apply getScenario_Some; now right).
    now rewrite H.
  - intros Hun. apply (getScenario_None catalog) in Hun. now rewrite Hun.
Qed.

Lemma scenario_route_witness :
  workerFetch SampleWorker.platform SampleWorker.catalog SampleWorker.allowed 1700
    (SampleWorker.getRequest "/api/scenarios/a1_taxi_bogota" None)
  = Respond {| status := 200; body := ScenarioBody Sample.scenario;
               headers := [("Access-Control-Allow-Methods", "GET, OPTIONS");
                           ("Access-Control-Allow-Headers", "Content-Type")] |}.
Proof.
  exact (proj1 (scenario_route SampleWorker.platform SampleWorker.catalog
           SampleWorker.allowed 1700
           (SampleWorker.getRequest "/api/scenarios/a1_taxi_bogota" None)
           "a1_taxi_bogota" ltac:(discriminate) (or_intror eq_refl)
           eq_refl eq_refl) eq_refl).
Defined.

(** The lookup of an inherited name: [GET /api/scenarios/constructor] is
    not answered with 404. *)
Example scenario_route_constructor :
  workerFetch SampleWorker.platform SampleWorker.catalog SampleWorker.allowed 1700
    (SampleWorker.getRequest "/api/scenarios/constructor" None)
  = Respond {| status := 200; body := MemberBody "constructor";
               headers := [("Access-Control-Allow-Methods", "GET, OPTIONS");
                           ("Access-Control-Allow-Headers", "Content-Type")] |}.
Proof. reflexivity. Qed.

(** *** The prologue of [RealtimeSession.fetch] *)

Lemma sessionFetch_run (pf : Platform) (catalog : Catalog) (request : Request)
    (s : Session) :
  let scenario_id := string_or_else (scenarioParam request) "" in
  let user := string_or_else (userParam request) "anonymous" in
  sessionFetch pf catalog request s =
  if notWebSocketUpgrade pf (upgradeHeader request) then
    (Refused {| status := 426; body := TextBody "Expected WebSocket upgrade";
                headers := [] |}, s)
  else
    match getScenario catalog scenario_id with
    | None =>
        (Refused {| status := 400;
                    body := TextBody ("Unknown scenario: " ++ scenario_id);
                    headers := [] |},
         set_userId user (set_scenarioId scenario_id s))
    | Some found =>
        (Upgrading found,
         {| clientWs := Some OPEN; upstreamWs := Some CONNECTING;
            scenarioId := scenario_id; userId := user;
            pendingToolCalls := pendingToolCalls s; connecting := Pending |})
    end.
Proof.
  cbv zeta. unfold sessionFetch.
  destruct (notWebSocketUpgrade pf (upgradeHeader request)); [reflexivity|].
  cbn [scenarioId set_userId set_scenarioId].
  now destruct (getScenario catalog _).
Qed.

(** X17.  [RealtimeSession.fetch] refuses a request that is no WebSocket
    upgrade with 426 and leaves the session untouched; it refuses with
    400 and the message [Unknown scenario: <id>] a scenario id that is
    neither [a1_taxi_bogota] nor a name that an object literal inherits,
    having recorded the id and the user but accepted no client socket and
    created no upstream socket; otherwise -- for [a1_taxi_bogota], and
    also for [constructor], [toString], [__proto__] and the like, for
    which the lookup gives a member of [Object.prototype] -- the client
    socket is accepted and the upstream socket is connecting, and for a
    session that was just constructed this is the state the handshake
    starts from. *)
Theorem session_fetch_outcomes
    (pf : Platform) (catalog : Catalog) (request : Request) (s : Session) :
  let scenario_id := string_or_else (scenarioParam request) "" in
  let user := string_or_else (userParam request) "anonymous" in
  let r := sessionFetch pf catalog request s in
  (forall response, fst r = Refused response ->
     clientWs (snd r) = clientWs s /\ upstreamWs (snd r) = upstreamWs s /\
     pendingToolCalls (snd r) = pendingToolCalls s /\
     ((status response = 426%Z /\ snd r = s /\
       notWebSocketUpgrade pf (upgradeHeader request) = true)
      \/ (status response = 400%Z /\
          body response = TextBody ("Unknown scenario: " ++ scenario_id) /\
          unknown_id scenario_id /\
          scenarioId (snd r) = scenario_id /\ userId (snd r) = user))) /\
  (forall found, fst r = Upgrading found ->
     notWebSocketUpgrade pf (upgradeHeader request) = false /\
     looked_up catalog scenario_id found /\
     clientWs (snd r) = Some OPEN /\ upstreamWs (snd r) = Some CONNECTING /\
     connecting (snd r) = Pending /\
     (s = newSession -> snd r = connectingSession scenario_id user)) /\
  (notWebSocketUpgrade pf (upgradeHeader request) = false ->
   forall found, looked_up catalog scenario_id found -> fst r = Upgrading found).
Proof.
  cbv zeta. rewrite sessionFetch_run. cbv zeta.
  destruct (notWebSocketUpgrade pf (upgradeHeader request)).
  - split; [|split; discriminate]. intros response H. injection H as <-.
    repeat split. now left.
  - destruct (getScenario catalog _) as [found|] eqn:Hget; split; try discriminate.
    + split.
      * intros found' H. injection H as <-. repeat split.
        -- now apply getScenario_Some.
        -- now intros ->.
      * intros _ found' H. apply (getScenario_Some catalog) in H.
        rewrite Hget in H. now injection H as ->.
    + intros response H. injection H as <-. repeat split. right.
      repeat split; now apply (getScenario_None catalog).
    + split; [discriminate|].
      intros _ found' H. apply (getScenario_Some catalog) in H.
      rewrite Hget in H. discriminate H.
Qed.

Lemma session_fetch_outcomes_witness :
  sessionFetch SampleWorker.platform SampleWorker.catalog
    (SampleWorker.upgradeRequest None) newSession
  = (Upgrading (Own Sample.scenario),
     connectingSession "a1_taxi_bogota" "anonymous").
Proof.
  pose proof (session_fetch_outcomes SampleWorker.platform SampleWorker.catalog
                (SampleWorker.upgradeRequest None) newSession) as H.
  cbv zeta in H. destruct H as (_ & H & _).
  destruct (H (Own Sample.scenario) eq_refl) as (_ & _ & _ & _ & _ & Hs).
  rewrite (surjective_pairing (sessionFetch _ _ _ _)).
  now rewrite (Hs eq_refl).
Defined.

(** *** From the worker to the session *)

Lemma workerFetch_upgrade (pf : Platform) (catalog : Catalog)
    (allowedOrigins : string) (now : Z) (request : Request) (doName : string) :
  workerFetch pf catalog allowedOrigins now request = Forward doName ->
  notWebSocketUpgrade pf (upgradeHeader request) = false.
Proof.
  unfold workerFetch. intros H.
  destruct (String.eqb (method request) "OPTIONS"); [discriminate H|].
  destruct (_ && _ && _ && _); [discriminate H|].
  destruct (String.eqb (pathname request) "/api/health"); [discriminate H|].
  destruct (String.eqb (pathname request) "/api/scenarios"); [discriminate H|].
  destruct (String.prefix "/api/scenarios/" (pathname request)).
  { destruct (getScenario catalog _) as [[]|]; discriminate H. }
  destruct (String.eqb (pathname request) "/ws"); [|discriminate H].
  now destruct (notWebSocketUpgrade pf (upgradeHeader request)).
Qed.

Lemma workerFetch_ws (pf : Platform) (catalog : Catalog) (allowedOrigins : string)
    (now : Z) (request : Request) :
  method request <> "OPTIONS" ->
  pathname request = "/ws" ->
  notWebSocketUpgrade pf (upgradeHeader request) = false ->
  isOriginAllowed pf (originHeader request) allowedOrigins = true
  \/ present (originHeader request) = false ->
  present (scenarioParam request) = true ->
  exists doName, workerFetch pf catalog allowedOrigins now request = Forward doName.
Proof.
  intros Hmethod Hpath Hup Horigin Hscenario. unfold workerFetch.
  destruct (String.eqb_spec (method request) "OPTIONS"); [contradiction|].
  assert (Hpresent : present (upgradeHeader request) = true).
  { unfold notWebSocketUpgrade in Hup. now destruct (present _). }
  rewrite Hpresent, Hpath, Hup. cbn [negb andb].
  rewrite andb_false_r. cbn [andb String.eqb Ascii.eqb Bool.eqb String.prefix].
  replace (negb (isOriginAllowed pf (originHeader request) allowedOrigins)
           && present (originHeader request)) with false
    by (destruct Horigin as [-> | ->]; now rewrite ?andb_false_r).
  replace (String.eqb (string_or_else (scenarioParam request) "") "") with false.
  - now eexists.
  - unfold present in Hscenario. destruct (scenarioParam request) as [v|];
      [|discriminate]. cbn.
    destruct (String.eqb_spec v ""); [discriminate|].
    symmetry. now apply String.eqb_neq.
Qed.

(** X18.  A request reaches a session that starts the upstream handshake
    exactly when its method is not [OPTIONS], its path is [/ws], it asks
    for a WebSocket upgrade, its origin is allowed or absent, and its
    [scenario] parameter is [a1_taxi_bogota] or a name that an object
    literal inherits ([constructor], [toString], [__proto__], ...), for
    which the lookup gives a member of [Object.prototype] and not
    [undefined]; the session is then the connecting session of that id
    and of the user, [anonymous] when none is given. *)
Theorem route_opens_session
    (pf : Platform) (catalog : Catalog) (allowedOrigins : string) (now : Z)
    (request : Request) (found : Member) (s' : Session) :
  route pf catalog allowedOrigins now request = inr (Upgrading found, s')
  <->
  method request <> "OPTIONS" /\
  pathname request = "/ws" /\
  notWebSocketUpgrade pf (upgradeHeader request) = false /\
  (isOriginAllowed pf (originHeader request) allowedOrigins = true
   \/ present (originHeader request) = false) /\
  looked_up catalog (string_or_else (scenarioParam request) "") found /\
  s' = connectingSession (string_or_else (scenarioParam request) "")
         (string_or_else (userParam request) "anonymous").
Proof.
  unfold route. split.
  - destruct (workerFetch pf catalog allowedOrigins now request)
      as [response|doName] eqn:Hworker; [discriminate|].
    destruct (workerFetch_forward pf catalog allowedOrigins now request doName Hworker)
      as (Hmethod & Hpath & _ & Horigin & _).
    pose proof (workerFetch_upgrade pf catalog allowedOrigins now request doName
                  Hworker) as Hup.
    rewrite sessionFetch_run. cbv zeta. rewrite Hup.
    destruct (getScenario catalog _) as [found'|] eqn:Hget; [|discriminate].
    intros H. injection H as <- <-.
    split; [exact Hmethod|]. split; [exact Hpath|]. split; [reflexivity|].
    split; [exact Horigin|]. split; [|reflexivity].
    now apply getScenario_Some.
  - intros (Hmethod & Hpath & Hup & Horigin & Hget & ->).
    assert (Hscenario : present (scenarioParam request) = true).
    { assert (Hne : string_or_else (scenarioParam request) "" <> "").
      { intros E. rewrite E in Hget.
        destruct Hget as [[H _]|[H _]]; [discriminate H|].
        cbn in H. repeat (destruct H as [H|H]; [discriminate H|]). contradiction. }
      unfold present, string_or_else in *.
      destruct (scenarioParam request) as [v|]; [|now destruct Hne].
      now destruct (String.eqb v ""). }
    destruct (workerFetch_ws pf catalog allowedOrigins now request
                Hmethod Hpath Hup Horigin Hscenario) as [doName ->].
    rewrite sessionFetch_run. cbv zeta. rewrite Hup.
    apply (getScenario_Some catalog) in Hget. now rewrite Hget.
Qed.

Lemma route_opens_session_witness :
  route SampleWorker.platform SampleWorker.catalog SampleWorker.allowed 1700
    (SampleWorker.upgradeRequest (Some "http://localhost:5173"))
  = inr (Upgrading (Own Sample.scenario),
         connectingSession "a1_taxi_bogota" "anonymous").
Proof.
  apply (proj2 (route_opens_session SampleWorker.platform SampleWorker.catalog
                  SampleWorker.allowed 1700
                  (SampleWorker.upgradeRequest (Some "http://localhost:5173"))
                  (Own Sample.scenario)
                  (connectingSession "a1_taxi_bogota" "anonymous"))).
  split; [discriminate|]. split; [reflexivity|]. split; [reflexivity|].
  split; [left; reflexivity|]. split; [now left|reflexivity].
Defined.

(** A session is opened for the scenario id [constructor]. *)
Example route_opens_session_for_constructor :
  route SampleWorker.platform SampleWorker.catalog SampleWorker.allowed 1700
    {| method := "GET"; pathname := "/ws"; originHeader := None;
       upgradeHeader := Some "websocket";
       scenarioParam := Some "constructor"; userParam := Some "u1" |}
  = inr (Upgrading (Inherited "constructor"),
         connectingSession "constructor" "u1").
Proof. reflexivity. Qed.
